(** * pica-video: frame timestamping, frame renaming, transcription output
      and legibility filtering

    A shallow embedding of the pipeline of [pica.video.09.py], of the
    translation script that follows it in the same file, and of the
    legibility heuristic, the character recognition of one frame and the
    transcription of [_antigos/pica.video.03.py], together with the
    properties the specification states about them and further properties
    read off the code.

    Conventions of the embedding:
    - a Python [str] is the list of its code points ([str := list N]);
    - a Python [float] is an IEEE-754 binary64 value, represented by the
      standard library's [spec_float] with precision 53 and [emax = 1024];
      arithmetic is [SFadd], [SFsub], [SFmul], [SFdiv] at that format;
    - a Python [int] is a [Z];
    - the file system is a finite map from paths to file contents;
    - code that logs, writes files, puts messages on a queue or raises runs
      in a state-and-exception monad over the record [mundo];
    - external collaborators (the decoder, the speech model, the translation
      model, the language detector, the imaging and recognition libraries,
      the translation service) are arguments of the functions that call
      them. *)

From Stdlib Require Import ZArith NArith List Bool Lia Reals Lra Psatz String Ascii.
From Stdlib Require Import Floats.SpecFloat.
From stdpp Require Import gmap list.

Open Scope Z_scope.

(* ===================================================================== *)
(** * Part I: the program                                                  *)
(* ===================================================================== *)

(** ** Python strings *)

Definition str := list N.

(** A string literal of the source. *)
Definition py (s : String.string) : str :=
  List.map N_of_ascii (list_ascii_of_string s).

Definition nl : str := [10%N].

(** [str.isspace] on one code point (also the class [\s] of [re] and the
    separator set of [str.strip] and [str.split] without arguments). *)
Definition isspace (c : N) : bool :=
  ((9 <=? c) && (c <=? 13) || (28 <=? c) && (c <=? 32) || (c =? 133)
   || (c =? 160) || (c =? 5760) || (8192 <=? c) && (c <=? 8202)
   || (c =? 8232) || (c =? 8233) || (c =? 8239) || (c =? 8287)
   || (c =? 12288))%N.

Definition is_digit (c : N) : bool := ((48 <=? c) && (c <=? 57))%N.

Definition str_eqb (a b : str) : bool := bool_decide (a = b).

Fixpoint take_while (p : N -> bool) (l : str) : str :=
  match l with
  | c :: l' => if p c then c :: take_while p l' else []
  | [] => []
  end.

Fixpoint drop_while (p : N -> bool) (l : str) : str :=
  match l with
  | c :: l' => if p c then drop_while p l' else l
  | [] => []
  end.

(** [l.startswith(p)], returning the rest of [l] after [p]. *)
Fixpoint strip_prefix (p l : str) : option str :=
  match p, l with
  | [], _ => Some l
  | a :: p', b :: l' => if (a =? b)%N then strip_prefix p' l' else None
  | _ :: _, [] => None
  end.

Definition startswith (p l : str) : bool :=
  match strip_prefix p l with Some _ => true | None => false end.

Definition endswith (p l : str) : bool := startswith (rev p) (rev l).

(** [p in l] for strings. *)
Fixpoint contains (p l : str) : bool :=
  startswith p l || match l with [] => false | _ :: l' => contains p l' end.

(** [l.strip()] *)
Definition strip (l : str) : str :=
  rev (drop_while isspace (rev (drop_while isspace l))).

(** [l.split()]: the maximal runs of non-space characters. *)
Fixpoint split_aux (cur : str) (l : str) : list str :=
  match l with
  | [] => match cur with [] => [] | _ => [rev cur] end
  | c :: l' =>
      if isspace c
      then match cur with [] => split_aux [] l' | _ => rev cur :: split_aux [] l' end
      else split_aux (c :: cur) l'
  end.

Definition split (l : str) : list str := split_aux [] l.

(** [l.replace(old, new)] for a non-empty [old]; [fuel] bounds the scan and
    [length l] is always enough. *)
Fixpoint replace_aux (fuel : nat) (old new l : str) : str :=
  match fuel with
  | O => l
  | S fuel' =>
      match l with
      | [] => []
      | c :: l' =>
          match strip_prefix old l with
          | Some rest => new ++ replace_aux fuel' old new rest
          | None => c :: replace_aux fuel' old new l'
          end
      end
  end.

Definition replace (old new l : str) : str := replace_aux (length l) old new l.

(** [l.rsplit(sep, 1)[0]] for a one-character separator: everything before
    the last occurrence of [sep], or all of [l] when there is none. *)
Fixpoint rsplit1_head (sep : N) (l : str) : str :=
  match l with
  | [] => []
  | c :: l' =>
      if existsb (N.eqb sep) l' then c :: rsplit1_head sep l'
      else if (c =? sep)%N then [] else l
  end.

(** *** Decimal formatting *)

Fixpoint decimal_aux (fuel : nat) (n : N) (acc : str) : str :=
  let acc' := (48 + n mod 10)%N :: acc in
  match fuel with
  | O => acc'
  | S fuel' => if (n / 10 =? 0)%N then acc' else decimal_aux fuel' (n / 10)%N acc'
  end.

(** [str(n)] for a non-negative integer. *)
Definition decimal (n : N) : str := decimal_aux (N.to_nat (N.log2 n)) n [].

Definition zfill (w : nat) (l : str) : str := repeat 48%N (w - length l) ++ l.

(** The format specification [{z:0wd}]: sign-aware zero padding to width
    [w]. *)
Definition fmt_0d (w : nat) (z : Z) : str :=
  if z <? 0 then 45%N :: zfill (w - 1) (decimal (Z.to_N (- z)))
  else zfill w (decimal (Z.to_N z)).

(** [str(z)] *)
Definition str_of_int (z : Z) : str := fmt_0d 0 z.

(** The value of a string of decimal digits. *)
Definition digits_value (l : str) : N :=
  fold_left (fun acc c => (10 * acc + (c - 48))%N) l 0%N.

(** *** Paths ([posixpath]) *)

Definition sep : N := 47%N.

Definition os_path_join (a b : str) : str :=
  if startswith [sep] b then b
  else if str_eqb a [] || endswith [sep] a then a ++ b
  else a ++ [sep] ++ b.

(** [posixpath.basename]: what follows the last slash. *)
Fixpoint os_path_basename (p : str) : str :=
  match p with
  | [] => []
  | c :: p' => if existsb (N.eqb sep) p then os_path_basename p' else p
  end.

(** [posixpath.dirname]: what precedes the last slash, with trailing
    slashes removed unless it consists of slashes only. *)
Definition os_path_dirname (p : str) : str :=
  let head := rev (drop_while (fun c => negb (c =? sep)%N) (rev p)) in
  if forallb (N.eqb sep) head then head
  else rev (drop_while (N.eqb sep) (rev head)).

(** [posixpath.splitext(p)[0]]: the extension starts at the last dot of the
    last path component, unless only dots precede it in that component. *)
Definition os_path_splitext_root (p : str) : str :=
  let b := os_path_basename p in
  let d := take (length p - length b) p in
  let stem := rsplit1_head 46%N b in
  if existsb (N.eqb 46%N) b && negb (forallb (N.eqb 46%N) stem)
  then d ++ stem else p.

(** ** Python floats: IEEE-754 binary64 *)

Definition prec : Z := 53.
Definition emax : Z := 1024.

Definition fadd : spec_float -> spec_float -> spec_float := SFadd prec emax.
Definition fsub : spec_float -> spec_float -> spec_float := SFsub prec emax.
Definition fmul : spec_float -> spec_float -> spec_float := SFmul prec emax.
Definition fdiv : spec_float -> spec_float -> spec_float := SFdiv prec emax.

Definition fzero : spec_float := S754_zero false.
Definition fone : spec_float := Eval vm_compute in binary_normalize prec emax 1 0 false.
Definition fhalf : spec_float := Eval vm_compute in binary_normalize prec emax 1 (-1) false.

(** The sign bit, as [copysign] reads it. *)
Definition sign_bit (x : spec_float) : bool :=
  match x with
  | S754_zero s | S754_infinity s | S754_finite s _ _ => s
  | S754_nan => false
  end.

(** [x != 0.0] (true for NaN). *)
Definition nonzero (x : spec_float) : bool := negb (SFeqb x fzero).

(** C's [fmod]: the remainder of the truncating division, computed without
    rounding error; it has the sign of [x]. *)
Definition c_fmod (x y : spec_float) : spec_float :=
  match x, y with
  | S754_nan, _ | _, S754_nan => S754_nan
  | S754_infinity _, _ => S754_nan
  | _, S754_zero _ => S754_nan
  | S754_zero _, _ => x
  | S754_finite _ _ _, S754_infinity _ => x
  | S754_finite sx mx ex, S754_finite _ my ey =>
      let e := Z.min ex ey in
      let X := Zpos mx * 2 ^ (ex - e) in
      let Y := Zpos my * 2 ^ (ey - e) in
      binary_normalize prec emax (cond_Zopp sx (X mod Y)) e sx
  end.

(** C's [floor]. *)
Definition c_floor (x : spec_float) : spec_float :=
  match x with
  | S754_finite s m e =>
      if 0 <=? e then x
      else binary_normalize prec emax (Z.shiftr (cond_Zopp s (Zpos m)) (- e)) 0 s
  | _ => x
  end.

(** ** Exceptions and results *)

Inductive exn :=
  | ValueError (msg : str)
  | OverflowError (msg : str)
  | ZeroDivisionError (msg : str)
  | RuntimeError (msg : str)
  | TimeoutExpired (cmd : str) (timeout : Z)
  | FileNotFoundError (msg : str)
  | OtherException (msg : str).

(** [str(e)] *)
Definition exn_str (e : exn) : str :=
  match e with
  | ValueError m | OverflowError m | ZeroDivisionError m | RuntimeError m
  | FileNotFoundError m | OtherException m => m
  | TimeoutExpired cmd t =>
      py "Command '" ++ cmd ++ py "' timed out after " ++ str_of_int t ++ py " seconds"
  end.

Inductive result (A : Type) :=
  | Ok (a : A)
  | Raise (e : exn).
Arguments Ok {A} a.
Arguments Raise {A} e.

(** [int(x)] for a float: truncation toward zero. *)
Definition int_of_float (x : spec_float) : result Z :=
  match x with
  | S754_nan => Raise (ValueError (py "cannot convert float NaN to integer"))
  | S754_infinity _ => Raise (OverflowError (py "cannot convert float infinity to integer"))
  | S754_zero _ => Ok 0
  | S754_finite s m e =>
      Ok (cond_Zopp s (if 0 <=? e then Z.shiftl (Zpos m) e else Z.shiftr (Zpos m) (- e)))
  end.

(** [float(z)] for an int: the nearest binary64 value, or [OverflowError]. *)
Definition float_of_int (z : Z) : result spec_float :=
  match binary_normalize prec emax z 0 false with
  | S754_infinity _ => Raise (OverflowError (py "int too large to convert to float"))
  | f => Ok f
  end.

Definition f60 : spec_float := Eval vm_compute in binary_normalize prec emax 60 0 false.
Definition f1000 : spec_float := Eval vm_compute in binary_normalize prec emax 1000 0 false.
Definition f3600 : spec_float := Eval vm_compute in binary_normalize prec emax 3600 0 false.

(** The quotient and remainder of CPython's [_float_div_mod] for a non-zero
    divisor. *)
Definition float_div_mod (vx wx : spec_float) : spec_float * spec_float :=
  let mod0 := c_fmod vx wx in
  let div0 := fdiv (fsub vx mod0) wx in
  let '(mod1, div1) :=
    if nonzero mod0 then
      if negb (Bool.eqb (SFltb wx fzero) (SFltb mod0 fzero))
      then (fadd mod0 wx, fsub div0 fone)
      else (mod0, div0)
    else (S754_zero (sign_bit wx), div0) in
  let floordiv :=
    if nonzero div1 then
      let fl := c_floor div1 in
      if SFltb fhalf (fsub div1 fl) then fadd fl fone else fl
    else S754_zero (sign_bit (fdiv vx wx)) in
  (floordiv, mod1).

(** [vx // wx] on floats. *)
Definition float_floordiv (vx wx : spec_float) : result spec_float :=
  if SFeqb wx fzero then Raise (ZeroDivisionError (py "division by zero"))
  else Ok (fst (float_div_mod vx wx)).

(** [vx % wx] on floats. *)
Definition float_mod (vx wx : spec_float) : result spec_float :=
  if SFeqb wx fzero then Raise (ZeroDivisionError (py "division by zero"))
  else
    let mod0 := c_fmod vx wx in
    Ok (if nonzero mod0 then
          if negb (Bool.eqb (SFltb wx fzero) (SFltb mod0 fzero))
          then fadd mod0 wx else mod0
        else S754_zero (sign_bit wx)).

(** [float(s)] for a string [s] over the characters [0-9.], the only ones
    the capture group of the timestamp pattern admits: Python accepts
    digits with at most one point and at least one digit, and returns the
    binary64 value nearest to the decimal number (infinity when it is too
    large). *)
Definition float_of_str (s : str) : result spec_float :=
  let ip := take_while is_digit s in
  let rest := drop_while is_digit s in
  let mk (fp : str) : result spec_float :=
    match ip ++ fp with
    | [] => Raise (ValueError (py "could not convert string to float: '" ++ s ++ py "'"))
    | ds =>
        match Z.of_N (digits_value ds), 10 ^ Z.of_nat (length fp) with
        | Zpos n, Zpos d => Ok (fdiv (S754_finite false n 0) (S754_finite false d 0))
        | _, _ => Ok fzero
        end
    end in
  match rest with
  | [] => mk []
  | c :: fp =>
      if (c =? 46)%N && forallb is_digit fp then mk fp
      else Raise (ValueError (py "could not convert string to float: '" ++ s ++ py "'"))
  end.

(** ** The world: files, log, progress queues *)

Inductive nivel := DEBUG | INFO | WARNING | ERROR.

(** A message put on a progress queue: a fraction or a text. *)
Inductive msg :=
  | MsgFloat (f : spec_float)
  | MsgStr (s : str).

Inductive fila := FilaFrames | FilaTranscricao | FilaArquivo.

(** [arquivos] maps each existing path to its content; [registro] lists
    the records passed to [logging]; each queue field lists the messages
    put on that queue, oldest first. *)
Record mundo := Mundo {
  arquivos : gmap str str;
  registro : list (nivel * str);
  fila_frames : list msg;
  fila_transcricao : list msg;
  fila_arquivo : list msg
}.

Definition M (A : Type) : Type := mundo -> result A * mundo.

Definition ret {A} (a : A) : M A := fun w => (Ok a, w).

Definition bind {A B} (c : M A) (k : A -> M B) : M B :=
  fun w => match c w with
           | (Ok a, w') => k a w'
           | (Raise e, w') => (Raise e, w')
           end.

Definition raise_ {A} (e : exn) : M A := fun w => (Raise e, w).

(** [try: body / except Exception as e: handler e] *)
Definition try_except {A} (body : M A) (handler : exn -> M A) : M A :=
  fun w => match body w with
           | (Ok a, w') => (Ok a, w')
           | (Raise e, w') => handler e w'
           end.

Definition lift {A} (r : result A) : M A := fun w => (r, w).

Declare Scope py_scope.
Delimit Scope py_scope with py.
Notation "x <- c1 ;; c2" := (bind c1 (fun x => c2))
  (at level 100, c1 at next level, right associativity) : py_scope.
Notation "c1 ;; c2" := (bind c1 (fun _ => c2))
  (at level 100, right associativity) : py_scope.
Open Scope py_scope.

Definition logging (n : nivel) (s : str) : M unit :=
  fun w => (Ok tt, Mundo (arquivos w) (registro w ++ [(n, s)]) (fila_frames w)
                         (fila_transcricao w) (fila_arquivo w)).

(** [q.put(m)] *)
Definition put (q : fila) (m : msg) : M unit :=
  fun w =>
    (Ok tt,
     match q with
     | FilaFrames =>
         Mundo (arquivos w) (registro w) (fila_frames w ++ [m]) (fila_transcricao w) (fila_arquivo w)
     | FilaTranscricao =>
         Mundo (arquivos w) (registro w) (fila_frames w) (fila_transcricao w ++ [m]) (fila_arquivo w)
     | FilaArquivo =>
         Mundo (arquivos w) (registro w) (fila_frames w) (fila_transcricao w) (fila_arquivo w ++ [m])
     end).

Definition get_arquivos : M (gmap str str) := fun w => (Ok (arquivos w), w).

Definition set_arquivos (fs : gmap str str) : M unit :=
  fun w => (Ok tt, Mundo fs (registro w) (fila_frames w) (fila_transcricao w) (fila_arquivo w)).

(** [os.path.exists(p)] *)
Definition os_path_exists (p : str) : M bool :=
  fs <- get_arquivos ;; ret (bool_decide (is_Some (fs !! p))).

(** [os.rename(src, dst)]: the file at [src] moves to [dst], replacing
    whatever [dst] held (POSIX semantics). *)
Definition os_rename (src dst : str) : M unit :=
  fs <- get_arquivos ;;
  match fs !! src with
  | None => raise_ (FileNotFoundError (py "No such file or directory: '" ++ src ++ py "'"))
  | Some c => set_arquivos (<[dst := c]> (delete src fs))
  end.

(** [open(p, "w")]: creates or truncates. *)
Definition open_w (p : str) : M unit :=
  fs <- get_arquivos ;; set_arquivos (<[p := []]> fs).

(** [f.write(data)] on the file opened at [p]. *)
Definition write (p : str) (data : str) : M unit :=
  fs <- get_arquivos ;; set_arquivos (alter (fun c => c ++ data) p fs).

(** Sequencing of pure computations that may raise. *)
Definition bindr {A B} (r : result A) (k : A -> result B) : result B :=
  match r with
  | Ok a => k a
  | Raise e => Raise e
  end.

Notation "x <~ c1 ;; c2" := (bindr c1 (fun x => c2))
  (at level 100, c1 at next level, right associativity) : py_scope.

(** [a / b] on ints: the binary64 value nearest to the quotient. *)
Definition int_truediv (a b : Z) : result spec_float :=
  match a, b with
  | _, Z0 => Raise (ZeroDivisionError (py "division by zero"))
  | Z0, _ => Ok (S754_zero (b <? 0))
  | Zpos p, Zpos q | Zneg p, Zneg q =>
      match fdiv (S754_finite false p 0) (S754_finite false q 0) with
      | S754_infinity _ => Raise (OverflowError (py "integer division result too large for a float"))
      | f => Ok f
      end
  | Zpos p, Zneg q | Zneg p, Zpos q =>
      match fdiv (S754_finite true p 0) (S754_finite false q 0) with
      | S754_infinity _ => Raise (OverflowError (py "integer division result too large for a float"))
      | f => Ok f
      end
  end.

(** ** Timestamp Reconstructor *)

(** The class [[0-9.]] of the capture group. *)
Definition classe_numerica (c : N) : bool := is_digit c || (c =? 46)%N.

(** [re.search(r'pts_time:([0-9.]+)', linha)]: the capture group of the
    leftmost match, if any. The group is greedy and nothing follows it, so
    it is the longest run of class characters after the marker. *)
Fixpoint re_search_pts_time (linha : str) : option str :=
  match linha with
  | [] => None
  | _ :: resto =>
      match strip_prefix (py "pts_time:") linha with
      | Some r =>
          match take_while classe_numerica r with
          | [] => re_search_pts_time resto
          | cap => Some cap
          end
      | None => re_search_pts_time resto
      end
  end.

(** The three assignments of the loop body of [analisar_dados_log]. *)
Definition tempo_do_timestamp (timestamp : spec_float) : result (Z * Z * Z) :=
  q <~ float_floordiv timestamp f60 ;;
  minutos <~ int_of_float q ;;
  r <~ float_mod timestamp f60 ;;
  segundos <~ int_of_float r ;;
  it <~ int_of_float timestamp ;;
  fi <~ float_of_int it ;;
  milissegundos <~ int_of_float (fmul (fsub timestamp fi) f1000) ;;
  Ok (minutos, segundos, milissegundos).

Fixpoint analisar_laco (dados_log : list str) (tempos_frames : list (Z * Z * Z))
  : result (list (Z * Z * Z)) :=
  match dados_log with
  | [] => Ok tempos_frames
  | linha :: resto =>
      match re_search_pts_time linha with
      | Some cap =>
          timestamp <~ float_of_str cap ;;
          t <~ tempo_do_timestamp timestamp ;;
          analisar_laco resto (tempos_frames ++ [t])
      | None => analisar_laco resto tempos_frames
      end
  end.

Definition analisar_dados_log (dados_log : list str) : M (list (Z * Z * Z)) :=
  try_except (lift (analisar_laco dados_log []))
    (fun e => logging ERROR (py "Erro ao analisar dados do log: " ++ exn_str e) ;; raise_ e).

(** ** Frame Renamer *)

Definition nome_original (pasta_saida : str) (i : nat) : str :=
  os_path_join pasta_saida (py "frame_" ++ fmt_0d 6 (Z.of_nat i + 1) ++ py ".png").

Definition nome_novo (pasta_saida nome_base : str) (t : Z * Z * Z) : str :=
  let '(minutos, segundos, milissegundos) := t in
  os_path_join pasta_saida
    (py "frame_" ++ nome_base ++ py "_" ++ fmt_0d 2 minutos ++ py "-"
       ++ fmt_0d 2 segundos ++ py "-" ++ fmt_0d 3 milissegundos ++ py ".png").

Definition aviso_nao_encontrado (nome : str) : str :=
  py "Arquivo " ++ nome ++ py " n" ++ [227%N] ++ py "o encontrado. Pulando...".

(** The loop of [renomear_frames], from index [i] on. *)
Fixpoint renomear_laco (pasta_saida nome_base : str) (i : nat)
    (tempos_frames : list (Z * Z * Z)) : M unit :=
  match tempos_frames with
  | [] => ret tt
  | t :: resto =>
      existe <- os_path_exists (nome_original pasta_saida i) ;;
      (if existe : bool
       then os_rename (nome_original pasta_saida i) (nome_novo pasta_saida nome_base t)
       else logging WARNING (aviso_nao_encontrado (nome_original pasta_saida i))) ;;
      renomear_laco pasta_saida nome_base (S i) resto
  end.

Definition renomear_frames (tempos_frames : list (Z * Z * Z))
    (pasta_saida nome_base : str) : M unit :=
  try_except (renomear_laco pasta_saida nome_base 0 tempos_frames)
    (fun e => logging ERROR (py "Erro ao renomear frames: " ++ exn_str e) ;; raise_ e).

(** ** Frame Sampler *)

(** How [processo.wait(timeout=300)] ends. *)
Inductive espera :=
  | Terminou (returncode : Z)
  | NaoTerminou.

(** One run of the decoder: the lines of its diagnostic stream, the frames
    it wrote (numbered from 1 in this order) and how waiting for it ended. *)
Record execucao := Execucao {
  stderr : list str;
  quadros : list str;
  fim : espera
}.

(** The decoder: starting it may fail; otherwise it runs as described. *)
Definition decodificador := str -> result execucao.

Fixpoint gravar_quadros (pasta_saida : str) (i : nat) (qs : list str) : M unit :=
  match qs with
  | [] => ret tt
  | q :: resto =>
      fs <- get_arquivos ;;
      set_arquivos (<[nome_original pasta_saida i := q]> fs) ;;
      gravar_quadros pasta_saida (S i) resto
  end.

Definition comando_ffmpeg (caminho_video pasta_saida : str) : str :=
  py "['ffmpeg', '-i', '" ++ caminho_video
    ++ py "', '-vf', 'fps=4,scale=1280:720,showinfo', '"
    ++ os_path_join pasta_saida (py "frame_%06d.png") ++ py "']".

Definition extrair_frames (ffmpeg : decodificador) (caminho_video pasta_saida : str)
  : M (list str) :=
  try_except
    (ex <- lift (ffmpeg caminho_video) ;;
     gravar_quadros pasta_saida 0 (quadros ex) ;;
     let dados_log := List.filter (contains (py "pts_time")) (stderr ex) in
     match fim ex with
     | NaoTerminou => raise_ (TimeoutExpired (comando_ffmpeg caminho_video pasta_saida) 300)
     | Terminou returncode =>
         if negb (returncode =? 0)
         then raise_ (RuntimeError
                (py "Erro ao processar o v" ++ [237%N] ++ py "deo com ffmpeg. C"
                   ++ [243%N] ++ py "digo de retorno diferente de zero."))
         else ret dados_log
     end)
    (fun e =>
       match e with
       | TimeoutExpired _ _ =>
           logging ERROR (py "Processo do ffmpeg excedeu o tempo limite para "
                            ++ caminho_video ++ py ".")
       | _ => logging ERROR (py "Erro ao extrair frames: " ++ exn_str e)
       end ;;
       raise_ e).

(** The progress loop of [processar_frames]. *)
Fixpoint progresso_frames (q : fila) (total_frames : Z) (i : nat)
    (tempos_frames : list (Z * Z * Z)) : M unit :=
  match tempos_frames with
  | [] => ret tt
  | _ :: resto =>
      progress <- lift (int_truediv (Z.of_nat i + 1) total_frames) ;;
      put q (MsgFloat progress) ;;
      progresso_frames q total_frames (S i) resto
  end.

Definition processar_frames (ffmpeg : decodificador)
    (caminho_video pasta_saida : str) (fila_progresso : fila) : M unit :=
  try_except
    (let nome_base := os_path_splitext_root (os_path_basename caminho_video) in
     dados_log <- extrair_frames ffmpeg caminho_video pasta_saida ;;
     tempos_frames <- analisar_dados_log dados_log ;;
     renomear_frames tempos_frames pasta_saida nome_base ;;
     let total_frames := Z.of_nat (length tempos_frames) in
     progresso_frames fila_progresso total_frames 0 tempos_frames ;;
     put fila_progresso (MsgStr (py "Processamento de frames conclu" ++ [237%N] ++ py "do!")))
    (fun e =>
       logging ERROR (py "Erro ao processar frames para " ++ caminho_video
                        ++ py ": " ++ exn_str e) ;;
       put fila_progresso (MsgStr (py "Erro ao processar frames: " ++ exn_str e))).

(** ** Transcription Worker *)

(** [formatar_timestamp]: [HH:MM:SS,mmm], or the zero timestamp when the
    conversion raises. *)
Definition formatar_timestamp_corpo (segundos : spec_float) : result str :=
  q <~ float_floordiv segundos f3600 ;;
  horas <~ int_of_float q ;;
  r <~ float_mod segundos f3600 ;;
  qm <~ float_floordiv r f60 ;;
  minutos <~ int_of_float qm ;;
  rs <~ float_mod segundos f60 ;;
  segs <~ int_of_float rs ;;
  it <~ int_of_float segundos ;;
  fi <~ float_of_int it ;;
  milissegundos <~ int_of_float (fmul (fsub segundos fi) f1000) ;;
  Ok (fmt_0d 2 horas ++ py ":" ++ fmt_0d 2 minutos ++ py ":" ++ fmt_0d 2 segs
        ++ py "," ++ fmt_0d 3 milissegundos).

Definition formatar_timestamp (segundos : spec_float) : M str :=
  try_except (lift (formatar_timestamp_corpo segundos))
    (fun e => logging ERROR (py "Erro ao formatar timestamp: " ++ exn_str e) ;;
              ret (py "00:00:00,000")).

(** A segment as the speech model yields it. *)
Record segmento := Segmento {
  seg_start : spec_float;
  seg_end : spec_float;
  seg_text : str
}.

(** A lazily produced sequence of segments: the items it yields and the
    exception, if any, that ends the iteration after them. *)
Record gerador := Gerador {
  itens : list segmento;
  falha : option exn
}.

(** The speech model: loading it may fail; a transcription request yields
    a generator and the detected language, or fails. *)
Record whisper := Whisper {
  carregar_whisper : str -> result unit;
  transcribe : str -> option str -> result (gerador * str)
}.

(** The translation model: loading the tokenizer and the model may fail;
    [traduzir] is the tokenize, generate, decode chain on one text. *)
Record tradutor := Tradutor {
  carregar_tokenizer : result unit;
  carregar_traducao : result unit;
  traduzir : str -> result str
}.

(** [len(list(g))] *)
Definition consumir (g : gerador) : result Z :=
  match falha g with
  | Some e => Raise e
  | None => Ok (Z.of_nat (length (itens g)))
  end.

(** The body of the segment loop of [transcrever_audio_faster_whisper] for
    one segment. *)
Definition transcrever_segmento (tr : tradutor) (base_path detected_language : str)
    (fila_progresso : option fila) (total_segments segment_id : Z) (segmento_ : segmento)
  : M unit :=
  let inicio := seg_start segmento_ in
  let fim_ := seg_end segmento_ in
  let texto := strip (seg_text segmento_) in
  (if str_eqb detected_language (py "en") then
     write (base_path ++ py "-en.srt") (str_of_int segment_id ++ nl) ;;
     ti <- formatar_timestamp inicio ;;
     tf <- formatar_timestamp fim_ ;;
     write (base_path ++ py "-en.srt") (ti ++ py " --> " ++ tf ++ nl) ;;
     write (base_path ++ py "-en.srt") (texto ++ nl ++ nl) ;;
     ti <- formatar_timestamp inicio ;;
     write (base_path ++ py "-en-Fala.Cronometrada.txt") (ti ++ py ": " ++ texto ++ nl) ;;
     texto_traduzido <- lift (traduzir tr texto) ;;
     write (base_path ++ py ".srt") (str_of_int segment_id ++ nl) ;;
     ti <- formatar_timestamp inicio ;;
     tf <- formatar_timestamp fim_ ;;
     write (base_path ++ py ".srt") (ti ++ py " --> " ++ tf ++ nl) ;;
     write (base_path ++ py ".srt") (texto_traduzido ++ nl ++ nl) ;;
     ti <- formatar_timestamp inicio ;;
     write (base_path ++ py "-Fala.Cronometrada.txt") (ti ++ py ": " ++ texto_traduzido ++ nl) ;;
     ti <- formatar_timestamp inicio ;;
     tf <- formatar_timestamp fim_ ;;
     logging INFO (py "Segmento " ++ str_of_int segment_id ++ py ": " ++ ti ++ py " --> "
                     ++ tf ++ py " " ++ texto ++ py " | pt='" ++ texto_traduzido ++ py "'")
   else
     write (base_path ++ py ".srt") (str_of_int segment_id ++ nl) ;;
     ti <- formatar_timestamp inicio ;;
     tf <- formatar_timestamp fim_ ;;
     write (base_path ++ py ".srt") (ti ++ py " --> " ++ tf ++ nl) ;;
     write (base_path ++ py ".srt") (texto ++ nl ++ nl) ;;
     ti <- formatar_timestamp inicio ;;
     write (base_path ++ py "-Fala.Cronometrada.txt") (ti ++ py ": " ++ texto ++ nl) ;;
     ti <- formatar_timestamp inicio ;;
     tf <- formatar_timestamp fim_ ;;
     logging INFO (py "Segmento " ++ str_of_int segment_id ++ py ": " ++ ti ++ py " --> "
                     ++ tf ++ py " " ++ texto)) ;;
  match fila_progresso with
  | Some q =>
      progress <- lift (int_truediv segment_id total_segments) ;;
      put q (MsgFloat progress)
  | None => ret tt
  end.

Fixpoint transcrever_laco (tr : tradutor) (base_path detected_language : str)
    (fila_progresso : option fila) (total_segments segment_id : Z)
    (segs : list segmento) : M unit :=
  match segs with
  | [] => ret tt
  | s :: resto =>
      transcrever_segmento tr base_path detected_language fila_progresso
        total_segments segment_id s ;;
      transcrever_laco tr base_path detected_language fila_progresso
        total_segments (segment_id + 1) resto
  end.

Definition transcrever_audio_faster_whisper (wh : whisper) (tr : tradutor)
    (caminho_audio nome_modelo : str) (idioma : option str)
    (fila_progresso : option fila) : M unit :=
  try_except
    (logging INFO (py "Iniciando Transcri" ++ [231; 227]%N ++ py "o do "
                     ++ [225%N] ++ py "udio usando o Faster-Whisper") ;;
     lift (carregar_whisper wh nome_modelo) ;;
     logging DEBUG (py "Modelo " ++ nome_modelo ++ py " carregado com sucesso.") ;;
     let base_path := rsplit1_head 46%N caminho_audio in
     resultado <- lift (transcribe wh caminho_audio idioma) ;;
     let detected_language := snd resultado in
     logging INFO (py "Linguagem detectada: " ++ detected_language) ;;
     (if str_eqb detected_language (py "en") then
        open_w (base_path ++ py "-en.srt") ;;
        open_w (base_path ++ py "-en-Fala.Cronometrada.txt") ;;
        open_w (base_path ++ py ".srt") ;;
        open_w (base_path ++ py "-Fala.Cronometrada.txt") ;;
        lift (carregar_tokenizer tr) ;;
        lift (carregar_traducao tr)
      else
        open_w (base_path ++ py ".srt") ;;
        open_w (base_path ++ py "-Fala.Cronometrada.txt")) ;;
     contagem <- lift (transcribe wh caminho_audio idioma) ;;
     total_segments <- lift (consumir (fst contagem)) ;;
     terceira <- lift (transcribe wh caminho_audio idioma) ;;
     let generator := fst terceira in
     transcrever_laco tr base_path detected_language fila_progresso total_segments 1
       (itens generator) ;;
     match falha generator with
     | Some e => raise_ e
     | None => logging INFO (py "Arquivos de transcri" ++ [231; 227]%N ++ py "o gerados.")
     end)
    (fun e =>
       logging ERROR (py "Erro ao transcrever " ++ [225%N] ++ py "udio para "
                        ++ caminho_audio ++ py ": " ++ exn_str e) ;;
       raise_ e).

Definition processar_transcricao (wh : whisper) (tr : tradutor)
    (caminho_video nome_modelo : str) (fila_progresso : fila) : M unit :=
  try_except
    (transcrever_audio_faster_whisper wh tr caminho_video nome_modelo None (Some fila_progresso) ;;
     put fila_progresso (MsgStr (py "Transcri" ++ [231; 227]%N ++ py "o de "
                                   ++ [225%N] ++ py "udio conclu" ++ [237%N] ++ py "da!")))
    (fun e =>
       logging ERROR (py "Erro no processo de transcri" ++ [231; 227]%N ++ py "o: " ++ exn_str e) ;;
       put fila_progresso (MsgStr (py "Erro na transcri" ++ [231; 227]%N ++ py "o: " ++ exn_str e))).

(** ** Pipeline Coordinator *)

Record argumentos := Argumentos {
  mascara_arquivos : str;
  modelo : str;
  recursivo : bool;
  pasta_saida_arg : option str;
  desativar_frames : bool;
  skip_prontos : bool;
  skip_transcricao : bool
}.

(** The size in bytes of a text file written with the UTF-8 encoding. *)
Definition utf8_len (c : N) : nat :=
  if (c <? 128)%N then 1%nat
  else if (c <? 2048)%N then 2%nat
  else if (c <? 65536)%N then 3%nat else 4%nat.

Definition os_path_getsize (p : str) : M Z :=
  fs <- get_arquivos ;;
  match fs !! p with
  | Some c => ret (Z.of_nat (list_sum (List.map utf8_len c)))
  | None => raise_ (FileNotFoundError (py "No such file or directory: '" ++ p ++ py "'"))
  end.

(** [Process(target=alvo).start()] followed, later, by [join()]: the target
    runs to completion in a process of its own; what it raises ends that
    process and does not reach the caller. The two workers of a file share
    no queue and write disjoint files, and each is run here as a whole.
    While a worker is alive the coordinator takes messages from the two
    worker queues and logs them; how many it takes depends on timing, and
    that loop is left out: a queue field of the world records what was put
    on the queue, not what is still waiting on it. *)
Definition em_processo (alvo : M unit) : M unit :=
  fun w => (Ok tt, snd (alvo w)).

(** The body of the loop of [process_files] for one file. The output
    directory is not created here: the file system of the model has no
    directories. *)
Definition processar_arquivo (ffmpeg : decodificador) (wh : whisper) (tr : tradutor)
    (args : argumentos) (fila_progresso_transcricao fila_progresso_frames fila_progresso_arquivo : fila)
    (caminho_arquivo : str) : M unit :=
  try_except
    (put fila_progresso_arquivo (MsgStr caminho_arquivo) ;;
     let caminho_fala_cronometrada :=
       replace (py ".mp3") (py "-Fala.Cronometrada.txt")
         (replace (py ".mp4") (py "-Fala.Cronometrada.txt") caminho_arquivo) in
     pronto <-
       (if skip_prontos args then
          existe <- os_path_exists caminho_fala_cronometrada ;;
          if existe : bool then
            tamanho <- os_path_getsize caminho_fala_cronometrada ;;
            ret (1024 <? tamanho)
          else ret false
        else ret false) ;;
     if pronto : bool then
       logging INFO (py "Pulado: '" ++ caminho_arquivo ++ py "', arquivo de fala cronometrada '"
                       ++ caminho_fala_cronometrada ++ py "' j" ++ [225%N] ++ py " existe e "
                       ++ [233%N] ++ py " maior que 1KB.")
     else
       let pasta0 :=
         match pasta_saida_arg args with
         | Some (c :: p) => c :: p
         | _ => os_path_dirname caminho_arquivo
         end in
       let pasta_saida :=
         os_path_join pasta0 (os_path_splitext_root (os_path_basename caminho_arquivo)) in
       logging INFO (py "Processando arquivo: " ++ caminho_arquivo) ;;
       logging INFO (py "Pasta de sa" ++ [237%N] ++ py "da: " ++ pasta_saida) ;;
       (if negb (skip_transcricao args) then
          em_processo (processar_transcricao wh tr caminho_arquivo (modelo args)
                         fila_progresso_transcricao)
        else logging INFO (py "Processo de transcri" ++ [231; 227]%N ++ py "o pulado.")) ;;
       (if negb (desativar_frames args) && endswith (py ".mp4") caminho_arquivo then
          em_processo (processar_frames ffmpeg caminho_arquivo pasta_saida fila_progresso_frames)
        else logging INFO (py "Processamento de frames desativado ou n" ++ [227%N]
                             ++ py "o aplic" ++ [225%N] ++ py "vel.")))
    (fun e => logging ERROR (py "Erro ao processar arquivo " ++ caminho_arquivo
                               ++ py ": " ++ exn_str e)).

Fixpoint process_files_laco (ffmpeg : decodificador) (wh : whisper) (tr : tradutor)
    (args : argumentos) (ft ff fa : fila) (arquivos_encontrados : list str) : M unit :=
  match arquivos_encontrados with
  | [] => ret tt
  | caminho_arquivo :: resto =>
      processar_arquivo ffmpeg wh tr args ft ff fa caminho_arquivo ;;
      process_files_laco ffmpeg wh tr args ft ff fa resto
  end.

(** [process_files], up to its closing log line (which reports elapsed
    wall-clock time); [cuda_disponivel] is the answer of
    [torch.cuda.is_available()] and [encontrar_arquivos_mascara] is the
    file discovery. *)
Definition process_files (cuda_disponivel : bool)
    (encontrar_arquivos_mascara : str -> bool -> list str)
    (ffmpeg : decodificador) (wh : whisper) (tr : tradutor)
    (args : argumentos) (ft ff fa : fila) : M unit :=
  let device := if cuda_disponivel then py "cuda" else py "cpu" in
  logging DEBUG (py "Usando dispositivo: " ++ device) ;;
  process_files_laco ffmpeg wh tr args ft ff fa
    (encontrar_arquivos_mascara (mascara_arquivos args) (recursivo args)).

(** ** Legibility Classifier: the text heuristic *)

(** The characters the first substitution keeps: [A-Za-z], the accented
    Latin-1 letters, and white space. *)
Definition classe_alfabeto (c : N) : bool :=
  ((65 <=? c) && (c <=? 90) || (97 <=? c) && (c <=? 122)
   || (192 <=? c) && (c <=? 214) || (216 <=? c) && (c <=? 246)
   || (248 <=? c) && (c <=? 255))%N
  || isspace c.

(** [re.sub(r'\s+', ' ', l)]: each maximal run of white space becomes one
    space; [em_espaco] tells whether the previous character was white
    space. *)
Fixpoint colapsar_espacos (em_espaco : bool) (l : str) : str :=
  match l with
  | [] => []
  | c :: l' =>
      if isspace c
      then if em_espaco then colapsar_espacos true l' else 32%N :: colapsar_espacos true l'
      else c :: colapsar_espacos false l'
  end.

(** The cleanup of [texto_legivel]. *)
Definition limpar (texto : str) : str :=
  strip (colapsar_espacos false (List.filter classe_alfabeto texto)).

Definition palavras_longas (texto_limpo : str) : list str :=
  List.filter (fun palavra => 4 <=? Z.of_nat (length palavra)) (split texto_limpo).

(** [texto_legivel]; [detect] is the language detector, which may raise. *)
Definition texto_legivel (detect : str -> result str) (texto : str) : M bool :=
  try_except
    (let texto_limpo := limpar texto in
     if str_eqb texto_limpo [] then ret false
     else
       idioma <- lift (detect texto_limpo) ;;
       if negb (str_eqb idioma (py "pt")) then ret false
       else
         if 0 <? Z.of_nat (length (palavras_longas texto_limpo)) then ret true
         else ret false)
    (fun e => logging ERROR (py "Erro na valida" ++ [231; 227]%N ++ py "o do texto: " ++ exn_str e) ;;
              ret false).

(* ===================================================================== *)
(** * Part II: vocabulary of the specification                            *)
(* ===================================================================== *)

(** ** The real value of a binary64 number *)

Definition bpow (e : Z) : R := powerRZ 2 e.

Definition F2R (m e : Z) : R := (IZR m * bpow e)%R.

Definition SF2R (x : spec_float) : R :=
  match x with
  | S754_finite s m e => F2R (cond_Zopp s (Zpos m)) e
  | _ => 0%R
  end.

(** A finite, non-negative binary64 value in canonical form. *)
Definition nao_negativo (x : spec_float) : bool :=
  match x with
  | S754_zero false => true
  | S754_finite false m e => valid_binary prec emax x
  | _ => false
  end.

(** The real numbers of the binary64 grid, without a bound on the
    exponent: at most 53 significant bits above the exponent -1074. *)
Definition representavel (y : R) : Prop :=
  exists m e, y = F2R m e /\ 0 <= m < 2 ^ 53 /\ -1074 <= e.

(** Where a real [x] lies in the interval that starts at [m * 2^e] and has
    length [2^e], as a [location] records it. *)
Definition inbetween (m e : Z) (x : R) (l : location) : Prop :=
  match l with
  | loc_Exact => x = F2R m e
  | loc_Inexact c =>
      (F2R m e < x < F2R (m + 1) e)%R /\
      match c with
      | Lt => (x < F2R m e + bpow e / 2)%R
      | Eq => (x = F2R m e + bpow e / 2)%R
      | Gt => (x > F2R m e + bpow e / 2)%R
      end
  end.

(** [f] is a correct rounding of the non-negative real [x]: some grid point
    [v] is nearest to [x], and [f] is [v], or is infinity when [v] is at
    least [2^1024]. *)
Definition arredonda (x : R) (f : spec_float) : Prop :=
  exists v,
    representavel v /\
    (forall y, representavel y -> (Rabs (v - x) <= Rabs (y - x))%R) /\
    ((nao_negativo f = true /\ SF2R f = v) \/
     (f = S754_infinity false /\ (bpow 1024 <= v)%R)).

(** The invariant of the right shifts of the rounding procedure. *)
Definition shr_inv (x : R) (mrs : shr_record) (e : Z) : Prop :=
  0 <= shr_m mrs /\ inbetween (shr_m mrs) e x (loc_of_shr_record mrs).

(** ** The captures of a decoder log *)

(** The captures of the lines that match the timestamp pattern, in the
    order of the lines. *)
Fixpoint capturas (dados_log : list str) : list str :=
  match dados_log with
  | [] => []
  | linha :: resto =>
      match re_search_pts_time linha with
      | Some cap => cap :: capturas resto
      | None => capturas resto
      end
  end.

(** The capture is a decimal numeral whose binary64 value is finite. *)
Definition captura_finita (cap : str) : bool :=
  match float_of_str cap with
  | Ok (S754_infinity _) => false
  | Ok _ => true
  | Raise _ => false
  end.

(** ** The effect of the Frame Renamer on the world *)

(** One iteration of the renaming loop: the frame is moved when its
    numbered file exists, a warning is logged otherwise. *)
Definition passo_renomear (pasta_saida nome_base : str) (i : nat) (t : Z * Z * Z)
    (w : mundo) : mundo :=
  match arquivos w !! nome_original pasta_saida i with
  | Some c =>
      Mundo (<[nome_novo pasta_saida nome_base t := c]>
               (delete (nome_original pasta_saida i) (arquivos w)))
            (registro w) (fila_frames w) (fila_transcricao w) (fila_arquivo w)
  | None =>
      Mundo (arquivos w)
            (registro w ++ [(WARNING, aviso_nao_encontrado (nome_original pasta_saida i))])
            (fila_frames w) (fila_transcricao w) (fila_arquivo w)
  end.

Fixpoint passos_renomear (pasta_saida nome_base : str) (i : nat)
    (tempos_frames : list (Z * Z * Z)) (w : mundo) : mundo :=
  match tempos_frames with
  | [] => w
  | t :: resto =>
      passos_renomear pasta_saida nome_base (S i) resto
        (passo_renomear pasta_saida nome_base i t w)
  end.

(** A timestamp tuple with non-negative fields. *)
Definition campos_nao_negativos (t : Z * Z * Z) : Prop :=
  let '(minutos, segundos, milissegundos) := t in
  0 <= minutos /\ 0 <= segundos /\ 0 <= milissegundos.

(** ** The content of the transcription files *)

(** The text [formatar_timestamp] returns. *)
Definition ts (segundos : spec_float) : str :=
  match formatar_timestamp_corpo segundos with
  | Ok s => s
  | Raise _ => py "00:00:00,000"
  end.

(** The subtitle blocks of the segments [segs], numbered from [id], with
    the text of each segment given by [texto]. *)
Fixpoint srt_de (texto : segmento -> str) (id : Z) (segs : list segmento) : str :=
  match segs with
  | [] => []
  | s :: resto =>
      str_of_int id ++ nl
        ++ ts (seg_start s) ++ py " --> " ++ ts (seg_end s) ++ nl
        ++ texto s ++ nl ++ nl
        ++ srt_de texto (id + 1) resto
  end.

(** The lines of the time-coded transcript. *)
Fixpoint fala_de (texto : segmento -> str) (segs : list segmento) : str :=
  match segs with
  | [] => []
  | s :: resto => ts (seg_start s) ++ py ": " ++ texto s ++ nl ++ fala_de texto resto
  end.

(** The text of a segment as it is written: stripped. *)
Definition texto_original (s : segmento) : str := strip (seg_text s).

(** ** Progress queues and failed decoder runs *)

(** The messages on a queue, oldest first. *)
Definition fila_de (q : fila) : mundo -> list msg :=
  match q with
  | FilaFrames => fila_frames
  | FilaTranscricao => fila_transcricao
  | FilaArquivo => fila_arquivo
  end.

(** The decoder did not end within the wait, or ended with a non-zero
    return code. *)
Definition decodificador_falhou (ex : execucao) : bool :=
  match fim ex with
  | NaoTerminou => true
  | Terminou returncode => negb (returncode =? 0)
  end.

(** The exception [extrair_frames] raises for a failed decoder run. *)
Definition erro_do_decodificador (caminho_video pasta_saida : str) (ex : execucao) : exn :=
  match fim ex with
  | NaoTerminou => TimeoutExpired (comando_ffmpeg caminho_video pasta_saida) 300
  | Terminou _ =>
      RuntimeError (py "Erro ao processar o v" ++ [237%N] ++ py "deo com ffmpeg. C"
                      ++ [243%N] ++ py "digo de retorno diferente de zero.")
  end.

(** A computation that leaves a component [proj] of the world as it was. *)
Definition inalterado {A X} (proj : mundo -> X) (c : M A) : Prop :=
  forall w, proj (snd (c w)) = proj w.

(** ** A small program logic for computations that do not raise *)

(** From every world that satisfies [P], the computation [c] returns
    normally, with a value and a world that satisfy [Q]. *)
Definition hoare {A} (P : mundo -> Prop) (c : M A) (Q : A -> mundo -> Prop) : Prop :=
  forall w, P w -> exists a w', c w = (Ok a, w') /\ Q a w'.

Definition arquivos_sao (fs : gmap str str) (w : mundo) : Prop := arquivos w = fs.

(** Appending to the file at [p]. *)
Definition acrescenta (p data : str) (fs : gmap str str) : gmap str str :=
  alter (fun c => c ++ data) p fs.

(** A float literal of the source or of the specification. *)
Definition float_literal (s : String.string) : spec_float :=
  match float_of_str (py s) with
  | Ok f => f
  | Raise _ => S754_nan
  end.

(** The world before anything ran. *)
Definition mundo_vazio : mundo := Mundo ∅ [] [] [] [].

(* ===================================================================== *)
(** * Part III: the rest of the program                                    *)
(* ===================================================================== *)

(** ** Elapsed time in words *)

(** [s.join(l)] *)
Fixpoint join (s : str) (l : list str) : str :=
  match l with
  | [] => []
  | [a] => a
  | a :: resto => a ++ s ++ join s resto
  end.

(** [formatar_tempo_humano]: nothing catches what the conversions raise. *)
Definition formatar_tempo_humano (tempo_segundos : spec_float) : result str :=
  q <~ float_floordiv tempo_segundos f3600 ;;
  horas <~ int_of_float q ;;
  r <~ float_mod tempo_segundos f3600 ;;
  qm <~ float_floordiv r f60 ;;
  minutos <~ int_of_float qm ;;
  rs <~ float_mod tempo_segundos f60 ;;
  segundos <~ int_of_float rs ;;
  let partes := [] in
  let partes :=
    if 0 <? horas then partes ++ [str_of_int horas ++ py " horas"] else partes in
  let partes :=
    if 0 <? minutos then partes ++ [str_of_int minutos ++ py " minutos"] else partes in
  let partes :=
    if (0 <? segundos) || (match partes with [] => true | _ => false end)
    then partes ++ [str_of_int segundos ++ py " segundos"] else partes in
  Ok (join (py ", ") partes).

(** The text [HH:MM:SS,mmm] of four fields. *)
Definition relogio (horas minutos segs milissegundos : Z) : str :=
  fmt_0d 2 horas ++ py ":" ++ fmt_0d 2 minutos ++ py ":" ++ fmt_0d 2 segs
    ++ py "," ++ fmt_0d 3 milissegundos.

(** The world after one more record in the log. *)
Definition com_registro (n : nivel) (s : str) (w : mundo) : mundo :=
  Mundo (arquivos w) (registro w ++ [(n, s)]) (fila_frames w)
        (fila_transcricao w) (fila_arquivo w).

(** ** Saving a transcription ([salvar_transcricao]) *)

(** A segment together with the number the speech model gave it. *)
Record segmento_numerado := SegmentoNumerado {
  seg_id : Z;
  seg_de : segmento
}.

(** The loop of [salvar_transcricao]; [segmentos] is a list. *)
Fixpoint salvar_laco (caminho_srt caminho_fala_cronometrada : str)
    (segmentos : list segmento_numerado) : M unit :=
  match segmentos with
  | [] => ret tt
  | sn :: resto =>
      let inicio := seg_start (seg_de sn) in
      let fim_ := seg_end (seg_de sn) in
      let texto := strip (seg_text (seg_de sn)) in
      ti <- formatar_timestamp inicio ;;
      tf <- formatar_timestamp fim_ ;;
      logging INFO (py "Salvando segmento " ++ str_of_int (seg_id sn) ++ py " " ++ ti
                      ++ py " --> " ++ tf ++ py " " ++ texto) ;;
      write caminho_srt (str_of_int (seg_id sn) ++ nl) ;;
      ti <- formatar_timestamp inicio ;;
      tf <- formatar_timestamp fim_ ;;
      write caminho_srt (ti ++ py " --> " ++ tf ++ nl) ;;
      write caminho_srt (texto ++ nl ++ nl) ;;
      ti <- formatar_timestamp inicio ;;
      write caminho_fala_cronometrada (ti ++ py ": " ++ texto ++ nl) ;;
      salvar_laco caminho_srt caminho_fala_cronometrada resto
  end.

(** [salvar_transcricao]. The two files are open at the same time, each
    through its own file object: the model, where a write appends to the
    file at once, follows the program when the two paths differ. *)
Definition salvar_transcricao (segmentos : list segmento_numerado)
    (caminho_srt caminho_fala_cronometrada : str) : M unit :=
  try_except
    (open_w caminho_srt ;;
     open_w caminho_fala_cronometrada ;;
     salvar_laco caminho_srt caminho_fala_cronometrada segmentos)
    (fun e =>
       logging ERROR (py "Erro ao salvar transcri" ++ [231; 227]%N ++ py "o: " ++ exn_str e) ;;
       raise_ e).

(** The subtitle blocks of numbered segments, each under its own number. *)
Fixpoint srt_numerado (segs : list segmento_numerado) : str :=
  match segs with
  | [] => []
  | sn :: resto =>
      str_of_int (seg_id sn) ++ nl
        ++ ts (seg_start (seg_de sn)) ++ py " --> " ++ ts (seg_end (seg_de sn)) ++ nl
        ++ texto_original (seg_de sn) ++ nl ++ nl
        ++ srt_numerado resto
  end.

(** ** The earlier transcription ([transcrever_audio] of
       [_antigos/pica.video.03.py]) *)

(** The speech model of that version: loading it may fail; a
    transcription request returns the list of numbered segments, or
    fails. *)
Record whisper_antigo := WhisperAntigo {
  load_model : str -> result unit;
  transcribe_antigo : str -> str -> result (list segmento_numerado)
}.

(** The loop inside [with open(caminho_srt, "w")]. *)
Fixpoint escrever_srt (caminho_srt : str) (segments : list segmento_numerado) : M unit :=
  match segments with
  | [] => ret tt
  | sn :: resto =>
      let inicio := seg_start (seg_de sn) in
      let fim_ := seg_end (seg_de sn) in
      let texto := strip (seg_text (seg_de sn)) in
      write caminho_srt (str_of_int (seg_id sn) ++ nl) ;;
      ti <- formatar_timestamp inicio ;;
      tf <- formatar_timestamp fim_ ;;
      write caminho_srt (ti ++ py " --> " ++ tf ++ nl) ;;
      write caminho_srt (texto ++ nl ++ nl) ;;
      escrever_srt caminho_srt resto
  end.

(** The loop inside [with open(caminho_fala_cronometrada, "w")]. *)
Fixpoint escrever_fala (caminho_fala_cronometrada : str)
    (segments : list segmento_numerado) : M unit :=
  match segments with
  | [] => ret tt
  | sn :: resto =>
      inicio <- formatar_timestamp (seg_start (seg_de sn)) ;;
      let texto := strip (seg_text (seg_de sn)) in
      write caminho_fala_cronometrada (inicio ++ py ": " ++ texto ++ nl) ;;
      escrever_fala caminho_fala_cronometrada resto
  end.

Definition transcrever_audio (wh : whisper_antigo)
    (caminho_video nome_modelo idioma : str) : M unit :=
  try_except
    (lift (load_model wh nome_modelo) ;;
     resultado <- lift (transcribe_antigo wh caminho_video idioma) ;;
     let caminho_srt := replace (py ".mp4") (py ".srt") caminho_video in
     let caminho_fala_cronometrada :=
       replace (py ".mp4") (py "-Fala.Cronometrada.txt") caminho_video in
     open_w caminho_srt ;;
     escrever_srt caminho_srt resultado ;;
     open_w caminho_fala_cronometrada ;;
     escrever_fala caminho_fala_cronometrada resultado ;;
     logging INFO (py "Arquivos de transcri" ++ [231; 227]%N ++ py "o gerados: "
                     ++ caminho_srt ++ py ", " ++ caminho_fala_cronometrada))
    (fun e =>
       logging ERROR (py "Erro ao transcrever " ++ [225%N] ++ py "udio para "
                        ++ caminho_video ++ py ": " ++ exn_str e) ;;
       raise_ e).

(** ** Character recognition on one frame ([processar_frame_ocr] of
       [_antigos/pica.video.03.py]) *)

(** The imaging and recognition libraries, over a type of images:
    decoding the content of an image file, the four image operations of
    [preprocessar_imagem], and the recognition of the text of an image.
    Each may fail. *)
Record ocr (imagem : Type) := Ocr {
  image_open : str -> result imagem;
  operacoes_de_imagem : imagem -> result imagem;
  image_to_string : imagem -> result str
}.
Arguments image_open {imagem} o _.
Arguments operacoes_de_imagem {imagem} o _.
Arguments image_to_string {imagem} o _.

Definition preprocessar_imagem {imagem} (o : ocr imagem) (im : imagem) : M imagem :=
  try_except (lift (operacoes_de_imagem o im))
    (fun e => logging ERROR (py "Erro ao preprocessar imagem: " ++ exn_str e) ;; raise_ e).

(** [shutil.copy(src, dst)] for a destination that is a file path. *)
Definition shutil_copy (src dst : str) : M unit :=
  fs <- get_arquivos ;;
  match fs !! src with
  | None =>
      raise_ (FileNotFoundError (py "[Errno 2] No such file or directory: '" ++ src ++ py "'"))
  | Some c =>
      if str_eqb src dst
      then raise_ (OtherException (py "'" ++ src ++ py "' and '" ++ dst
                                     ++ py "' are the same file"))
      else set_arquivos (<[dst := c]> fs)
  end.

Definition processar_frame_ocr {imagem} (o : ocr imagem) (detect : str -> result str)
    (caminho_frame pasta_saida : str) : M unit :=
  try_except
    (fs <- get_arquivos ;;
     im <- match fs !! caminho_frame with
           | None =>
               raise_ (FileNotFoundError (py "[Errno 2] No such file or directory: '"
                                            ++ caminho_frame ++ py "'"))
           | Some c => lift (image_open o c)
           end ;;
     im <- preprocessar_imagem o im ;;
     texto <- lift (image_to_string o im) ;;
     legivel <- (if negb (str_eqb (strip texto) [])
                 then texto_legivel detect texto else ret false) ;;
     if legivel : bool then
       let caminho_frame_saida := os_path_join pasta_saida (os_path_basename caminho_frame) in
       shutil_copy caminho_frame caminho_frame_saida ;;
       let caminho_texto_saida :=
         os_path_join pasta_saida
           (replace (py ".png") (py ".txt") (os_path_basename caminho_frame)) in
       open_w caminho_texto_saida ;;
       write caminho_texto_saida (strip texto)
     else ret tt)
    (fun e => logging ERROR (py "Erro ao processar frame " ++ caminho_frame
                               ++ py ": " ++ exn_str e)).

(** ** The translation script (the second program of [pica.video.09.py]) *)

Module Traduz.

(** The line boundaries of [str.splitlines]. *)
Definition quebra_de_linha (c : N) : bool :=
  ((10 <=? c) && (c <=? 13) || (28 <=? c) && (c <=? 30) || (c =? 133)
   || (c =? 8232) || (c =? 8233))%N.

(** [l.splitlines()]; a carriage return followed by a line feed is one
    boundary. *)
Fixpoint splitlines_aux (cur : str) (l : str) : list str :=
  match l with
  | [] => match cur with [] => [] | _ => [rev cur] end
  | c :: l' =>
      if quebra_de_linha c then
        rev cur ::
          match l' with
          | d :: l'' =>
              if (c =? 13)%N && (d =? 10)%N then splitlines_aux [] l''
              else splitlines_aux [] l'
          | [] => splitlines_aux [] l'
          end
      else splitlines_aux (c :: cur) l'
  end.

Definition splitlines (l : str) : list str := splitlines_aux [] l.

(** What [read()] returns for a file opened in text mode: each of the
    line endings CR LF and CR becomes LF. *)
Fixpoint universal_newlines (l : str) : str :=
  match l with
  | [] => []
  | c :: l' =>
      if (c =? 13)%N then
        10%N ::
          match l' with
          | d :: l'' =>
              if (d =? 10)%N then universal_newlines l'' else universal_newlines l'
          | [] => universal_newlines l'
          end
      else c :: universal_newlines l'
  end.

(** The translation service: creating the client may fail, and so may
    each request; [translate tr line dest] is the text of the answer. *)
Record translator := Translator {
  criar : result unit;
  translate : str -> str -> result str
}.

(** The loop of [translate_line_by_line]: the translated lines and what
    is printed. *)
Fixpoint traduzir_linhas (tr : translator) (target_lang : str) (linhas : list str)
  : list str * list str :=
  match linhas with
  | [] => ([], [])
  | line :: resto =>
      let '(traduzida, impresso) :=
        if negb (str_eqb (strip line) []) then
          match translate tr line target_lang with
          | Ok t => (t, [])
          | Raise e =>
              (line, [py "Erro ao traduzir a linha: " ++ line ++ py ". Erro: " ++ exn_str e])
          end
        else ([], []) in
      let '(translated_lines, impressos) := traduzir_linhas tr target_lang resto in
      (traduzida :: translated_lines, impresso ++ impressos)
  end.

(** [translate_line_by_line]: the result and what is printed. *)
Definition translate_line_by_line (tr : translator) (content target_lang : str)
  : result str * list str :=
  match criar tr with
  | Raise e => (Raise e, [])
  | Ok _ =>
      let '(translated_lines, impressos) :=
        traduzir_linhas tr target_lang (splitlines content) in
      (Ok (join nl translated_lines), impressos)
  end.

(** [translate_file]: the file system afterwards and what is printed. *)
Definition translate_file (tr : translator) (input_file output_file target_lang : str)
    (fs : gmap str str) : gmap str str * list str :=
  match fs !! input_file with
  | None =>
      (fs, [py "Erro ao processar o arquivo '" ++ input_file
              ++ py "': [Errno 2] No such file or directory: '" ++ input_file ++ py "'"])
  | Some c =>
      let content := universal_newlines c in
      match translate_line_by_line tr content target_lang with
      | (Raise e, impressos) =>
          (fs, impressos ++ [py "Erro ao processar o arquivo '" ++ input_file
                               ++ py "': " ++ exn_str e])
      | (Ok translated_content, impressos) =>
          (<[output_file := translated_content]> fs,
           impressos ++ [py "Tradu" ++ [231; 227]%N ++ py "o conclu" ++ [237%N]
                           ++ py "da. Arquivo salvo em: " ++ output_file])
      end
  end.

(** [os.path.splitext] *)
Definition os_path_splitext (p : str) : str * str :=
  let root := os_path_splitext_root p in (root, drop (length root) p).

Fixpoint process_files_laco (tr : translator) (target_lang : str) (files : list str)
    (fs : gmap str str) : gmap str str * list str :=
  match files with
  | [] => (fs, [])
  | input_file :: resto =>
      let '(base, ext) := os_path_splitext input_file in
      let output_file := base ++ py "-pt.BR" ++ ext in
      let '(fs1, impresso) := translate_file tr input_file output_file target_lang fs in
      let '(fs2, impressos) := process_files_laco tr target_lang resto fs1 in
      (fs2, impresso ++ impressos)
  end.

(** [process_files]; [glob] is the file discovery. *)
Definition process_files (glob : str -> list str) (tr : translator)
    (input_mask target_lang : str) (fs : gmap str str) : gmap str str * list str :=
  let files := glob input_mask in
  match files with
  | [] => (fs, [py "Nenhum arquivo encontrado para a m" ++ [225%N]
                  ++ py "scara especificada."])
  | _ => process_files_laco tr target_lang files fs
  end.

End Traduz.

(* ===================================================================== *)
(** * Part IV: binary64 arithmetic *)
(* ===================================================================== *)

(** ** Powers of two *)

Lemma bpow_gt_0 e : (0 < bpow e)%R.
Proof. unfold bpow. apply powerRZ_lt. lra. Qed.

Lemma bpow_plus a b : bpow (a + b) = (bpow a * bpow b)%R.
Proof. unfold bpow. apply powerRZ_add. lra. Qed.

Lemma bpow_1 : bpow 1 = 2%R.
Proof. unfold bpow. simpl. lra. Qed.

Lemma bpow_0 : bpow 0 = 1%R.
Proof. reflexivity. Qed.

Lemma bpow_succ e : bpow (e + 1) = (2 * bpow e)%R.
Proof. rewrite bpow_plus, bpow_1. lra. Qed.

Lemma bpow_IZR k : 0 <= k -> bpow k = IZR (2 ^ k).
Proof.
  intros Hk. pattern k. apply natlike_ind; auto.
  intros x Hx IH. unfold Z.succ. rewrite bpow_succ, IH.
  rewrite Z.pow_add_r, mult_IZR by lia. simpl. lra.
Qed.

Lemma bpow_le a b : a <= b -> (bpow a <= bpow b)%R.
Proof.
  intros H. replace b with (a + (b - a)) by lia.
  rewrite bpow_plus, (bpow_IZR (b - a)) by lia.
  assert (0 < 2 ^ (b - a)) by (apply Z.pow_pos_nonneg; lia).
  assert (1 <= 2 ^ (b - a)) by lia.
  apply IZR_le in H1. pose proof (bpow_gt_0 a). nra.
Qed.

Lemma bpow_lt a b : a < b -> (bpow a < bpow b)%R.
Proof.
  intros H. replace b with (a + (b - a)) by lia.
  rewrite bpow_plus, (bpow_IZR (b - a)) by lia.
  assert (2 <= 2 ^ (b - a)).
  { change 2 with (2 ^ 1) at 1. apply Z.pow_le_mono_r; lia. }
  apply IZR_le in H0. pose proof (bpow_gt_0 a). nra.
Qed.

Lemma F2R_shift m e k : 0 <= k -> F2R (m * 2 ^ k) e = F2R m (e + k).
Proof.
  intros Hk. unfold F2R. rewrite mult_IZR, bpow_plus, <- (bpow_IZR k) by lia. lra.
Qed.

Lemma F2R_lt_inv m1 m2 e : (F2R m1 e < F2R m2 e)%R -> m1 < m2.
Proof.
  unfold F2R. intros H. apply lt_IZR. pose proof (bpow_gt_0 e). nra.
Qed.

Lemma F2R_le_inv m1 m2 e : (F2R m1 e <= F2R m2 e)%R -> m1 <= m2.
Proof.
  unfold F2R. intros H. apply le_IZR. pose proof (bpow_gt_0 e). nra.
Qed.

Lemma F2R_le m1 m2 e : m1 <= m2 -> (F2R m1 e <= F2R m2 e)%R.
Proof.
  unfold F2R. intros H. apply IZR_le in H. pose proof (bpow_gt_0 e). nra.
Qed.

Lemma F2R_lt m1 m2 e : m1 < m2 -> (F2R m1 e < F2R m2 e)%R.
Proof.
  unfold F2R. intros H. apply IZR_lt in H. pose proof (bpow_gt_0 e). nra.
Qed.

Lemma F2R_succ m e : F2R (m + 1) e = (F2R m e + bpow e)%R.
Proof. unfold F2R. rewrite plus_IZR. lra. Qed.

Lemma F2R_0 e : F2R 0 e = 0%R.
Proof. unfold F2R. lra. Qed.

(** ** Number of binary digits *)

Lemma digits2_pos_bounds p :
  2 ^ (Zpos (digits2_pos p) - 1) <= Zpos p < 2 ^ Zpos (digits2_pos p).
Proof.
  induction p as [p IH | p IH | ]; simpl digits2_pos.
  - rewrite Pos2Z.inj_succ.
    replace (Z.succ (Zpos (digits2_pos p)) - 1) with (Zpos (digits2_pos p) - 1 + 1) by lia.
    rewrite Z.pow_succ_r by lia.
    destruct (Z.eq_dec (Zpos (digits2_pos p)) 1) as [E | E].
    + rewrite E in *. simpl in *. lia.
    + rewrite Z.pow_add_r by lia. lia.
  - rewrite Pos2Z.inj_succ.
    replace (Z.succ (Zpos (digits2_pos p)) - 1) with (Zpos (digits2_pos p) - 1 + 1) by lia.
    rewrite Z.pow_succ_r by lia.
    rewrite Z.pow_add_r by lia. lia.
  - simpl. lia.
Qed.

Lemma Zdigits2_bounds m :
  0 < m -> 2 ^ (Zdigits2 m - 1) <= m < 2 ^ Zdigits2 m.
Proof.
  destruct m; try lia. intros _. apply digits2_pos_bounds.
Qed.

Lemma Zdigits2_nonneg m : 0 <= m -> 0 <= Zdigits2 m.
Proof. destruct m; simpl; lia. Qed.

Lemma Zdigits2_unique m d :
  0 < m -> 2 ^ (d - 1) <= m < 2 ^ d -> Zdigits2 m = d.
Proof.
  intros Hm [H1 H2]. pose proof (Zdigits2_bounds m Hm) as [H3 H4].
  assert (0 < Zdigits2 m) by (destruct m; simpl; lia).
  assert (0 < d).
  { destruct (Z.lt_ge_cases 0 d) as [|Hd]; auto.
    destruct (Z.eq_dec d 0) as [-> | Hn]; [simpl in H2; lia |].
    rewrite Z.pow_neg_r in H2 by lia. lia. }
  destruct (Z.lt_trichotomy (Zdigits2 m) d) as [Hlt | [Heq | Hgt]]; auto.
  - assert (2 ^ Zdigits2 m <= 2 ^ (d - 1)) by (apply Z.pow_le_mono_r; lia). lia.
  - assert (2 ^ d <= 2 ^ (Zdigits2 m - 1)) by (apply Z.pow_le_mono_r; lia). lia.
Qed.

(** ** Right shifts keep track of the position of the exact value *)

Lemma F2R_xO p e : F2R (Zpos p~0) e = F2R (Zpos p) (e + 1).
Proof. unfold F2R. rewrite Pos2Z.inj_xO, mult_IZR, bpow_succ. lra. Qed.

Lemma F2R_xI p e : F2R (Zpos p~1) e = (F2R (Zpos p) (e + 1) + bpow e)%R.
Proof. unfold F2R. rewrite Pos2Z.inj_xI, plus_IZR, mult_IZR, bpow_succ. lra. Qed.

Lemma F2R_1 e : F2R 1 e = bpow e.
Proof. unfold F2R. lra. Qed.

Lemma shr_1_inv x mrs e : shr_inv x mrs e -> shr_inv x (shr_1 mrs) (e + 1).
Proof.
  destruct mrs as [m r s]. unfold shr_inv. cbn [shr_m]. intros [Hm Hin].
  pose proof (bpow_gt_0 e) as Hb.
  destruct m as [ | [p | p | ] | p ]; [ | | | | lia ];
    (split; [cbn; lia |]);
    destruct r, s; cbn [shr_1 orb shr_m loc_of_shr_record inbetween] in *;
    rewrite ?F2R_succ, ?F2R_xO, ?F2R_xI, ?F2R_1, ?F2R_0, ?bpow_succ in *;
    lra.
Qed.

Lemma iter_pos_shr_1_inv x p : forall mrs e,
  shr_inv x mrs e -> shr_inv x (SpecFloat.iter_pos shr_1 p mrs) (e + Zpos p).
Proof.
  induction p as [p IH | p IH | ]; intros mrs e H; simpl SpecFloat.iter_pos.
  - replace (e + Zpos p~1) with (e + 1 + Zpos p + Zpos p) by lia.
    apply IH, IH, shr_1_inv, H.
  - replace (e + Zpos p~0) with (e + Zpos p + Zpos p) by lia.
    apply IH, IH, H.
  - apply shr_1_inv, H.
Qed.

Lemma loc_of_shr_record_of_loc m l :
  loc_of_shr_record (shr_record_of_loc m l) = l.
Proof. destruct l as [ | [ | | ] ]; reflexivity. Qed.

Lemma shr_m_of_loc m l : shr_m (shr_record_of_loc m l) = m.
Proof. destruct l as [ | [ | | ] ]; reflexivity. Qed.

(** [shr_fexp] when the shift count is not negative: the exponent becomes
    the canonical one and the position is kept. *)
Lemma shr_fexp_inv x m e l :
  0 <= m -> inbetween m e x l ->
  0 <= fexp prec emax (Zdigits2 m + e) - e ->
  exists mrs,
    shr_fexp prec emax m e l = (mrs, fexp prec emax (Zdigits2 m + e)) /\
    shr_inv x mrs (fexp prec emax (Zdigits2 m + e)).
Proof.
  intros Hm Hin Hn. unfold shr_fexp, shr.
  assert (H0 : shr_inv x (shr_record_of_loc m l) e).
  { split; [rewrite shr_m_of_loc; auto | rewrite shr_m_of_loc, loc_of_shr_record_of_loc; auto]. }
  destruct (fexp prec emax (Zdigits2 m + e) - e) as [ | p | p ] eqn:En; [ | | lia ].
  - exists (shr_record_of_loc m l). split.
    + f_equal. lia.
    + replace (fexp prec emax (Zdigits2 m + e)) with e by lia. exact H0.
  - exists (SpecFloat.iter_pos shr_1 p (shr_record_of_loc m l)). split.
    + f_equal. lia.
    + replace (fexp prec emax (Zdigits2 m + e)) with (e + Zpos p) by lia.
      apply iter_pos_shr_1_inv, H0.
Qed.

(** [shr_fexp] when the shift count is not positive: nothing moves. *)
Lemma shr_fexp_id m e l :
  fexp prec emax (Zdigits2 m + e) - e <= 0 ->
  shr_fexp prec emax m e l = (shr_record_of_loc m l, e).
Proof.
  intros Hn. unfold shr_fexp, shr.
  destruct (fexp prec emax (Zdigits2 m + e) - e); try reflexivity. lia.
Qed.

Lemma fexp_eq k : fexp prec emax k = Z.max (k - 53) (-1074).
Proof. reflexivity. Qed.

(** ** The grid *)

(** No grid point lies strictly between two neighbours [m * 2^e] and
    [(m+1) * 2^e] of a binade that is sub-normal or full. *)
Lemma grade_sem_intermediarios m e y :
  0 <= m -> -1074 <= e -> (e = -1074 \/ 2 ^ 52 <= m) ->
  representavel y ->
  (y <= F2R m e \/ F2R (m + 1) e <= y)%R.
Proof.
  intros Hm He Hnorm (my & ey & -> & Hmy & Hey).
  destruct (Z.le_gt_cases e ey) as [Hle | Hgt].
  - (* y is a multiple of 2^e *)
    replace ey with (e + (ey - e)) by lia.
    rewrite <- F2R_shift by lia.
    destruct (Z.le_gt_cases (my * 2 ^ (ey - e)) m) as [H | H].
    + left. apply F2R_le. exact H.
    + right. apply F2R_le. lia.
  - (* y has a smaller exponent, so it lies below the binade of m *)
    left. destruct Hnorm as [-> | Hn]; [lia |].
    apply Rle_trans with (F2R (2 ^ 53) ey).
    + apply F2R_le. lia.
    + apply Rle_trans with (F2R (2 ^ 52) e); [ | apply F2R_le; exact Hn ].
      unfold F2R. rewrite <- !bpow_IZR, <- !bpow_plus by lia.
      apply bpow_le. lia.
Qed.

(** ** Rounding to nearest *)

Lemma round_nearest_even_cases m e x l :
  inbetween m e x l ->
  (round_nearest_even m l = m \/ round_nearest_even m l = m + 1) /\
  (Rabs (F2R (round_nearest_even m l) e - x) <= Rabs (F2R m e - x))%R /\
  (Rabs (F2R (round_nearest_even m l) e - x) <= Rabs (F2R (m + 1) e - x))%R /\
  (F2R m e <= x < F2R (m + 1) e)%R.
Proof.
  intros Hin. pose proof (bpow_gt_0 e) as Hb.
  pose proof (F2R_succ m e) as Hs.
  destruct l as [ | [ | | ] ]; cbn [inbetween round_nearest_even] in *;
    try destruct (Z.even m);
    (split; [ (left; reflexivity) || (right; reflexivity) | ]);
    rewrite ?Hs in *; repeat split; unfold Rabs; repeat destruct Rcase_abs; lra.
Qed.

Lemma inbetween_bounds m e x l :
  inbetween m e x l -> (F2R m e <= x < F2R (m + 1) e)%R.
Proof. intros H. apply (round_nearest_even_cases m e x l H). Qed.

Lemma Zdigits2_le m k : 0 <= m < 2 ^ k -> 0 <= k -> Zdigits2 m <= k.
Proof.
  intros [H0 H1] Hk. destruct (Z.eq_dec m 0) as [-> | Hm]; [simpl; lia |].
  pose proof (Zdigits2_bounds m ltac:(lia)) as [H2 _].
  destruct (Z.le_gt_cases (Zdigits2 m) k) as [ | Hgt]; auto.
  assert (2 ^ k <= 2 ^ (Zdigits2 m - 1)) by (apply Z.pow_le_mono_r; lia). lia.
Qed.

Lemma Zdigits2_ge m k : 2 ^ k <= m -> 0 <= k -> k + 1 <= Zdigits2 m.
Proof.
  intros H Hk.
  assert (0 < 2 ^ k) by (apply Z.pow_pos_nonneg; lia).
  pose proof (Zdigits2_bounds m ltac:(lia)) as [_ H2].
  destruct (Z.le_gt_cases (k + 1) (Zdigits2 m)) as [ | Hgt]; auto.
  assert (0 <= Zdigits2 m) by (apply Zdigits2_nonneg; lia).
  assert (2 ^ Zdigits2 m <= 2 ^ k) by (apply Z.pow_le_mono_r; lia). lia.
Qed.

Lemma F2R_pow2 k e : 0 <= k -> F2R (2 ^ k) e = bpow (k + e).
Proof. intros Hk. unfold F2R. rewrite <- bpow_IZR, bpow_plus by lia. reflexivity. Qed.

Lemma nao_negativo_finite m e :
  0 < Zpos m < 2 ^ 53 -> -1074 <= e <= 971 -> (e = -1074 \/ 2 ^ 52 <= Zpos m) ->
  nao_negativo (S754_finite false m e) = true.
Proof.
  intros Hm He Hn. unfold nao_negativo, valid_binary, bounded, canonical_mantissa.
  apply andb_true_intro. split; [ | apply Z.leb_le; unfold emax, prec; lia ].
  apply Z.eqb_eq. rewrite fexp_eq.
  change (Zpos (digits2_pos m)) with (Zdigits2 (Zpos m)).
  pose proof (Zdigits2_le (Zpos m) 53 ltac:(lia) ltac:(lia)).
  destruct Hn as [-> | Hn]; [lia |].
  pose proof (Zdigits2_ge (Zpos m) 52 Hn ltac:(lia)). lia.
Qed.

(** The rounding procedure returns a correct rounding of the real it is
    given by its position, provided its first shift is not a left shift. *)
Lemma binary_round_aux_spec M E l x :
  0 <= M -> inbetween M E x l ->
  0 <= fexp prec emax (Zdigits2 M + E) - E ->
  arredonda x (binary_round_aux prec emax false M E l).
Proof.
  intros HM Hin Hn.
  destruct (shr_fexp_inv x M E l HM Hin Hn) as (mrs & Hshr & Hm1 & Hin1).
  set (e1 := fexp prec emax (Zdigits2 M + E)) in *.
  set (m1 := shr_m mrs) in *.
  set (l1 := loc_of_shr_record mrs) in *.
  pose proof (Zdigits2_nonneg M HM) as Hd0.
  assert (He1 : -1074 <= e1) by (unfold e1; rewrite fexp_eq; lia).
  assert (He1' : Zdigits2 M + E - 53 <= e1) by (unfold e1; rewrite fexp_eq; lia).
  pose proof (inbetween_bounds _ _ _ _ Hin) as [HxM1 HxM2].
  pose proof (inbetween_bounds _ _ _ _ Hin1) as [Hx1 Hx2].
  (* magnitude of x *)
  assert (Hxup : (x < bpow (Zdigits2 M + E))%R).
  { eapply Rlt_le_trans; [exact HxM2 |].
    rewrite <- F2R_pow2 by lia. apply F2R_le.
    destruct (Z.eq_dec M 0) as [-> | HM0]; [simpl; lia |].
    pose proof (Zdigits2_bounds M ltac:(lia)). lia. }
  assert (Hm1lt : m1 < 2 ^ 53).
  { apply (F2R_lt_inv _ _ e1). eapply Rle_lt_trans; [exact Hx1 |].
    eapply Rlt_le_trans; [exact Hxup |].
    rewrite F2R_pow2 by lia. apply bpow_le. lia. }
  assert (Hnorm : e1 = -1074 \/ 2 ^ 52 <= m1).
  { destruct (Z.eq_dec e1 (-1074)) as [ | Hne]; [left; assumption | right].
    assert (He1eq : e1 = Zdigits2 M + E - 53) by (unfold e1 in *; rewrite fexp_eq in *; lia).
    assert (HMpos : 0 < M).
    { destruct (Z.eq_dec M 0) as [-> | ]; [ | lia ]. simpl in *. lia. }
    pose proof (Zdigits2_bounds M HMpos) as [HdM _].
    assert (Zdigits2 M - 1 >= 0) by (destruct M; simpl in *; lia).
    assert (Hlow : (bpow (e1 + 52) <= x)%R).
    { eapply Rle_trans; [ | exact HxM1 ].
      replace (e1 + 52) with (Zdigits2 M - 1 + E) by lia.
      rewrite <- F2R_pow2 by lia. apply F2R_le. exact HdM. }
    assert (F2R (2 ^ 52) e1 < F2R (m1 + 1) e1)%R.
    { rewrite F2R_pow2 by lia. replace (52 + e1) with (e1 + 52) by lia. lra. }
    apply F2R_lt_inv in H0. lia. }
  destruct (round_nearest_even_cases m1 e1 x l1 Hin1) as (Hm2 & Hn1 & Hn2 & _).
  set (m2 := round_nearest_even m1 l1) in *.
  assert (Hm2b : 0 <= m2 <= 2 ^ 53) by (destruct Hm2; lia).
  assert (Hnear : forall y, representavel y -> (Rabs (F2R m2 e1 - x) <= Rabs (y - x))%R).
  { intros y Hy.
    destruct (grade_sem_intermediarios m1 e1 y Hm1 He1 Hnorm Hy) as [Hy1 | Hy1].
    - eapply Rle_trans; [exact Hn1 |].
      rewrite (Rabs_left1 (F2R m1 e1 - x)), (Rabs_left1 (y - x)) by lra. lra.
    - eapply Rle_trans; [exact Hn2 |].
      rewrite (Rabs_right (F2R (m1 + 1) e1 - x)), (Rabs_right (y - x)) by lra. lra. }
  assert (Hnorm2 : e1 = -1074 \/ 2 ^ 52 <= m2) by (destruct Hnorm; [left | right; destruct Hm2]; lia).
  exists (F2R m2 e1). split; [ | split; [exact Hnear |] ].
  { (* the rounded value is on the grid *)
    destruct (Z.eq_dec m2 (2 ^ 53)) as [E53 | N53].
    - exists (2 ^ 52), (e1 + 1). split; [ | lia ].
      rewrite E53. rewrite !F2R_pow2 by lia. f_equal. lia.
    - exists m2, e1. split; [reflexivity | lia]. }
  unfold binary_round_aux. fold e1. rewrite Hshr. fold m1 l1 m2.
  destruct (Z.eq_dec m2 (2 ^ 53)) as [E53 | N53].
  - (* the mantissa overflowed to 2^53: one more shift *)
    rewrite E53.
    assert (Hs2 : shr_fexp prec emax (2 ^ 53) e1 loc_Exact
                  = ({| shr_m := 2 ^ 52; shr_r := false; shr_s := false |}, e1 + 1)).
    { unfold shr_fexp. change (Zdigits2 (2 ^ 53)) with 54. rewrite fexp_eq.
      replace (Z.max (54 + e1 - 53) (-1074) - e1) with 1 by lia. reflexivity. }
    rewrite Hs2. cbn [shr_m]. change (2 ^ 52) with (Zpos (2 ^ 52)).
    destruct (Z.leb_spec (e1 + 1) (emax - prec)) as [Hle | Hgt].
    + left. split.
      * apply nao_negativo_finite; unfold emax, prec in *; lia.
      * cbn [SF2R cond_Zopp]. change (Z.pos (2 ^ 52)) with (2 ^ 52).
        rewrite !F2R_pow2 by lia. f_equal. lia.
    + right. split; [reflexivity |].
      rewrite F2R_pow2 by lia. apply bpow_le. unfold emax, prec in *. lia.
  - (* no second shift *)
    assert (Hm2lt : m2 < 2 ^ 53) by lia.
    rewrite shr_fexp_id.
    2:{ rewrite fexp_eq. pose proof (Zdigits2_le m2 53 ltac:(lia) ltac:(lia)). lia. }
    cbn [shr_record_of_loc shr_m].
    destruct m2 as [ | p | p ] eqn:Ep; [ | | lia ].
    + left. split; [reflexivity | cbn [SF2R]; rewrite F2R_0; reflexivity].
    + destruct (Z.leb_spec e1 (emax - prec)) as [Hle | Hgt].
      * left. split; [ | reflexivity ].
        apply nao_negativo_finite; unfold emax, prec in *; lia.
      * right. split; [reflexivity |].
        unfold emax, prec in *.
        destruct Hnorm2 as [ | Hn2']; [lia |].
        apply Rle_trans with (F2R (2 ^ 52) e1); [ | apply F2R_le; exact Hn2' ].
        rewrite F2R_pow2 by lia. apply bpow_le. lia.
Qed.

(** ** What a correct rounding entails *)

Lemma nao_negativo_inv f :
  nao_negativo f = true ->
  f = S754_zero false \/
  exists m e, f = S754_finite false m e /\ 0 < Zpos m < 2 ^ 53 /\ -1074 <= e <= 971 /\
              fexp prec emax (Zdigits2 (Zpos m) + e) = e.
Proof.
  destruct f as [ [|] | s | | [|] m e ]; try discriminate; intros H; [left; reflexivity | right].
  exists m, e. split; [reflexivity |].
  unfold nao_negativo, valid_binary, bounded, canonical_mantissa in H.
  apply andb_prop in H as [H1 H2]. apply Z.eqb_eq in H1. apply Z.leb_le in H2.
  change (Zpos (digits2_pos m)) with (Zdigits2 (Zpos m)) in H1.
  unfold emax, prec in H2. pose proof H1 as H1'. rewrite fexp_eq in H1.
  pose proof (Zdigits2_bounds (Zpos m) ltac:(lia)) as [_ Hd].
  assert (Zdigits2 (Zpos m) <= 53) by lia.
  assert (2 ^ Zdigits2 (Zpos m) <= 2 ^ 53) by (apply Z.pow_le_mono_r; lia).
  repeat split; try lia.
Qed.

Lemma representavel_SF2R f : nao_negativo f = true -> representavel (SF2R f).
Proof.
  intros H. destruct (nao_negativo_inv f H) as [-> | (m & e & -> & Hm & He & _)].
  - exists 0, 0. cbn [SF2R]. rewrite F2R_0. split; [reflexivity | lia].
  - exists (Zpos m), e. cbn [SF2R cond_Zopp]. split; [reflexivity | lia].
Qed.

Lemma representavel_nonneg y : representavel y -> (0 <= y)%R.
Proof.
  intros (m & e & -> & Hm & _). rewrite <- (F2R_0 e). apply F2R_le. lia.
Qed.

Lemma SF2R_nonneg f : nao_negativo f = true -> (0 <= SF2R f)%R.
Proof. intros H. apply representavel_nonneg, representavel_SF2R, H. Qed.

Lemma SF2R_lt_max f : nao_negativo f = true -> (SF2R f < bpow 1024)%R.
Proof.
  intros H. destruct (nao_negativo_inv f H) as [-> | (m & e & -> & Hm & He & _)].
  - cbn [SF2R]. apply bpow_gt_0.
  - cbn [SF2R cond_Zopp]. apply Rlt_le_trans with (F2R (2 ^ 53) e); [apply F2R_lt; lia |].
    rewrite F2R_pow2 by lia. apply bpow_le. lia.
Qed.

Lemma representavel_IZR k : 0 <= k <= 2 ^ 53 -> representavel (IZR k).
Proof.
  intros Hk. destruct (Z.eq_dec k (2 ^ 53)) as [-> | Hne].
  - exists (2 ^ 52), 1. split; [ | lia ]. unfold F2R. rewrite bpow_1, <- mult_IZR. reflexivity.
  - exists k, 0. split; [ | lia ]. unfold F2R. rewrite bpow_0. lra.
Qed.

Lemma IZR_lt_max k : 0 <= k <= 2 ^ 53 -> (IZR k < bpow 1024)%R.
Proof.
  intros Hk. apply Rle_lt_trans with (IZR (2 ^ 53)); [apply IZR_le; lia |].
  rewrite <- bpow_IZR by lia. apply bpow_lt. lia.
Qed.

Lemma arredonda_le x f y :
  arredonda x f -> representavel y -> (y < bpow 1024)%R -> (x <= y)%R ->
  nao_negativo f = true /\ (SF2R f <= y)%R.
Proof.
  intros (v & Hv & Hnear & Hf) Hy Hmax Hxy.
  pose proof (Hnear y Hy) as H. rewrite (Rabs_right (y - x)) in H by lra.
  assert (v <= y)%R by (unfold Rabs in H; destruct Rcase_abs; lra).
  destruct Hf as [[Hf <-] | [_ Hinf]]; [auto | lra].
Qed.

Lemma arredonda_ge x f y :
  arredonda x f -> representavel y -> (y <= x)%R ->
  f = S754_infinity false \/ (nao_negativo f = true /\ (y <= SF2R f)%R).
Proof.
  intros (v & Hv & Hnear & Hf) Hy Hxy.
  pose proof (Hnear y Hy) as H. rewrite (Rabs_left1 (y - x)) in H by lra.
  assert (y <= v)%R by (unfold Rabs in H; destruct Rcase_abs; lra).
  destruct Hf as [[Hf <-] | [-> _]]; [right | left]; auto.
Qed.

Lemma arredonda_exato x f :
  arredonda x f -> representavel x -> (x < bpow 1024)%R ->
  nao_negativo f = true /\ SF2R f = x.
Proof.
  intros Hr Hx Hmax.
  destruct (arredonda_le x f x Hr Hx Hmax ltac:(lra)) as [Hf Hle].
  destruct (arredonda_ge x f x Hr Hx ltac:(lra)) as [-> | [_ Hge]]; [discriminate |].
  split; [assumption | lra].
Qed.

(** A canonical value is a correct rounding of itself. *)
Lemma arredonda_refl f : nao_negativo f = true -> arredonda (SF2R f) f.
Proof.
  intros H. exists (SF2R f). split; [apply representavel_SF2R, H |]. split.
  - intros y _. replace (SF2R f - SF2R f)%R with 0%R by lra. rewrite Rabs_R0. apply Rabs_pos.
  - left. auto.
Qed.

(** ** Normalisation *)

Lemma iter_xO_spec d m : Zpos (Pos.iter xO m d) = Zpos m * 2 ^ Zpos d.
Proof.
  change (Pos.iter xO m d) with (Zpower.shift_pos d m).
  rewrite Zpower.shift_pos_correct, Z.pow_pos_fold. lia.
Qed.

Lemma shl_align_spec m e e' :
  e' <= e ->
  Zpos (fst (shl_align m e e')) = Zpos m * 2 ^ (e - e') /\ snd (shl_align m e e') = e'.
Proof.
  intros H. unfold shl_align. destruct (e' - e) as [ | p | p ] eqn:E; try lia.
  - cbn [fst snd]. replace (e - e') with 0 by lia. lia.
  - cbn [fst snd]. rewrite iter_xO_spec. replace (e - e') with (Zpos p) by lia. lia.
Qed.

Lemma shl_align_id m e e' : e <= e' -> shl_align m e e' = (m, e).
Proof.
  intros H. unfold shl_align. destruct (e' - e) as [ | p | p ] eqn:E; try lia; reflexivity.
Qed.

Lemma Zdigits2_shift m k : 0 < m -> 0 <= k -> Zdigits2 (m * 2 ^ k) = Zdigits2 m + k.
Proof.
  intros Hm Hk. pose proof (Zdigits2_bounds m Hm) as [H1 H2].
  assert (0 < Zdigits2 m) by (destruct m; simpl; lia).
  assert (0 < 2 ^ k) by (apply Z.pow_pos_nonneg; lia).
  apply Zdigits2_unique; [nia |].
  replace (Zdigits2 m + k - 1) with (Zdigits2 m - 1 + k) by lia.
  rewrite !Z.pow_add_r by lia. nia.
Qed.

Lemma binary_round_spec m e :
  arredonda (F2R (Zpos m) e) (binary_round prec emax false m e).
Proof.
  unfold binary_round.
  set (e' := fexp prec emax (Zpos (digits2_pos m) + e)).
  change (Zpos (digits2_pos m)) with (Zdigits2 (Zpos m)) in e'.
  destruct (Z.le_gt_cases e e') as [Hle | Hgt].
  - rewrite shl_align_id by assumption.
    apply binary_round_aux_spec; [lia | reflexivity | fold e'; lia].
  - destruct (shl_align_spec m e e' ltac:(lia)) as [Hm He].
    destruct (shl_align m e e') as [mz ez]. cbn [fst snd] in *. subst ez.
    apply binary_round_aux_spec; [lia | | ].
    + cbn [inbetween]. rewrite Hm, F2R_shift by lia. f_equal. lia.
    + rewrite Hm, Zdigits2_shift by lia.
      replace (Zdigits2 (Zpos m) + (e - e') + e') with (Zdigits2 (Zpos m) + e) by lia.
      fold e'. lia.
Qed.

Lemma arredonda_zero : arredonda 0 (S754_zero false).
Proof. apply (arredonda_refl (S754_zero false)). reflexivity. Qed.

Lemma binary_normalize_spec M E :
  0 <= M -> arredonda (F2R M E) (binary_normalize prec emax M E false).
Proof.
  intros HM. destruct M as [ | m | m ]; [ | | lia ].
  - rewrite F2R_0. apply arredonda_zero.
  - apply binary_round_spec.
Qed.

(** ** The arithmetic operations on non-negative values *)

Lemma F2R_pos m e : (0 < F2R (Zpos m) e)%R.
Proof. rewrite <- (F2R_0 e). apply F2R_lt. lia. Qed.

Lemma F2R_align m e e' :
  e' <= e -> F2R (Zpos (fst (shl_align m e e'))) e' = F2R (Zpos m) e.
Proof.
  intros H. destruct (shl_align_spec m e e' H) as [-> _].
  rewrite F2R_shift by lia. f_equal. lia.
Qed.

Lemma F2R_minus m1 m2 e : F2R (m1 - m2) e = (F2R m1 e - F2R m2 e)%R.
Proof. unfold F2R. rewrite minus_IZR. lra. Qed.

Lemma F2R_plus m1 m2 e : F2R (m1 + m2) e = (F2R m1 e + F2R m2 e)%R.
Proof. unfold F2R. rewrite plus_IZR. lra. Qed.

Lemma fsub_spec a b :
  nao_negativo a = true -> nao_negativo b = true -> (SF2R b <= SF2R a)%R ->
  arredonda (SF2R a - SF2R b) (fsub a b).
Proof.
  intros Ha Hb Hle.
  destruct (nao_negativo_inv a Ha) as [-> | (ma & ea & -> & _)];
    destruct (nao_negativo_inv b Hb) as [-> | (mb & eb & -> & _)]; cbn [SF2R cond_Zopp] in *.
  - replace (0 - 0)%R with 0%R by lra. apply arredonda_zero.
  - pose proof (F2R_pos mb eb). lra.
  - replace (F2R (Zpos ma) ea - 0)%R with (SF2R (S754_finite false ma ea)) by (cbn [SF2R cond_Zopp]; lra).
    apply arredonda_refl, Ha.
  - unfold fsub, SFsub. cbn [cond_Zopp].
    set (ez := Z.min ea eb).
    pose proof (F2R_align ma ea ez ltac:(lia)) as HA.
    pose proof (F2R_align mb eb ez ltac:(lia)) as HB.
    rewrite <- HA, <- HB, <- F2R_minus. apply binary_normalize_spec.
    rewrite <- HA, <- HB in Hle. apply F2R_le_inv in Hle. lia.
Qed.

Lemma fadd_spec a b :
  nao_negativo a = true -> nao_negativo b = true ->
  arredonda (SF2R a + SF2R b) (fadd a b).
Proof.
  intros Ha Hb.
  destruct (nao_negativo_inv a Ha) as [-> | (ma & ea & -> & _)];
    destruct (nao_negativo_inv b Hb) as [-> | (mb & eb & -> & _)]; cbn [SF2R cond_Zopp] in *.
  - replace (0 + 0)%R with 0%R by lra. apply arredonda_zero.
  - replace (0 + F2R (Zpos mb) eb)%R with (SF2R (S754_finite false mb eb)) by (cbn [SF2R cond_Zopp]; lra).
    apply arredonda_refl, Hb.
  - replace (F2R (Zpos ma) ea + 0)%R with (SF2R (S754_finite false ma ea)) by (cbn [SF2R cond_Zopp]; lra).
    apply arredonda_refl, Ha.
  - unfold fadd, SFadd. cbn [cond_Zopp].
    set (ez := Z.min ea eb).
    pose proof (F2R_align ma ea ez ltac:(lia)) as HA.
    pose proof (F2R_align mb eb ez ltac:(lia)) as HB.
    rewrite <- HA, <- HB, <- F2R_plus. apply binary_normalize_spec. lia.
Qed.

Lemma fexp_mono a b : a <= b -> fexp prec emax a <= fexp prec emax b.
Proof. intros H. rewrite !fexp_eq. lia. Qed.

Lemma F2R_mult m1 e1 m2 e2 : F2R (m1 * m2) (e1 + e2) = (F2R m1 e1 * F2R m2 e2)%R.
Proof. unfold F2R. rewrite mult_IZR, bpow_plus. lra. Qed.

Lemma fmul_spec a b :
  nao_negativo a = true -> nao_negativo b = true ->
  arredonda (SF2R a * SF2R b) (fmul a b).
Proof.
  intros Ha Hb.
  destruct (nao_negativo_inv a Ha) as [-> | (ma & ea & -> & Hma & Hea & Hca)];
    destruct (nao_negativo_inv b Hb) as [-> | (mb & eb & -> & Hmb & Heb & Hcb)];
    cbn [SF2R cond_Zopp] in *;
    try (cbn; rewrite ?Rmult_0_l, ?Rmult_0_r; apply arredonda_zero).
  unfold fmul, SFmul. cbn [xorb]. rewrite Pos2Z.inj_mul.
  rewrite <- F2R_mult. apply binary_round_aux_spec; [lia | reflexivity |].
  rewrite fexp_eq in *.
  pose proof (Zdigits2_bounds (Zpos ma) ltac:(lia)) as [Ha1 _].
  pose proof (Zdigits2_bounds (Zpos mb) ltac:(lia)) as [Hb1 _].
  set (da := Zdigits2 (Zpos ma)) in *. set (db := Zdigits2 (Zpos mb)) in *.
  assert (0 < da) by (unfold da; simpl; lia).
  assert (0 < db) by (unfold db; simpl; lia).
  assert (Hd : da + db - 1 <= Zdigits2 (Zpos ma * Zpos mb)).
  { replace (da + db - 1) with (da - 1 + (db - 1) + 1) by lia.
    apply Zdigits2_ge; [ | lia ]. rewrite Z.pow_add_r by lia. nia. }
  lia.
Qed.

(** The position of a quotient, from the remainder of the division. *)
Lemma new_location_spec m2 q r e :
  0 < m2 -> 0 <= r < m2 ->
  inbetween q e ((IZR q + IZR r / IZR m2) * bpow e)%R (new_location m2 r).
Proof.
  intros Hm2 Hr. pose proof (bpow_gt_0 e) as Hb.
  assert (HM : (0 < IZR m2)%R) by (apply IZR_lt; lia).
  set (t := (IZR r / IZR m2)%R).
  assert (Ht : (t * IZR m2 = IZR r)%R) by (unfold t; field; lra).
  assert (Hr0 : (0 <= IZR r)%R) by (apply IZR_le; lia).
  assert (Hr1 : (IZR r < IZR m2)%R) by (apply IZR_lt; lia).
  assert (Ht0 : (0 <= t)%R) by (unfold t; apply Rmult_le_pos; [lra | left; apply Rinv_0_lt_compat; lra]).
  assert (Ht1 : (t < 1)%R) by nra.
  assert (Hcmp : forall c, (2 * r ?= m2) = c ->
            match c with
            | Lt => (t < 1 / 2)%R
            | Eq => (t = 1 / 2)%R
            | Gt => (t > 1 / 2)%R
            end).
  { intros c <-. destruct (Z.compare_spec (2 * r) m2) as [E | E | E].
    - apply (f_equal IZR) in E. rewrite mult_IZR in E. nra.
    - apply IZR_lt in E. rewrite mult_IZR in E. nra.
    - apply IZR_lt in E. rewrite mult_IZR in E. nra. }
  assert (Hpos : r <> 0 -> (0 < t)%R).
  { intros Hne. assert (0 < IZR r)%R by (apply IZR_lt; lia). nra. }
  unfold new_location, new_location_even, new_location_odd.
  destruct (Z.even m2) eqn:Ev; destruct (Z.eqb_spec r 0) as [-> | Hne].
  - cbn [inbetween]. unfold F2R. unfold t. replace (IZR 0 / IZR m2)%R with 0%R by (field; lra). lra.
  - cbn [inbetween]. rewrite F2R_succ. unfold F2R.
    specialize (Hpos Hne). split; [nra |].
    specialize (Hcmp _ eq_refl). destruct (2 * r ?= m2); nra.
  - cbn [inbetween]. unfold F2R. unfold t. replace (IZR 0 / IZR m2)%R with 0%R by (field; lra). lra.
  - cbn [inbetween]. rewrite F2R_succ. unfold F2R.
    specialize (Hpos Hne). split; [nra |].
    assert (Hodd : 2 * r <> m2).
    { intros <-. rewrite Z.even_mul in Ev. discriminate. }
    destruct (Z.compare_spec (2 * r + 1) m2) as [E | E | E].
    + assert (Hc : (2 * r ?= m2) = Lt) by (apply Z.compare_lt_iff; lia).
      specialize (Hcmp _ Hc). cbn in Hcmp. nra.
    + assert (Hc : (2 * r ?= m2) = Lt) by (apply Z.compare_lt_iff; lia).
      specialize (Hcmp _ Hc). cbn in Hcmp. nra.
    + assert (Hc : (2 * r ?= m2) = Gt) by (apply Z.compare_gt_iff; lia).
      specialize (Hcmp _ Hc). cbn in Hcmp. nra.
Qed.

Lemma fdiv_spec ma ea mb eb :
  arredonda (F2R (Zpos ma) ea / F2R (Zpos mb) eb)
            (fdiv (S754_finite false ma ea) (S754_finite false mb eb)).
Proof.
  unfold fdiv, SFdiv, SFdiv_core_binary. cbn [xorb].
  set (d1 := Zdigits2 (Zpos ma)). set (d2 := Zdigits2 (Zpos mb)).
  set (e' := Z.min (fexp prec emax (d1 + ea - (d2 + eb))) (ea - eb)).
  set (s := ea - eb - e').
  assert (Hs : 0 <= s) by (unfold s, e'; lia).
  set (m' := match s with Zpos _ => Z.shiftl (Zpos ma) s | Z0 => Zpos ma | Zneg _ => 0 end).
  assert (Hm' : m' = Zpos ma * 2 ^ s).
  { unfold m'. destruct s as [ | p | p ] eqn:Es; [lia | | lia].
    rewrite Z.shiftl_mul_pow2 by lia. reflexivity. }
  pose proof (Z_div_mod m' (Zpos mb) ltac:(lia)) as Hdm.
  destruct (Z.div_eucl m' (Zpos mb)) as [q r]. destruct Hdm as [Hdm Hr].
  assert (H2s : 0 < 2 ^ s) by (apply Z.pow_pos_nonneg; lia).
  assert (Hq : 0 <= q) by nia.
  assert (Hx : (F2R (Zpos ma) ea / F2R (Zpos mb) eb
                = (IZR q + IZR r / IZR (Zpos mb)) * bpow e')%R).
  { assert (HM : (0 < IZR (Zpos mb))%R) by (apply IZR_lt; lia).
    pose proof (bpow_gt_0 eb). pose proof (bpow_gt_0 e').
    replace ea with (eb + (e' + s)) by (unfold s; lia).
    unfold F2R. rewrite !bpow_plus, (bpow_IZR s) by lia.
    assert (Hmm : (IZR (Zpos ma) * IZR (2 ^ s) = IZR (Zpos mb) * IZR q + IZR r)%R).
    { rewrite <- mult_IZR, <- Hm', Hdm, plus_IZR, mult_IZR. reflexivity. }
    field_simplify_eq; [ | lra ]. nra. }
  rewrite Hx. apply binary_round_aux_spec; [exact Hq | apply new_location_spec; lia |].
  (* the quotient has enough digits *)
  assert (He' : e' <= fexp prec emax (d1 + ea - (d2 + eb))) by (unfold e'; lia).
  enough (Hd : d1 + ea - (d2 + eb) <= Zdigits2 q + e').
  { pose proof (fexp_mono _ _ Hd). lia. }
  pose proof (Zdigits2_nonneg q Hq).
  destruct (Z.le_gt_cases (d1 + s - d2) 0) as [Hsmall | Hbig]; [unfold s in *; lia |].
  pose proof (Zdigits2_bounds (Zpos ma) ltac:(lia)) as [Ha1 _].
  pose proof (Zdigits2_bounds (Zpos mb) ltac:(lia)) as [_ Hb2].
  fold d1 in Ha1. fold d2 in Hb2.
  assert (0 < d1) by (unfold d1; simpl; lia).
  assert (0 < d2) by (unfold d2; simpl; lia).
  set (k := d1 + s - d2 - 1).
  assert (Hk : 2 ^ k <= q).
  { assert (H2k : 0 < 2 ^ k) by (apply Z.pow_pos_nonneg; lia).
    assert (Hp : 2 ^ k * 2 ^ d2 = 2 ^ (d1 - 1) * 2 ^ s).
    { rewrite <- !Z.pow_add_r by lia. f_equal. lia. }
    destruct (Z.le_gt_cases (2 ^ k) q) as [ | Hlt]; auto.
    assert (q + 1 <= 2 ^ k) by lia.
    assert (m' < Zpos mb * (q + 1)) by lia.
    assert (Zpos mb * (q + 1) <= Zpos mb * 2 ^ k) by nia.
    assert (Zpos mb * 2 ^ k < 2 ^ d2 * 2 ^ k) by nia.
    assert (2 ^ (d1 - 1) * 2 ^ s <= m') by nia.
    lia. }
  pose proof (Zdigits2_ge q k Hk ltac:(lia)). unfold k, s in *. lia.
Qed.

(** ** The constants *)

Lemma bpow_neg k : 0 <= k -> bpow (- k) = (/ IZR (2 ^ k))%R.
Proof.
  intros Hk. pose proof (bpow_gt_0 k) as Hp. pose proof (bpow_plus k (- k)) as H.
  replace (k + - k) with 0 in H by lia. rewrite bpow_0 in H.
  rewrite <- bpow_IZR by lia. apply Rmult_eq_reg_l with (bpow k); [ | lra ].
  rewrite <- H. field. lra.
Qed.

Lemma SF2R_f60 : SF2R f60 = 60%R.
Proof.
  unfold f60. cbn [SF2R cond_Zopp]. unfold F2R.
  change (-47) with (- (47)). rewrite bpow_neg by lia.
  change (2 ^ 47) with 140737488355328. lra.
Qed.

Lemma SF2R_f1000 : SF2R f1000 = 1000%R.
Proof.
  unfold f1000. cbn [SF2R cond_Zopp]. unfold F2R.
  change (-43) with (- (43)). rewrite bpow_neg by lia.
  change (2 ^ 43) with 8796093022208. lra.
Qed.

Lemma SF2R_fone : SF2R fone = 1%R.
Proof.
  unfold fone. cbn [SF2R cond_Zopp]. unfold F2R.
  change (-52) with (- (52)). rewrite bpow_neg by lia.
  change (2 ^ 52) with 4503599627370496. lra.
Qed.

Lemma SF2R_pos_finite m e : (0 < SF2R (S754_finite false m e))%R.
Proof. cbn [SF2R cond_Zopp]. apply F2R_pos. Qed.

Lemma SF2R_eq_0 f : nao_negativo f = true -> SF2R f = 0%R -> f = S754_zero false.
Proof.
  intros H H0. destruct (nao_negativo_inv f H) as [-> | (m & e & -> & _)]; [reflexivity |].
  pose proof (SF2R_pos_finite m e). lra.
Qed.

(** ** Truncation to an integer *)

Lemma int_of_float_spec f :
  nao_negativo f = true ->
  exists k, int_of_float f = Ok k /\ 0 <= k /\ (IZR k <= SF2R f < IZR k + 1)%R.
Proof.
  intros H. destruct (nao_negativo_inv f H) as [-> | (m & e & -> & Hm & He & _)].
  - exists 0. cbn. split; [reflexivity |]. split; [lia | lra].
  - cbn [int_of_float cond_Zopp SF2R].
    destruct (Z.leb_spec 0 e) as [Hpos | Hneg].
    + exists (Z.shiftl (Zpos m) e). split; [reflexivity |].
      rewrite Z.shiftl_mul_pow2 by lia.
      assert (0 < 2 ^ e) by (apply Z.pow_pos_nonneg; lia).
      split; [lia |].
      unfold F2R. rewrite mult_IZR, <- bpow_IZR by lia. lra.
    + exists (Z.shiftr (Zpos m) (- e)). split; [reflexivity |].
      rewrite Z.shiftr_div_pow2 by lia.
      assert (Hp : 0 < 2 ^ (- e)) by (apply Z.pow_pos_nonneg; lia).
      pose proof (Z_div_mod_eq_full (Zpos m) (2 ^ (- e))) as Hdm.
      pose proof (Z.mod_pos_bound (Zpos m) (2 ^ (- e)) Hp) as Hr.
      set (k := Zpos m / 2 ^ (- e)) in *. set (r := Zpos m mod 2 ^ (- e)) in *.
      assert (0 <= k) by (apply Z.div_pos; lia).
      split; [assumption |].
      unfold F2R. replace e with (- (- e)) by lia. rewrite bpow_neg by lia.
      assert (HP : (0 < IZR (2 ^ (- e)))%R) by (apply IZR_lt; lia).
      rewrite Hdm, plus_IZR, mult_IZR.
      assert (0 <= IZR r < IZR (2 ^ (- e)))%R by (split; [apply IZR_le | apply IZR_lt]; lia).
      replace (- - - e) with (- e) by lia.
      split.
      * apply Rmult_le_reg_r with (IZR (2 ^ (- e))); [lra |]. field_simplify; [ | lra ]. nra.
      * apply Rmult_lt_reg_r with (IZR (2 ^ (- e))); [lra |]. field_simplify; [ | lra ]. nra.
Qed.

Lemma int_of_float_unique f k k' :
  (IZR k <= SF2R f < IZR k + 1)%R -> (IZR k' <= SF2R f < IZR k' + 1)%R -> k = k'.
Proof.
  intros [H1 H2] [H3 H4].
  assert (IZR k < IZR (k' + 1))%R by (rewrite plus_IZR; lra).
  assert (IZR k' < IZR (k + 1))%R by (rewrite plus_IZR; lra).
  apply lt_IZR in H, H0. lia.
Qed.

(** The integer part of a grid point is a grid point. *)
Lemma representavel_floor f k :
  nao_negativo f = true -> 0 <= k -> (IZR k <= SF2R f < IZR k + 1)%R ->
  representavel (IZR k) /\ representavel (SF2R f - IZR k).
Proof.
  intros H Hk Hb. destruct (nao_negativo_inv f H) as [-> | (m & e & -> & Hm & He & _)].
  - cbn [SF2R] in *. assert (k = 0).
    { assert (IZR k < IZR 1)%R by lra. apply lt_IZR in H0. lia. }
    subst k. replace (0 - 0)%R with 0%R by lra. split; apply (representavel_IZR 0); lia.
  - destruct (int_of_float_spec _ H) as (k' & Hk' & Hk0 & Hb').
    assert (k = k') by (eapply int_of_float_unique; eauto). subst k'.
    cbn [int_of_float cond_Zopp SF2R] in *.
    destruct (Z.leb_spec 0 e) as [Hpos | Hneg].
    + injection Hk' as <-. rewrite Z.shiftl_mul_pow2 by lia.
      assert (IZR (Zpos m * 2 ^ e) = F2R (Zpos m) e).
      { unfold F2R. rewrite mult_IZR, <- bpow_IZR by lia. reflexivity. }
      rewrite H0. split.
      * exists (Zpos m), e. split; [reflexivity | lia].
      * replace (F2R (Zpos m) e - F2R (Zpos m) e)%R with 0%R by lra.
        apply (representavel_IZR 0); lia.
    + injection Hk' as <-. rewrite Z.shiftr_div_pow2 by lia.
      assert (Hp : 0 < 2 ^ (- e)) by (apply Z.pow_pos_nonneg; lia).
      pose proof (Z_div_mod_eq_full (Zpos m) (2 ^ (- e))) as Hdm.
      pose proof (Z.mod_pos_bound (Zpos m) (2 ^ (- e)) Hp) as Hr.
      set (q := Zpos m / 2 ^ (- e)) in *. set (r := Zpos m mod 2 ^ (- e)) in *.
      assert (0 <= q) by (apply Z.div_pos; lia).
      assert (q <= Zpos m) by nia.
      split; [apply representavel_IZR; lia |].
      exists r, e. split; [ | lia ].
      assert (IZR q = F2R (q * 2 ^ (- e)) e).
      { rewrite F2R_shift by lia. replace (e + - e) with 0 by lia.
        unfold F2R. rewrite bpow_0. lra. }
      rewrite H2, <- F2R_minus. f_equal. lia.
Qed.

Lemma float_of_int_spec k :
  0 <= k -> representavel (IZR k) -> (IZR k < bpow 1024)%R ->
  exists f, float_of_int k = Ok f /\ nao_negativo f = true /\ SF2R f = IZR k.
Proof.
  intros Hk Hr Hmax. unfold float_of_int.
  pose proof (binary_normalize_spec k 0 Hk) as Hn.
  assert (F2R k 0 = IZR k) by (unfold F2R; rewrite bpow_0; lra).
  rewrite H in Hn.
  destruct (arredonda_exato _ _ Hn Hr Hmax) as [Hf Hv].
  destruct (binary_normalize prec emax k 0 false) as [ [|] | s | | [|] m e ] eqn:E;
    try discriminate; eexists; split; try reflexivity; split; auto.
Qed.

(** ** Remainder and floor *)

Lemma c_fmod_spec t y :
  nao_negativo t = true -> nao_negativo y = true -> (0 < SF2R y)%R ->
  exists q, 0 <= q /\ nao_negativo (c_fmod t y) = true /\
            SF2R t = (IZR q * SF2R y + SF2R (c_fmod t y))%R /\
            (0 <= SF2R (c_fmod t y) < SF2R y)%R.
Proof.
  intros Ht Hy Hy0.
  destruct (nao_negativo_inv y Hy) as [-> | (my & ey & -> & Hmy & Hey & _)];
    [cbn [SF2R] in Hy0; lra |].
  destruct (nao_negativo_inv t Ht) as [-> | (mx & ex & -> & Hmx & Hex & _)].
  - exists 0. cbn [c_fmod SF2R cond_Zopp] in *. repeat split; try reflexivity; try lra; try lia.
  - cbn [c_fmod cond_Zopp].
    set (e := Z.min ex ey).
    set (X := Zpos mx * 2 ^ (ex - e)). set (Y := Zpos my * 2 ^ (ey - e)).
    assert (HX : F2R X e = F2R (Zpos mx) ex).
    { unfold X. rewrite F2R_shift by lia. f_equal. lia. }
    assert (HY : F2R Y e = F2R (Zpos my) ey).
    { unfold Y. rewrite F2R_shift by lia. f_equal. lia. }
    assert (0 < 2 ^ (ex - e)) by (apply Z.pow_pos_nonneg; lia).
    assert (0 < 2 ^ (ey - e)) by (apply Z.pow_pos_nonneg; lia).
    assert (HYpos : 0 < Y) by (unfold Y; nia).
    assert (HXpos : 0 < X) by (unfold X; nia).
    pose proof (Z_div_mod_eq_full X Y) as Hdm.
    pose proof (Z.mod_pos_bound X Y HYpos) as Hr.
    assert (Hq : 0 <= X / Y) by (apply Z.div_pos; lia).
    assert (Hle : X mod Y <= X) by nia.
    assert (Hval : F2R (X mod Y) e = (F2R X e - IZR (X / Y) * F2R Y e)%R).
    { unfold F2R. rewrite Hdm at 2. rewrite plus_IZR, mult_IZR. lra. }
    assert (Hrep : representavel (F2R (X mod Y) e)).
    { exists (X mod Y), e. split; [reflexivity |]. split; [ | lia ].
      destruct (Z.le_gt_cases ex ey) as [Hc | Hc].
      - assert (X = Zpos mx) by (unfold X; replace (ex - e) with 0 by lia; lia). lia.
      - assert (Y = Zpos my) by (unfold Y; replace (ey - e) with 0 by lia; lia). lia. }
    assert (Hlt : (F2R (X mod Y) e < F2R Y e)%R) by (apply F2R_lt; lia).
    assert (Hge : (0 <= F2R (X mod Y) e)%R) by (rewrite <- (F2R_0 e); apply F2R_le; lia).
    pose proof (SF2R_lt_max _ Hy) as Hmax. cbn [SF2R cond_Zopp] in Hmax, Hy0 |- *.
    destruct (arredonda_exato _ _ (binary_normalize_spec (X mod Y) e ltac:(lia)) Hrep ltac:(lra))
      as [Hnn Hv].
    exists (X / Y). rewrite Hv. rewrite HX, HY in Hval. rewrite HY in Hlt.
    repeat split; try assumption; try lra.
Qed.

Lemma c_floor_spec f k :
  nao_negativo f = true -> int_of_float f = Ok k ->
  nao_negativo (c_floor f) = true /\ SF2R (c_floor f) = IZR k.
Proof.
  intros H Hk.
  destruct (int_of_float_spec f H) as (k' & Hk' & Hk0 & Hb).
  assert (k' = k) by congruence. subst k'.
  destruct (representavel_floor f k H Hk0 Hb) as [Hrep _].
  destruct (nao_negativo_inv f H) as [-> | (m & e & -> & Hm & He & _)].
  - cbn in *. injection Hk as <-. auto.
  - cbn [c_floor int_of_float cond_Zopp SF2R] in *.
    destruct (Z.leb_spec 0 e) as [Hpos | Hneg].
    + split; [assumption |]. injection Hk as <-.
      rewrite Z.shiftl_mul_pow2 by lia.
      cbn [SF2R cond_Zopp]. unfold F2R. rewrite mult_IZR, <- bpow_IZR by lia. reflexivity.
    + injection Hk as Hk. rewrite Hk.
      pose proof (binary_normalize_spec k 0 Hk0) as Hn.
      assert (HF : F2R k 0 = IZR k) by (unfold F2R; rewrite bpow_0; lra).
      rewrite HF in Hn.
      assert (Hmax : (IZR k < bpow 1024)%R).
      { eapply Rle_lt_trans; [apply Hb |]. apply (SF2R_lt_max _ H). }
      apply (arredonda_exato _ _ Hn Hrep Hmax).
Qed.

(** ** Comparisons *)

Lemma nonzero_nao_negativo f :
  nao_negativo f = true ->
  (nonzero f = false /\ f = S754_zero false) \/
  (nonzero f = true /\ exists m e, f = S754_finite false m e).
Proof.
  intros H. destruct (nao_negativo_inv f H) as [-> | (m & e & -> & _)];
    [left | right]; split; eauto.
Qed.

Lemma SFltb_zero_nao_negativo f : nao_negativo f = true -> SFltb f fzero = false.
Proof.
  intros H. destruct (nao_negativo_inv f H) as [-> | (m & e & -> & _)]; reflexivity.
Qed.

(** ** Floor division and modulo by sixty *)

Lemma float_mod_60 t :
  nao_negativo t = true ->
  exists r q, float_mod t f60 = Ok r /\ nao_negativo r = true /\ 0 <= q /\
              SF2R t = (60 * IZR q + SF2R r)%R /\ (0 <= SF2R r < 60)%R.
Proof.
  intros Ht.
  assert (H60 : nao_negativo f60 = true) by reflexivity.
  destruct (c_fmod_spec t f60 Ht H60 ltac:(rewrite SF2R_f60; lra))
    as (q & Hq & Hnn & Hv & Hb).
  rewrite SF2R_f60 in *. unfold float_mod. change (SFeqb f60 fzero) with false. cbn iota.
  rewrite (SFltb_zero_nao_negativo _ Hnn).
  change (SFltb f60 fzero) with false. cbn [Bool.eqb negb].
  destruct (nonzero_nao_negativo _ Hnn) as [[-> Ez] | [-> _]].
  - rewrite Ez in *. exists (S754_zero false), q. repeat split; try assumption; try lra.
  - exists (c_fmod t f60), q. repeat split; try assumption; try lra.
Qed.

Lemma fdiv_60_spec d :
  nao_negativo d = true -> arredonda (SF2R d / 60) (fdiv d f60).
Proof.
  intros H. destruct (nao_negativo_inv d H) as [-> | (m & e & -> & _)].
  - cbn [SF2R]. replace (0 / 60)%R with 0%R by lra. apply arredonda_zero.
  - rewrite <- SF2R_f60. unfold f60. cbn [SF2R cond_Zopp]. apply fdiv_spec.
Qed.

(** A value with a fractional part is below [2^52]. *)
Lemma int_of_float_inexato f k :
  nao_negativo f = true -> int_of_float f = Ok k -> SF2R f <> IZR k -> k + 1 <= 2 ^ 53.
Proof.
  intros H Hk Hne.
  destruct (nao_negativo_inv f H) as [-> | (m & e & -> & Hm & He & _)].
  - cbn in Hk. injection Hk as <-. lia.
  - cbn [int_of_float cond_Zopp SF2R] in *.
    destruct (Z.leb_spec 0 e) as [Hpos | Hneg].
    + exfalso. apply Hne. injection Hk as <-.
      rewrite Z.shiftl_mul_pow2 by lia.
      unfold F2R. rewrite mult_IZR, <- bpow_IZR by lia. reflexivity.
    + injection Hk as <-. rewrite Z.shiftr_div_pow2 by lia.
      assert (Hp : 2 <= 2 ^ (- e)).
      { change 2 with (2 ^ 1) at 1. apply Z.pow_le_mono_r; lia. }
      assert (Zpos m / 2 ^ (- e) <= Zpos m / 2) by (apply Z.div_le_compat_l; lia).
      assert (Zpos m / 2 < 2 ^ 52) by (apply Z.div_lt_upper_bound; lia).
      lia.
Qed.

Lemma int_of_float_IZR f k :
  nao_negativo f = true -> SF2R f = IZR k -> int_of_float f = Ok k.
Proof.
  intros H Hv. destruct (int_of_float_spec f H) as (k' & Hk' & _ & Hb).
  rewrite Hk'. f_equal. rewrite Hv in Hb.
  assert (IZR k' < IZR (k + 1))%R by (rewrite plus_IZR; lra).
  assert (IZR k < IZR (k' + 1))%R by (rewrite plus_IZR; lra).
  apply lt_IZR in H0, H1. lia.
Qed.

(** [int(t // 60)] is defined for every finite non-negative [t]; below
    [2^53] it is the exact integer quotient. *)
Lemma float_floordiv_60 t :
  nao_negativo t = true ->
  exists fd k,
    float_floordiv t f60 = Ok fd /\ int_of_float fd = Ok k /\ 0 <= k /\
    ((SF2R t < bpow 53)%R -> (IZR (60 * k) <= SF2R t < IZR (60 * k) + 60)%R).
Proof.
  intros Ht.
  assert (H60 : nao_negativo f60 = true) by reflexivity.
  destruct (c_fmod_spec t f60 Ht H60 ltac:(rewrite SF2R_f60; lra))
    as (q & Hq & Hnn & Hv & Hb).
  rewrite SF2R_f60 in *.
  assert (HqR : (0 <= IZR q)%R) by (apply IZR_le; lia).
  unfold float_floordiv, float_div_mod.
  change (SFeqb f60 fzero) with false. cbn iota.
  set (mod0 := c_fmod t f60) in *.
  (* the difference t - mod0 *)
  pose proof (fsub_spec t mod0 Ht Hnn ltac:(lra)) as HD.
  destruct (arredonda_le _ _ (SF2R t) HD (representavel_SF2R _ Ht) (SF2R_lt_max _ Ht) ltac:(lra))
    as [HDnn HDle].
  set (D := fsub t mod0) in *.
  pose proof (SF2R_nonneg _ HDnn) as HD0.
  (* the quotient *)
  pose proof (fdiv_60_spec D HDnn) as Hdiv.
  destruct (arredonda_le _ _ (SF2R D) Hdiv (representavel_SF2R _ HDnn) (SF2R_lt_max _ HDnn) ltac:(lra))
    as [Hdnn Hdle].
  set (div0 := fdiv D f60) in *.
  (* exactness below 2^53 *)
  assert (Hexato : (SF2R t < bpow 53)%R -> SF2R div0 = IZR q).
  { intros Hlt. rewrite (bpow_IZR 53) in Hlt by lia.
    assert (Hq60 : 0 <= 60 * q <= 2 ^ 53).
    { split; [lia |]. apply le_IZR. rewrite mult_IZR. lra. }
    assert (HDv : SF2R D = IZR (60 * q)).
    { apply (arredonda_exato _ D).
      - replace (IZR (60 * q)) with (SF2R t - SF2R mod0)%R by (rewrite mult_IZR; lra). exact HD.
      - apply representavel_IZR, Hq60.
      - apply IZR_lt_max, Hq60. }
    apply (arredonda_exato _ div0).
    - replace (IZR q) with (SF2R D / 60)%R by (rewrite HDv, mult_IZR; lra). exact Hdiv.
    - apply representavel_IZR. lia.
    - apply IZR_lt_max. lia. }
  (* the sign adjustment never applies *)
  assert (Hadj :
    (if nonzero mod0
     then if negb (Bool.eqb (SFltb f60 fzero) (SFltb mod0 fzero))
          then (fadd mod0 f60, fsub div0 fone) else (mod0, div0)
     else (S754_zero (sign_bit f60), div0))
    = (if nonzero mod0 then mod0 else S754_zero false, div0)).
  { rewrite (SFltb_zero_nao_negativo _ Hnn). change (SFltb f60 fzero) with false.
    cbn [Bool.eqb negb]. destruct (nonzero mod0); reflexivity. }
  rewrite Hadj. cbn [fst].
  destruct (nonzero_nao_negativo _ Hdnn) as [[-> Ez] | [-> _]].
  - (* the quotient is zero *)
    eexists _, 0. split; [reflexivity |]. split; [reflexivity |]. split; [lia |].
    intros Hlt. specialize (Hexato Hlt). rewrite Ez in Hexato. cbn [SF2R] in Hexato.
    assert (q = 0) by (apply eq_IZR; lra). subst q.
    change (60 * 0) with 0. lra.
  - destruct (int_of_float_spec div0 Hdnn) as (kf & Hkf & Hkf0 & Hkfb).
    destruct (c_floor_spec div0 kf Hdnn Hkf) as [Hflnn Hflv].
    set (fl := c_floor div0) in *.
    pose proof (fsub_spec div0 fl Hdnn Hflnn ltac:(lra)) as Hz.
    destruct (SFltb fhalf (fsub div0 fl)) eqn:Ehalf.
    + (* the quotient has a fractional part above one half *)
      assert (Hne : SF2R div0 <> IZR kf).
      { intros Heq.
        replace (SF2R div0 - SF2R fl)%R with 0%R in Hz by lra.
        assert (H00 : 0 <= 0 <= 2 ^ 53) by lia.
        destruct (arredonda_exato _ _ Hz (representavel_IZR 0 H00) (bpow_gt_0 _)) as [Hznn Hzv].
        rewrite (SF2R_eq_0 _ Hznn Hzv) in Ehalf. discriminate. }
      pose proof (int_of_float_inexato div0 kf Hdnn Hkf Hne) as Hk1.
      pose proof (fadd_spec fl fone Hflnn eq_refl) as Hadd.
      rewrite Hflv, SF2R_fone in Hadd.
      replace (IZR kf + 1)%R with (IZR (kf + 1)) in Hadd by (rewrite plus_IZR; lra).
      assert (Hk1' : 0 <= kf + 1 <= 2 ^ 53) by lia.
      destruct (arredonda_exato _ _ Hadd (representavel_IZR _ Hk1') (IZR_lt_max _ Hk1'))
        as [Hann Hav].
      eexists _, (kf + 1). split; [reflexivity |].
      split; [apply int_of_float_IZR; assumption |]. split; [lia |].
      intros Hlt. exfalso. apply Hne. rewrite (Hexato Hlt) in *.
      f_equal. apply int_of_float_unique with (f := div0); rewrite ?Hexato by assumption; [ | lra ].
      lra.
    + eexists _, kf. split; [reflexivity |].
      split; [apply int_of_float_IZR; assumption |]. split; [lia |].
      intros Hlt. specialize (Hexato Hlt). rewrite Hexato in Hkfb.
      assert (kf = q).
      { assert (IZR kf < IZR (q + 1))%R by (rewrite plus_IZR; lra).
        assert (IZR q < IZR (kf + 1))%R by (rewrite plus_IZR; lra).
        apply lt_IZR in H, H0. lia. }
      subst kf. rewrite mult_IZR. lra.
Qed.

(** ** The millisecond field *)

(** A grid point below one is at most [1 - 2^-53]. *)
Lemma representavel_lt_1 y :
  representavel y -> (y < 1)%R -> (y <= 1 - bpow (-53))%R.
Proof.
  intros (m & e & -> & Hm & He) Hlt.
  assert (H1 : F2R (2 ^ 53) (-53) = 1%R).
  { rewrite F2R_pow2 by lia. reflexivity. }
  assert (H2 : F2R (2 ^ 53 - 1) (-53) = (1 - bpow (-53))%R).
  { rewrite F2R_minus, H1, F2R_1. reflexivity. }
  destruct (Z.le_gt_cases (-53) e) as [Hge | Hlt'].
  - replace e with (-53 + (e + 53)) in * by lia.
    rewrite <- F2R_shift in * by lia.
    rewrite <- H1 in Hlt. apply F2R_lt_inv in Hlt.
    rewrite <- H2. apply F2R_le. lia.
  - apply Rle_trans with (F2R (2 ^ 53) e); [apply F2R_le; lia |].
    rewrite F2R_pow2 by lia.
    apply Rle_trans with (bpow (-1)); [apply bpow_le; lia |].
    assert (bpow (-53) <= bpow (-1))%R by (apply bpow_le; lia).
    assert (bpow (-1) = / 2)%R by (change (-1) with (- (1)); rewrite bpow_neg by lia; reflexivity).
    lra.
Qed.

(** The largest binary64 value below one thousand. *)
Lemma pred_1000 :
  F2R (1000 * 2 ^ 43 - 1) (-43) = (1000 - bpow (-43))%R /\
  F2R (1000 * 2 ^ 43 - 1 + 1) (-43) = 1000%R /\
  bpow (-43) = (1024 * bpow (-53))%R.
Proof.
  assert (H : F2R (1000 * 2 ^ 43) (-43) = 1000%R).
  { rewrite F2R_shift by lia. unfold F2R. change (-43 + 43) with 0. rewrite bpow_0. lra. }
  repeat split.
  - rewrite F2R_minus, H, F2R_1. reflexivity.
  - replace (1000 * 2 ^ 43 - 1 + 1) with (1000 * 2 ^ 43) by lia. exact H.
  - replace (-43) with (-53 + 10) by lia. rewrite bpow_plus, (bpow_IZR 10) by lia.
    change (2 ^ 10) with 1024. lra.
Qed.

(** Multiplying a fraction by one thousand never rounds up to one
    thousand. *)
Lemma arredonda_milesimos x p :
  (0 <= x <= 1000 - 1000 * bpow (-53))%R -> arredonda x p ->
  nao_negativo p = true /\ (SF2R p < 1000)%R.
Proof.
  intros [Hx0 Hx1] (v & Hv & Hnear & Hp).
  destruct pred_1000 as (HF0 & HF1 & H43).
  pose proof (bpow_gt_0 (-53)) as Hb.
  set (m0 := 1000 * 2 ^ 43 - 1) in *.
  assert (Hrep0 : representavel (F2R m0 (-43))).
  { exists m0, (-43). unfold m0. split; [reflexivity | lia]. }
  assert (Hvle : (v <= F2R m0 (-43))%R).
  { destruct (grade_sem_intermediarios m0 (-43) v ltac:(unfold m0; lia) ltac:(lia)
                ltac:(right; unfold m0; lia) Hv) as [ | Hge]; [assumption | exfalso].
    rewrite HF1 in Hge. pose proof (Hnear _ Hrep0) as Hn. rewrite HF0 in Hn.
    rewrite (Rabs_right (v - x)) in Hn by lra.
    unfold Rabs in Hn. destruct Rcase_abs; lra. }
  rewrite HF0 in Hvle. pose proof (bpow_gt_0 (-43)).
  destruct Hp as [[Hnn <-] | [_ Hinf]].
  - split; [assumption | lra].
  - exfalso. assert (bpow 10 <= bpow 1024)%R by (apply bpow_le; lia).
    rewrite (bpow_IZR 10) in H0 by lia. change (2 ^ 10) with 1024 in H0. lra.
Qed.

Lemma existe_piso x : (0 <= x)%R -> exists k, 0 <= k /\ (IZR k <= x < IZR k + 1)%R.
Proof.
  intros Hx. destruct (archimed x) as [H1 H2]. exists (up x - 1).
  rewrite minus_IZR. split; [ | lra ].
  assert (IZR 0 < IZR (up x))%R by lra. apply lt_IZR in H. lia.
Qed.

Lemma milissegundos_spec t :
  nao_negativo t = true ->
  exists it fi ms,
    int_of_float t = Ok it /\ float_of_int it = Ok fi /\
    int_of_float (fmul (fsub t fi) f1000) = Ok ms /\
    0 <= it /\ (IZR it <= SF2R t < IZR it + 1)%R /\
    0 <= ms <= 999 /\
    (Rabs (1000 * (SF2R t - IZR it) - IZR ms) < 1)%R.
Proof.
  intros Ht.
  destruct (int_of_float_spec t Ht) as (it & Hit & Hit0 & Hitb).
  destruct (representavel_floor t it Ht Hit0 Hitb) as [Hrit Hrfrac].
  pose proof (SF2R_lt_max _ Ht) as Htmax.
  destruct (float_of_int_spec it Hit0 Hrit ltac:(lra)) as (fi & Hfi & Hfinn & Hfiv).
  pose proof (fsub_spec t fi Ht Hfinn ltac:(lra)) as Hsub. rewrite Hfiv in Hsub.
  assert (H1max : (1 < bpow 1024)%R).
  { rewrite <- bpow_0. apply bpow_lt. lia. }
  destruct (arredonda_exato _ _ Hsub Hrfrac ltac:(lra)) as [Hfrnn Hfrv].
  set (fr := fsub t fi) in *.
  pose proof (fmul_spec fr f1000 Hfrnn eq_refl) as Hmul.
  rewrite Hfrv, SF2R_f1000 in Hmul.
  set (frac := (SF2R t - IZR it)%R) in *.
  assert (Hfrac1 : (frac <= 1 - bpow (-53))%R) by (apply representavel_lt_1; [assumption | unfold frac; lra]).
  assert (Hfrac0 : (0 <= frac)%R) by (unfold frac; lra).
  pose proof (bpow_gt_0 (-53)) as Hb.
  assert (Hxb : (0 <= frac * 1000 <= 1000 - 1000 * bpow (-53))%R) by (split; lra).
  destruct (arredonda_milesimos (frac * 1000) _ Hxb Hmul) as [Hpnn Hplt].
  set (p := fmul fr f1000) in *.
  destruct (int_of_float_spec p Hpnn) as (ms & Hms & Hms0 & Hmsb).
  exists it, fi, ms. repeat split; try assumption; try lra.
  - assert (Hlt : (IZR ms < IZR 1000)%R) by lra. apply lt_IZR in Hlt. lia.
  - (* the truncated product is within one of the exact product *)
    destruct (existe_piso (frac * 1000) (proj1 Hxb)) as (k0 & Hk0 & Hk0b).
    assert (Hk0le : k0 <= 999).
    { assert (Hlt : (IZR k0 < IZR 1000)%R) by lra. apply lt_IZR in Hlt. lia. }
    assert (Hr0 : 0 <= k0 <= 2 ^ 53) by lia.
    assert (Hr1 : 0 <= k0 + 1 <= 2 ^ 53) by lia.
    destruct (arredonda_ge _ _ (IZR k0) Hmul (representavel_IZR _ Hr0) ltac:(lra))
      as [Hinf | [_ Hlow]]; [fold p in Hinf; rewrite Hinf in Hpnn; discriminate |].
    destruct (arredonda_le _ _ (IZR (k0 + 1)) Hmul (representavel_IZR _ Hr1)
                (IZR_lt_max _ Hr1) ltac:(rewrite plus_IZR; lra)) as [_ Hup].
    fold p in Hlow, Hup. rewrite plus_IZR in Hup.
    assert (Hcases : ms = k0 \/ ms = k0 + 1).
    { assert (IZR ms < IZR (k0 + 2))%R by (rewrite plus_IZR; lra).
      assert (IZR (k0 - 1) < IZR ms)%R by (rewrite minus_IZR; lra).
      apply lt_IZR in H, H0. lia. }
    fold frac. replace (1000 * frac)%R with (frac * 1000)%R by lra.
    destruct Hcases as [-> | ->].
    + rewrite Rabs_right; lra.
    + rewrite plus_IZR in *.
      assert (Hpv : SF2R p = (IZR k0 + 1)%R) by lra.
      destruct Hmul as (v & _ & Hnear & [[_ Hv] | [Hinf _]]);
        [ | fold p in Hinf; rewrite Hinf in Hpnn; discriminate ].
      fold p in Hv. pose proof (Hnear _ (representavel_IZR _ Hr0)) as Hn.
      rewrite <- Hv, Hpv in Hn.
      rewrite (Rabs_right (IZR k0 + 1 - frac * 1000)) in Hn by lra.
      rewrite (Rabs_left1 (IZR k0 - frac * 1000)) in Hn by lra.
      rewrite Rabs_left1; lra.
Qed.

(** ** The tuple of one timestamp *)

Lemma tempo_do_timestamp_spec t :
  nao_negativo t = true ->
  exists minutos segundos milissegundos it,
    tempo_do_timestamp t = Ok (minutos, segundos, milissegundos) /\
    0 <= minutos /\ 0 <= segundos <= 59 /\ 0 <= milissegundos <= 999 /\
    (IZR it <= SF2R t < IZR it + 1)%R /\
    (Rabs (1000 * (SF2R t - IZR it) - IZR milissegundos) < 1)%R /\
    ((SF2R t < bpow 53)%R -> minutos * 60 + segundos = it).
Proof.
  intros Ht.
  destruct (float_floordiv_60 t Ht) as (fd & minutos & Hfd & Hmin & Hmin0 & Hexato).
  destruct (float_mod_60 t Ht) as (r & q & Hr & Hrnn & Hq & Hv & Hrb).
  destruct (int_of_float_spec r Hrnn) as (segundos & Hseg & Hseg0 & Hsegb).
  destruct (milissegundos_spec t Ht) as (it & fi & ms & Hit & Hfi & Hms & Hit0 & Hitb & Hmsb & Hclose).
  exists minutos, segundos, ms, it.
  unfold tempo_do_timestamp.
  rewrite Hfd. cbn [bindr]. rewrite Hmin. cbn [bindr]. rewrite Hr. cbn [bindr].
  rewrite Hseg. cbn [bindr]. rewrite Hit. cbn [bindr]. rewrite Hfi. cbn [bindr].
  rewrite Hms. cbn [bindr].
  assert (Hs59 : segundos <= 59).
  { assert (Hlt : (IZR segundos < IZR 60)%R) by lra. apply lt_IZR in Hlt. lia. }
  repeat split; try assumption; try lia; try lra.
  intros Hlt. specialize (Hexato Hlt). rewrite mult_IZR in Hexato.
  assert (Hqm : q = minutos).
  { assert (IZR q < IZR (minutos + 1))%R by (rewrite plus_IZR; lra).
    assert (IZR minutos < IZR (q + 1))%R by (rewrite plus_IZR; lra).
    apply lt_IZR in H, H0. lia. }
  subst q.
  assert (IZR (minutos * 60 + segundos) < IZR (it + 1))%R
    by (rewrite !plus_IZR, mult_IZR; lra).
  assert (IZR it < IZR (minutos * 60 + segundos + 1))%R
    by (rewrite !plus_IZR, mult_IZR; lra).
  apply lt_IZR in H, H0. lia.
Qed.

(** What [float] returns on a capture is finite and non-negative, or
    infinity. *)
Lemma float_of_str_mk (ds : str) (k : Z) (e : exn) t :
  match ds with
  | [] => Raise e
  | n :: l =>
      match Z.of_N (digits_value (n :: l)) with
      | Zpos n0 =>
          match 10 ^ k with
          | Zpos d => Ok (fdiv (S754_finite false n0 0) (S754_finite false d 0))
          | _ => Ok fzero
          end
      | _ => Ok fzero
      end
  end = Ok t ->
  nao_negativo t = true \/ t = S754_infinity false.
Proof.
  destruct ds as [ | c ds ]; [discriminate |].
  destruct (Z.of_N (digits_value (c :: ds))) as [ | n | n ];
    destruct (10 ^ k) as [ | d | d ]; intros [= <-]; try (left; reflexivity).
  destruct (fdiv_spec n 0 d 0) as (v & _ & _ & [[H _] | [H _]]); auto.
Qed.

Lemma float_of_str_Ok s t :
  float_of_str s = Ok t -> nao_negativo t = true \/ t = S754_infinity false.
Proof.
  unfold float_of_str. cbv zeta.
  destruct (drop_while is_digit s) as [ | c fp ]; [apply float_of_str_mk |].
  destruct ((c =? 46)%N && forallb is_digit fp); [apply float_of_str_mk | discriminate].
Qed.

(** ** Floor division and modulo by a positive integer *)

Section DivisorInteiro.
Variable n : Z.
Variable fn : spec_float.
Hypothesis Hn : 0 < n.
Hypothesis Hfn : nao_negativo fn = true.
Hypothesis Hfnv : SF2R fn = IZR n.

Lemma divisor_finito : exists m e, fn = S754_finite false m e.
Proof.
  destruct (nao_negativo_inv fn Hfn) as [E | (m & e & E & _)]; [ | eauto ].
  rewrite E in Hfnv. cbn [SF2R] in Hfnv. apply eq_IZR in Hfnv. lia.
Qed.

Lemma divisor_nao_nulo : SFeqb fn fzero = false.
Proof. destruct divisor_finito as (m & e & ->). reflexivity. Qed.

Lemma divisor_positivo : (0 < IZR n)%R.
Proof. apply IZR_lt. exact Hn. Qed.

Lemma float_mod_int t :
  nao_negativo t = true ->
  exists r q, float_mod t fn = Ok r /\ nao_negativo r = true /\ 0 <= q /\
              SF2R t = (IZR n * IZR q + SF2R r)%R /\ (0 <= SF2R r < IZR n)%R.
Proof.
  intros Ht. pose proof divisor_positivo as Hpos.
  destruct (c_fmod_spec t fn Ht Hfn ltac:(rewrite Hfnv; exact Hpos))
    as (q & Hq & Hnn & Hv & Hb).
  rewrite Hfnv in *. unfold float_mod. rewrite divisor_nao_nulo. cbn iota.
  rewrite (SFltb_zero_nao_negativo _ Hnn), (SFltb_zero_nao_negativo _ Hfn).
  cbn [Bool.eqb negb].
  destruct (nonzero_nao_negativo _ Hnn) as [[-> Ez] | [-> _]].
  - rewrite Ez in *. exists (S754_zero false), q. repeat split; try assumption; try lra.
    destruct divisor_finito as (m & e & ->). cbn [sign_bit]. reflexivity.
  - exists (c_fmod t fn), q. repeat split; try assumption; try lra.
Qed.

Lemma fdiv_int_spec d :
  nao_negativo d = true -> arredonda (SF2R d / IZR n) (fdiv d fn).
Proof.
  intros H. pose proof divisor_positivo as Hpos.
  destruct (nao_negativo_inv d H) as [-> | (m & e & -> & _)].
  - cbn [SF2R]. replace (0 / IZR n)%R with 0%R by (field; lra).
    destruct divisor_finito as (m & e & ->). apply arredonda_zero.
  - rewrite <- Hfnv. destruct divisor_finito as (m' & e' & ->).
    cbn [SF2R cond_Zopp]. apply fdiv_spec.
Qed.

(** [int(t // n)] is defined for every finite non-negative [t]; below
    [2^53] it is the exact integer quotient. *)
Lemma float_floordiv_int t :
  nao_negativo t = true ->
  exists fd k,
    float_floordiv t fn = Ok fd /\ int_of_float fd = Ok k /\ 0 <= k /\
    ((SF2R t < bpow 53)%R -> (IZR n * IZR k <= SF2R t < IZR n * IZR k + IZR n)%R).
Proof.
  intros Ht. pose proof divisor_positivo as Hpos.
  destruct (c_fmod_spec t fn Ht Hfn ltac:(rewrite Hfnv; exact Hpos))
    as (q & Hq & Hnn & Hv & Hb).
  rewrite Hfnv in *.
  assert (HqR : (0 <= IZR q)%R) by (apply IZR_le; lia).
  assert (HnqR : (0 <= IZR n * IZR q)%R) by (apply Rmult_le_pos; lra).
  unfold float_floordiv, float_div_mod.
  rewrite divisor_nao_nulo. cbn iota.
  set (mod0 := c_fmod t fn) in *.
  pose proof (fsub_spec t mod0 Ht Hnn ltac:(lra)) as HD.
  destruct (arredonda_le _ _ (SF2R t) HD (representavel_SF2R _ Ht) (SF2R_lt_max _ Ht) ltac:(lra))
    as [HDnn HDle].
  set (D := fsub t mod0) in *.
  pose proof (SF2R_nonneg _ HDnn) as HD0.
  pose proof (fdiv_int_spec D HDnn) as Hdiv.
  assert (Hquo : (SF2R D / IZR n <= SF2R D)%R).
  { apply Rmult_le_reg_r with (IZR n); [exact Hpos | ].
    unfold Rdiv. rewrite Rmult_assoc, Rinv_l by lra.
    assert (1 <= IZR n)%R by (apply IZR_le; lia). nra. }
  destruct (arredonda_le _ _ (SF2R D) Hdiv (representavel_SF2R _ HDnn) (SF2R_lt_max _ HDnn) Hquo)
    as [Hdnn Hdle].
  set (div0 := fdiv D fn) in *.
  assert (Hexato : (SF2R t < bpow 53)%R -> SF2R div0 = IZR q).
  { intros Hlt. rewrite (bpow_IZR 53) in Hlt by lia.
    assert (Hnq : 0 <= n * q <= 2 ^ 53).
    { split; [lia |]. apply le_IZR. rewrite mult_IZR. lra. }
    assert (HDv : SF2R D = IZR (n * q)).
    { apply (arredonda_exato _ D).
      - replace (IZR (n * q)) with (SF2R t - SF2R mod0)%R by (rewrite mult_IZR; lra). exact HD.
      - apply representavel_IZR, Hnq.
      - apply IZR_lt_max, Hnq. }
    assert (Hq53 : 0 <= q <= 2 ^ 53) by nia.
    apply (arredonda_exato _ div0).
    - replace (IZR q) with (SF2R D / IZR n)%R
        by (rewrite HDv, mult_IZR; field; lra).
      exact Hdiv.
    - apply representavel_IZR. exact Hq53.
    - apply IZR_lt_max. exact Hq53. }
  assert (Hadj :
    (if nonzero mod0
     then if negb (Bool.eqb (SFltb fn fzero) (SFltb mod0 fzero))
          then (fadd mod0 fn, fsub div0 fone) else (mod0, div0)
     else (S754_zero (sign_bit fn), div0))
    = (if nonzero mod0 then mod0 else S754_zero (sign_bit fn), div0)).
  { rewrite (SFltb_zero_nao_negativo _ Hnn), (SFltb_zero_nao_negativo _ Hfn).
    cbn [Bool.eqb negb]. destruct (nonzero mod0); reflexivity. }
  rewrite Hadj. cbn [fst].
  destruct (nonzero_nao_negativo _ Hdnn) as [[-> Ez] | [-> _]].
  - eexists _, 0. split; [reflexivity |]. split; [reflexivity |]. split; [lia |].
    intros Hlt. specialize (Hexato Hlt). rewrite Ez in Hexato. cbn [SF2R] in Hexato.
    assert (q = 0) by (apply eq_IZR; lra). subst q. lra.
  - destruct (int_of_float_spec div0 Hdnn) as (kf & Hkf & Hkf0 & Hkfb).
    destruct (c_floor_spec div0 kf Hdnn Hkf) as [Hflnn Hflv].
    set (fl := c_floor div0) in *.
    pose proof (fsub_spec div0 fl Hdnn Hflnn ltac:(lra)) as Hz.
    destruct (SFltb fhalf (fsub div0 fl)) eqn:Ehalf.
    + assert (Hne : SF2R div0 <> IZR kf).
      { intros Heq.
        replace (SF2R div0 - SF2R fl)%R with 0%R in Hz by lra.
        assert (H00 : 0 <= 0 <= 2 ^ 53) by lia.
        destruct (arredonda_exato _ _ Hz (representavel_IZR 0 H00) (bpow_gt_0 _)) as [Hznn Hzv].
        rewrite (SF2R_eq_0 _ Hznn Hzv) in Ehalf. discriminate. }
      pose proof (int_of_float_inexato div0 kf Hdnn Hkf Hne) as Hk1.
      pose proof (fadd_spec fl fone Hflnn eq_refl) as Hadd.
      rewrite Hflv, SF2R_fone in Hadd.
      replace (IZR kf + 1)%R with (IZR (kf + 1)) in Hadd by (rewrite plus_IZR; lra).
      assert (Hk1' : 0 <= kf + 1 <= 2 ^ 53) by lia.
      destruct (arredonda_exato _ _ Hadd (representavel_IZR _ Hk1') (IZR_lt_max _ Hk1'))
        as [Hann Hav].
      eexists _, (kf + 1). split; [reflexivity |].
      split; [apply int_of_float_IZR; assumption |]. split; [lia |].
      intros Hlt. exfalso. apply Hne. rewrite (Hexato Hlt) in *.
      f_equal. apply int_of_float_unique with (f := div0); rewrite ?Hexato by assumption; [ | lra ].
      lra.
    + eexists _, kf. split; [reflexivity |].
      split; [apply int_of_float_IZR; assumption |]. split; [lia |].
      intros Hlt. specialize (Hexato Hlt). rewrite Hexato in Hkfb.
      assert (kf = q).
      { assert (IZR kf < IZR (q + 1))%R by (rewrite plus_IZR; lra).
        assert (IZR q < IZR (kf + 1))%R by (rewrite plus_IZR; lra).
        apply lt_IZR in H, H0. lia. }
      subst kf. lra.
Qed.
End DivisorInteiro.

(** ** One value, one representation *)

Lemma F2R_inj m1 m2 e : F2R m1 e = F2R m2 e -> m1 = m2.
Proof.
  intros H. apply Z.le_antisymm; apply (F2R_le_inv _ _ e); rewrite H; apply Rle_refl.
Qed.

Lemma canonico_inj_le m1 e1 m2 e2 :
  0 < m1 -> 0 < m2 -> e1 <= e2 ->
  fexp prec emax (Zdigits2 m1 + e1) = e1 ->
  fexp prec emax (Zdigits2 m2 + e2) = e2 ->
  F2R m1 e1 = F2R m2 e2 -> m1 = m2 /\ e1 = e2.
Proof.
  intros H1 H2 Hle Hc1 Hc2 Hv.
  replace e2 with (e1 + (e2 - e1)) in Hv by lia.
  rewrite <- F2R_shift in Hv by lia. apply F2R_inj in Hv.
  assert (Hd : Zdigits2 m1 = Zdigits2 m2 + (e2 - e1))
    by (rewrite Hv; apply Zdigits2_shift; lia).
  assert (He : e1 = e2).
  { rewrite <- Hc1, <- Hc2. f_equal. lia. }
  split; [ | exact He ]. subst e2. rewrite Z.sub_diag in Hv. simpl in Hv. lia.
Qed.

Lemma SF2R_inj f g :
  nao_negativo f = true -> nao_negativo g = true -> SF2R f = SF2R g -> f = g.
Proof.
  intros Hf Hg Hv.
  destruct (nao_negativo_inv f Hf) as [-> | (m1 & e1 & -> & Hm1 & He1 & Hc1)].
  - symmetry. apply SF2R_eq_0; [exact Hg | ]. rewrite <- Hv. reflexivity.
  - destruct (nao_negativo_inv g Hg) as [-> | (m2 & e2 & -> & Hm2 & He2 & Hc2)].
    + pose proof (SF2R_pos_finite m1 e1) as Hp. rewrite Hv in Hp. cbn [SF2R] in Hp. lra.
    + cbn [SF2R cond_Zopp] in Hv.
      destruct (Z.le_gt_cases e1 e2) as [Hle | Hgt].
      * destruct (canonico_inj_le (Zpos m1) e1 (Zpos m2) e2
                    ltac:(lia) ltac:(lia) Hle Hc1 Hc2 Hv) as [E1 E2].
        injection E1 as ->. subst e2. reflexivity.
      * destruct (canonico_inj_le (Zpos m2) e2 (Zpos m1) e1
                    ltac:(lia) ltac:(lia) ltac:(lia) Hc2 Hc1 (eq_sym Hv)) as [E1 E2].
        injection E1 as ->. subst e2. reflexivity.
Qed.

(** [n / n] is [1.0]. *)
Lemma int_truediv_diag n : 0 < n -> int_truediv n n = Ok fone.
Proof.
  intros Hn. destruct n as [ | p | p ]; try lia. unfold int_truediv.
  pose proof (fdiv_spec p 0 p 0) as Hr.
  assert (Hx : (F2R (Zpos p) 0 / F2R (Zpos p) 0 = IZR 1)%R).
  { unfold F2R. rewrite bpow_0, Rmult_1_r.
    assert (0 < IZR (Zpos p))%R by (apply IZR_lt; lia). field. lra. }
  rewrite Hx in Hr.
  assert (H1 : 0 <= 1 <= 2 ^ 53) by lia.
  destruct (arredonda_exato _ _ Hr (representavel_IZR 1 H1) (IZR_lt_max 1 H1)) as [Hnn Hv].
  assert (E : fdiv (S754_finite false p 0) (S754_finite false p 0) = fone).
  { apply SF2R_inj; [exact Hnn | reflexivity | ]. rewrite Hv, SF2R_fone. reflexivity. }
  rewrite E. reflexivity.
Qed.

(* ===================================================================== *)
(** * Part V: names and the Frame Renamer *)
(* ===================================================================== *)

(** ** Decimal formatting *)

Lemma digits_value_app l1 l2 :
  digits_value (l1 ++ l2) = fold_left (fun acc c => (10 * acc + (c - 48))%N) l2 (digits_value l1).
Proof. unfold digits_value. apply fold_left_app. Qed.

Lemma digits_value_snoc l c : digits_value (l ++ [c]) = (10 * digits_value l + (c - 48))%N.
Proof. rewrite digits_value_app. reflexivity. Qed.

Lemma decimal_aux_spec fuel : forall n acc,
  (n < 10 ^ N.of_nat (S fuel))%N ->
  exists ds, decimal_aux fuel n acc = ds ++ acc /\ digits_value ds = n /\
             Forall (fun c => is_digit c = true) ds /\ ds <> [].
Proof.
  assert (Hd : forall n, is_digit (48 + n mod 10)%N = true).
  { intros n. pose proof (N.mod_upper_bound n 10 ltac:(lia)).
    set (x := (n mod 10)%N) in *. clearbody x.
    unfold is_digit. apply andb_true_intro. split; apply N.leb_le; lia. }
  assert (Hone : forall n acc, (n < 10)%N ->
            exists ds, (48 + n mod 10)%N :: acc = ds ++ acc /\ digits_value ds = n /\
                       Forall (fun c => is_digit c = true) ds /\ ds <> []).
  { intros n acc Hn. exists [(48 + n mod 10)%N]. repeat split; auto.
    - unfold digits_value. cbn [fold_left]. rewrite N.mod_small by assumption. lia. }
  induction fuel as [ | fuel IH ]; intros n acc Hn.
  - cbn [decimal_aux]. apply Hone. simpl in Hn. lia.
  - cbn [decimal_aux]. destruct (N.eqb_spec (n / 10) 0) as [Hz | Hnz].
    + apply Hone. apply N.div_small_iff in Hz; lia.
    + destruct (IH (n / 10)%N ((48 + n mod 10)%N :: acc)) as (ds & Hds & Hv & Hf & Hne).
      { apply N.Div0.div_lt_upper_bound.
        replace (N.of_nat (S (S fuel))) with (N.succ (N.of_nat (S fuel))) in Hn by lia.
        rewrite N.pow_succ_r' in Hn. lia. }
      exists (ds ++ [(48 + n mod 10)%N]). repeat split.
      * rewrite Hds, <- app_assoc. reflexivity.
      * rewrite digits_value_snoc, Hv.
        pose proof (N.div_mod n 10 ltac:(lia)) as Hdm.
        set (q := (n / 10)%N) in *. set (r := (n mod 10)%N) in *. clearbody q r. lia.
      * apply Forall_app. split; auto.
      * destruct ds; discriminate.
Qed.

Lemma decimal_spec n :
  digits_value (decimal n) = n /\ Forall (fun c => is_digit c = true) (decimal n) /\
  decimal n <> [].
Proof.
  unfold decimal.
  destruct (decimal_aux_spec (N.to_nat (N.log2 n)) n []) as (ds & Hds & Hv & Hf & Hne).
  - destruct (N.eq_dec n 0%N) as [-> | Hn0]; [simpl; lia |].
    pose proof (N.log2_spec n ltac:(lia)) as [_ Hlt].
    eapply N.lt_le_trans; [exact Hlt |].
    replace (N.of_nat (S (N.to_nat (N.log2 n)))) with (N.succ (N.log2 n)) by lia.
    apply N.pow_le_mono_l. lia.
  - rewrite Hds, app_nil_r. auto.
Qed.

Lemma digits_value_zeros k l : digits_value (repeat 48%N k ++ l) = digits_value l.
Proof.
  induction k as [ | k IH ]; [reflexivity |].
  cbn [repeat app]. unfold digits_value in *. cbn [fold_left]. exact IH.
Qed.

Lemma zfill_spec w n :
  digits_value (zfill w (decimal n)) = n /\
  Forall (fun c => is_digit c = true) (zfill w (decimal n)).
Proof.
  destruct (decimal_spec n) as (Hv & Hf & _). unfold zfill. split.
  - rewrite digits_value_zeros. exact Hv.
  - apply Forall_app. split; [ | exact Hf ].
    apply List.Forall_forall. intros c Hc. apply repeat_spec in Hc. subst c. reflexivity.
Qed.

(** On non-negative integers the zero-padded format is made of digits and
    can be read back. *)
Lemma fmt_0d_spec w z :
  0 <= z ->
  digits_value (fmt_0d w z) = Z.to_N z /\ Forall (fun c => is_digit c = true) (fmt_0d w z).
Proof.
  intros Hz. unfold fmt_0d. destruct (Z.ltb_spec z 0); [lia |]. apply zfill_spec.
Qed.

Lemma fmt_0d_inj w z1 z2 : 0 <= z1 -> 0 <= z2 -> fmt_0d w z1 = fmt_0d w z2 -> z1 = z2.
Proof.
  intros H1 H2 Heq.
  destruct (fmt_0d_spec w z1 H1) as [Hv1 _]. destruct (fmt_0d_spec w z2 H2) as [Hv2 _].
  rewrite Heq in Hv1. lia.
Qed.

(** ** Splitting at a separator *)

Lemma separa_digitos (a1 a2 r1 r2 : str) (c : N) :
  Forall (fun c => is_digit c = true) a1 -> Forall (fun c => is_digit c = true) a2 ->
  is_digit c = false ->
  a1 ++ c :: r1 = a2 ++ c :: r2 -> a1 = a2 /\ r1 = r2.
Proof.
  intros H1. revert a2. induction H1 as [ | x a1 Hx H1 IH ]; intros a2 H2 Hc Heq.
  - destruct H2 as [ | y a2 Hy H2 ]; cbn in Heq.
    + injection Heq as ->. auto.
    + injection Heq as -> _. congruence.
  - destruct H2 as [ | y a2 Hy H2 ]; cbn in Heq.
    + injection Heq as -> _. congruence.
    + injection Heq as -> Heq. destruct (IH a2 H2 Hc Heq) as [-> ->]. auto.
Qed.

(** ** Paths *)

Lemma strip_prefix_cons_ne a p b l : a <> b -> strip_prefix (a :: p) (b :: l) = None.
Proof. intros H. cbn. destruct (N.eqb_spec a b); congruence. Qed.

(** Joining a directory with a name that does not start with a slash
    prepends a prefix that depends on the directory only. *)
Lemma os_path_join_prefix a :
  exists pre, forall b, startswith [sep] b = false -> os_path_join a b = pre ++ b.
Proof.
  destruct (str_eqb a [] || endswith [sep] a) eqn:E.
  - exists a. intros b Hb. unfold os_path_join. rewrite Hb, E. reflexivity.
  - exists (a ++ [sep]). intros b Hb. unfold os_path_join. rewrite Hb, E.
    rewrite <- app_assoc. reflexivity.
Qed.

Lemma startswith_frame b : startswith [sep] (py "frame_" ++ b) = false.
Proof. reflexivity. Qed.

(** ** Hours, minutes and seconds *)

Lemma SF2R_f3600 : SF2R f3600 = 3600%R.
Proof.
  unfold f3600. cbn [SF2R cond_Zopp]. unfold F2R.
  change (-41) with (- (41)). rewrite bpow_neg by lia.
  change (2 ^ 41) with 2199023255552. lra.
Qed.

(** The three integer fields [formatar_timestamp] and
    [formatar_tempo_humano] compute. *)
Lemma decomposicao_hms t :
  nao_negativo t = true ->
  exists q horas r qm minutos rs segs,
    float_floordiv t f3600 = Ok q /\ int_of_float q = Ok horas /\
    float_mod t f3600 = Ok r /\ float_floordiv r f60 = Ok qm /\
    int_of_float qm = Ok minutos /\
    float_mod t f60 = Ok rs /\ int_of_float rs = Ok segs /\
    0 <= horas /\ 0 <= minutos <= 59 /\ 0 <= segs <= 59 /\
    ((SF2R t < bpow 53)%R ->
     (IZR (horas * 3600 + minutos * 60 + segs) <= SF2R t
      < IZR (horas * 3600 + minutos * 60 + segs) + 1)%R).
Proof.
  intros Ht.
  destruct (float_floordiv_int 3600 f3600 ltac:(lia) eq_refl SF2R_f3600 t Ht)
    as (q & horas & Hq & Hhoras & Hh0 & Hhex).
  destruct (float_mod_int 3600 f3600 ltac:(lia) eq_refl SF2R_f3600 t Ht)
    as (r & qh & Hr & Hrnn & Hqh & Hrv & Hrb).
  destruct (float_floordiv_int 60 f60 ltac:(lia) eq_refl SF2R_f60 r Hrnn)
    as (qm & minutos & Hqm & Hminutos & Hm0 & Hmex).
  destruct (float_mod_int 60 f60 ltac:(lia) eq_refl SF2R_f60 t Ht)
    as (rs & qs & Hrs & Hrsnn & Hqs & Hrsv & Hrsb).
  destruct (int_of_float_spec rs Hrsnn) as (segs & Hsegs & Hs0 & Hsb).
  assert (Hr53 : (SF2R r < bpow 53)%R).
  { rewrite (bpow_IZR 53) by lia. change (2 ^ 53) with 9007199254740992. lra. }
  specialize (Hmex Hr53).
  assert (Hm59 : minutos <= 59).
  { assert (Hlt : (IZR minutos < IZR 60)%R).
    { assert (0 <= IZR minutos)%R by (apply IZR_le; lia). lra. }
    apply lt_IZR in Hlt. lia. }
  assert (Hs59 : segs <= 59).
  { assert (Hlt : (IZR segs < IZR 60)%R) by lra. apply lt_IZR in Hlt. lia. }
  exists q, horas, r, qm, minutos, rs, segs.
  repeat (split; [first [assumption | lia] | ]).
  intros Hlt. specialize (Hhex Hlt).
  (* the quotient by 3600 *)
  assert (Hqh_eq : qh = horas).
  { assert (IZR qh < IZR (horas + 1))%R by (rewrite plus_IZR; lra).
    assert (IZR horas < IZR (qh + 1))%R by (rewrite plus_IZR; lra).
    apply lt_IZR in H, H0. lia. }
  subst qh.
  (* the remainder by 60, computed twice *)
  assert (Hqs_eq : qs = horas * 60 + minutos).
  { assert (IZR qs < IZR (horas * 60 + minutos + 1))%R
      by (rewrite !plus_IZR, mult_IZR; lra).
    assert (IZR (horas * 60 + minutos) < IZR (qs + 1))%R
      by (rewrite !plus_IZR, mult_IZR; lra).
    apply lt_IZR in H, H0. lia. }
  subst qs. rewrite plus_IZR, mult_IZR in Hrsv.
  rewrite !plus_IZR, !mult_IZR. lra.
Qed.

(** *** The width of the fields *)

Lemma fmt_0d_2_length z : 0 <= z <= 99 -> length (fmt_0d 2 z) = 2%nat.
Proof.
  intros Hz.
  assert (H : forallb (fun k => Nat.eqb (length (fmt_0d 2 (Z.of_nat k))) 2) (seq 0 100) = true)
    by (vm_compute; reflexivity).
  rewrite forallb_forall in H. specialize (H (Z.to_nat z)).
  rewrite Z2Nat.id in H by lia. apply Nat.eqb_eq, H, in_seq. lia.
Qed.

Lemma fmt_0d_3_length z : 0 <= z <= 999 -> length (fmt_0d 3 z) = 3%nat.
Proof.
  intros Hz.
  assert (H : forallb (fun k => Nat.eqb (length (fmt_0d 3 (Z.of_nat k))) 3) (seq 0 1000) = true)
    by (vm_compute; reflexivity).
  rewrite forallb_forall in H. specialize (H (Z.to_nat z)).
  rewrite Z2Nat.id in H by lia. apply Nat.eqb_eq, H, in_seq. lia.
Qed.

(** ** Frame names *)

Lemma nome_original_eq pasta :
  exists pre, forall i,
    nome_original pasta i = pre ++ py "frame_" ++ fmt_0d 6 (Z.of_nat i + 1) ++ py ".png".
Proof.
  destruct (os_path_join_prefix pasta) as (pre & Hpre). exists pre. intros i.
  unfold nome_original. apply Hpre. reflexivity.
Qed.

Lemma nome_novo_eq pasta nome_base :
  exists pre, forall minutos segundos milissegundos,
    nome_novo pasta nome_base (minutos, segundos, milissegundos)
    = pre ++ py "frame_" ++ nome_base ++ py "_" ++ fmt_0d 2 minutos ++ py "-"
        ++ fmt_0d 2 segundos ++ py "-" ++ fmt_0d 3 milissegundos ++ py ".png".
Proof.
  destruct (os_path_join_prefix pasta) as (pre & Hpre). exists pre. intros a b c.
  unfold nome_novo. apply Hpre. reflexivity.
Qed.

Lemma nome_original_inj pasta i j : nome_original pasta i = nome_original pasta j -> i = j.
Proof.
  destruct (os_path_join_prefix pasta) as (pre & Hpre). unfold nome_original.
  rewrite !Hpre by reflexivity. intros H.
  apply app_inv_head, app_inv_head, app_inv_tail in H.
  apply fmt_0d_inj in H; lia.
Qed.

(** A numbered name is never a timestamp name: only the latter has an
    underscore after the common prefix. *)
Lemma nome_original_novo pasta nome_base i t :
  nome_original pasta i <> nome_novo pasta nome_base t.
Proof.
  destruct t as [[a b] c].
  destruct (os_path_join_prefix pasta) as (pre & Hpre). unfold nome_original, nome_novo.
  rewrite !Hpre by reflexivity. intros H.
  apply app_inv_head, app_inv_head in H.
  assert (Hin : In 95%N (fmt_0d 6 (Z.of_nat i + 1) ++ py ".png")).
  { rewrite H. apply in_or_app. right. apply in_or_app. left. left. reflexivity. }
  apply in_app_or in Hin as [Hin | Hin].
  - destruct (fmt_0d_spec 6 (Z.of_nat i + 1) ltac:(lia)) as [_ Hd].
    rewrite List.Forall_forall in Hd. specialize (Hd _ Hin). discriminate.
  - cbn in Hin. intuition discriminate.
Qed.

Lemma nome_novo_inj pasta nome_base t1 t2 :
  campos_nao_negativos t1 -> campos_nao_negativos t2 ->
  nome_novo pasta nome_base t1 = nome_novo pasta nome_base t2 -> t1 = t2.
Proof.
  destruct t1 as [[a1 b1] c1], t2 as [[a2 b2] c2]. cbn [campos_nao_negativos].
  intros (Ha1 & Hb1 & Hc1) (Ha2 & Hb2 & Hc2).
  destruct (os_path_join_prefix pasta) as (pre & Hpre). unfold nome_novo.
  rewrite !Hpre by reflexivity. intros H.
  apply app_inv_head, app_inv_head, app_inv_head, app_inv_head in H.
  change (py "-") with [45%N] in H. cbn [app] in H.
  apply separa_digitos in H as [Ha H];
    [ | apply fmt_0d_spec; lia | apply fmt_0d_spec; lia | reflexivity ].
  apply separa_digitos in H as [Hb H];
    [ | apply fmt_0d_spec; lia | apply fmt_0d_spec; lia | reflexivity ].
  apply app_inv_tail in H.
  apply fmt_0d_inj in Ha, Hb, H; try lia. congruence.
Qed.

(** ** The renaming loop *)

Lemma renomear_laco_passos pasta nome_base tempos : forall i w,
  renomear_laco pasta nome_base i tempos w
  = (Ok tt, passos_renomear pasta nome_base i tempos w).
Proof.
  induction tempos as [ | t resto IH ]; intros i w; [reflexivity |].
  cbn [renomear_laco passos_renomear]. unfold bind at 1.
  unfold os_path_exists, bind at 1, get_arquivos, ret.
  unfold passo_renomear.
  destruct (arquivos w !! nome_original pasta i) as [c | ] eqn:E.
  - rewrite bool_decide_eq_true_2 by eauto.
    unfold bind at 1. unfold os_rename, bind at 1, get_arquivos. rewrite E.
    unfold set_arquivos. apply IH.
  - rewrite bool_decide_eq_false_2 by (intros [? ?]; discriminate).
    unfold bind at 1. unfold logging. apply IH.
Qed.

Lemma renomear_frames_passos tempos pasta nome_base w :
  renomear_frames tempos pasta nome_base w
  = (Ok tt, passos_renomear pasta nome_base 0 tempos w).
Proof.
  unfold renomear_frames, try_except. rewrite renomear_laco_passos. reflexivity.
Qed.

Lemma passo_renomear_lookup pasta nome_base i t w p :
  p <> nome_original pasta i ->
  (is_Some (arquivos w !! nome_original pasta i) -> p <> nome_novo pasta nome_base t) ->
  arquivos (passo_renomear pasta nome_base i t w) !! p = arquivos w !! p.
Proof.
  intros Hsrc Hdst. unfold passo_renomear.
  destruct (arquivos w !! nome_original pasta i) as [c | ] eqn:E; cbn [arquivos]; [ | reflexivity ].
  rewrite lookup_insert_ne by (intros Heq; apply Hdst; eauto).
  apply lookup_delete_ne. congruence.
Qed.

Lemma passo_renomear_filas pasta nome_base i t w :
  let w' := passo_renomear pasta nome_base i t w in
  fila_frames w' = fila_frames w /\ fila_transcricao w' = fila_transcricao w /\
  fila_arquivo w' = fila_arquivo w.
Proof.
  unfold passo_renomear. destruct (arquivos w !! nome_original pasta i); auto.
Qed.

Lemma passos_renomear_filas pasta nome_base tempos : forall i w,
  let w' := passos_renomear pasta nome_base i tempos w in
  fila_frames w' = fila_frames w /\ fila_transcricao w' = fila_transcricao w /\
  fila_arquivo w' = fila_arquivo w.
Proof.
  induction tempos as [ | t resto IH ]; intros i w; cbn [passos_renomear]; [auto |].
  destruct (IH (S i) (passo_renomear pasta nome_base i t w)) as (H1 & H2 & H3).
  destruct (passo_renomear_filas pasta nome_base i t w) as (H4 & H5 & H6).
  cbn zeta in *. repeat split; congruence.
Qed.

(** Paths that are neither a numbered name of the range nor the target of
    a frame that is present keep their content. *)
Lemma passos_renomear_lookup pasta nome_base tempos : forall i w p,
  (forall j t, tempos !! j = Some t -> p <> nome_original pasta (i + j)) ->
  (forall j t, tempos !! j = Some t ->
               is_Some (arquivos w !! nome_original pasta (i + j)) ->
               p <> nome_novo pasta nome_base t) ->
  arquivos (passos_renomear pasta nome_base i tempos w) !! p = arquivos w !! p.
Proof.
  induction tempos as [ | t resto IH ]; intros i w p Hsrc Hdst; [reflexivity |].
  cbn [passos_renomear].
  assert (H0 : arquivos (passo_renomear pasta nome_base i t w) !! p = arquivos w !! p).
  { apply passo_renomear_lookup.
    - specialize (Hsrc 0%nat t eq_refl). rewrite Nat.add_0_r in Hsrc. exact Hsrc.
    - intros Hs. apply (Hdst 0%nat t eq_refl). rewrite Nat.add_0_r. exact Hs. }
  rewrite IH; [exact H0 | | ].
  - intros j t' Hj. replace (S i + j)%nat with (i + S j)%nat by lia. apply (Hsrc (S j) t' Hj).
  - intros j t' Hj Hs. apply (Hdst (S j) t' Hj).
    replace (i + S j)%nat with (S i + j)%nat by lia.
    rewrite passo_renomear_lookup in Hs; [exact Hs | | ].
    + intros Heq. apply nome_original_inj in Heq. lia.
    + intros _. apply nome_original_novo.
Qed.

(** After the loop no numbered name of the range is left. *)
Lemma passos_renomear_originais pasta nome_base tempos : forall i w j t,
  tempos !! j = Some t ->
  arquivos (passos_renomear pasta nome_base i tempos w) !! nome_original pasta (i + j) = None.
Proof.
  induction tempos as [ | t0 resto IH ]; intros i w j t Hj; [discriminate |].
  cbn [passos_renomear]. destruct j as [ | j ].
  - rewrite passos_renomear_lookup.
    + rewrite Nat.add_0_r. unfold passo_renomear.
      destruct (arquivos w !! nome_original pasta i) as [c | ] eqn:E; cbn [arquivos]; [ | exact E ].
      rewrite lookup_insert_ne by (apply not_eq_sym, nome_original_novo).
      apply lookup_delete_eq.
    + intros j' t' _ Heq. apply nome_original_inj in Heq. lia.
    + intros j' t' _ _. apply nome_original_novo.
  - replace (i + S j)%nat with (S i + j)%nat by lia. eapply IH. exact Hj.
Qed.

(** A target that exists at some point still exists at the end. *)
Lemma passos_renomear_is_Some pasta nome_base tempos : forall i w t,
  is_Some (arquivos w !! nome_novo pasta nome_base t) ->
  is_Some (arquivos (passos_renomear pasta nome_base i tempos w) !! nome_novo pasta nome_base t).
Proof.
  induction tempos as [ | t0 resto IH ]; intros i w t Hs; [exact Hs |].
  cbn [passos_renomear]. apply IH. unfold passo_renomear.
  destruct (arquivos w !! nome_original pasta i) as [c | ] eqn:E; cbn [arquivos]; [ | exact Hs ].
  destruct (decide (nome_novo pasta nome_base t0 = nome_novo pasta nome_base t)) as [-> | Hne].
  - rewrite lookup_insert_eq. eauto.
  - rewrite lookup_insert_ne by exact Hne.
    rewrite lookup_delete_ne by (apply nome_original_novo). exact Hs.
Qed.

Lemma passos_renomear_presente pasta nome_base tempos : forall i w j t,
  tempos !! j = Some t ->
  is_Some (arquivos w !! nome_original pasta (i + j)) ->
  is_Some (arquivos (passos_renomear pasta nome_base i tempos w) !! nome_novo pasta nome_base t).
Proof.
  induction tempos as [ | t0 resto IH ]; intros i w j t Hj Hs; [discriminate |].
  cbn [passos_renomear]. destruct j as [ | j ].
  - injection Hj as ->. rewrite Nat.add_0_r in Hs. apply passos_renomear_is_Some.
    unfold passo_renomear. destruct Hs as [c Hc]. rewrite Hc. cbn [arquivos].
    rewrite lookup_insert_eq. eauto.
  - apply (IH (S i) _ j t Hj).
    replace (S i + j)%nat with (i + S j)%nat by lia.
    rewrite passo_renomear_lookup; [exact Hs | | ].
    + intros Heq. apply nome_original_inj in Heq. lia.
    + intros _. apply nome_original_novo.
Qed.

(** A frame that is present ends at its target with its content, unless a
    later frame that is present has the same target. *)
Lemma passos_renomear_conteudo pasta nome_base tempos : forall i w j t c,
  tempos !! j = Some t ->
  arquivos w !! nome_original pasta (i + j) = Some c ->
  (forall j' t', (j < j')%nat -> tempos !! j' = Some t' ->
                 is_Some (arquivos w !! nome_original pasta (i + j')) ->
                 nome_novo pasta nome_base t' <> nome_novo pasta nome_base t) ->
  arquivos (passos_renomear pasta nome_base i tempos w) !! nome_novo pasta nome_base t = Some c.
Proof.
  induction tempos as [ | t0 resto IH ]; intros i w j t c Hj Hc Hlater; [discriminate |].
  cbn [passos_renomear].
  assert (Hkeep : forall k, (0 < k)%nat ->
            arquivos (passo_renomear pasta nome_base i t0 w) !! nome_original pasta (i + k)
            = arquivos w !! nome_original pasta (i + k)).
  { intros k Hk. apply passo_renomear_lookup.
    - intros Heq. apply nome_original_inj in Heq. lia.
    - intros _. apply nome_original_novo. }
  destruct j as [ | j ].
  - injection Hj as ->. rewrite Nat.add_0_r in Hc.
    rewrite passos_renomear_lookup.
    + unfold passo_renomear. rewrite Hc. cbn [arquivos]. apply lookup_insert_eq.
    + intros j' t' _. apply not_eq_sym, nome_original_novo.
    + intros j' t' Hj' Hs. apply not_eq_sym. apply (Hlater (S j') t'); [lia | exact Hj' |].
      replace (S i + j')%nat with (i + S j')%nat in Hs by lia.
      rewrite Hkeep in Hs by lia. exact Hs.
  - apply (IH (S i) _ j t c Hj).
    + replace (S i + j)%nat with (i + S j)%nat by lia. rewrite Hkeep by lia. exact Hc.
    + intros j' t' Hlt Hj' Hs. apply (Hlater (S j') t'); [lia | exact Hj' |].
      replace (S i + j')%nat with (i + S j')%nat in Hs by lia.
      rewrite Hkeep in Hs by lia. exact Hs.
Qed.

(** The log only grows, and records a warning for each absent frame. *)
Lemma passos_renomear_registro_cresce pasta nome_base tempos : forall i w r,
  In r (registro w) -> In r (registro (passos_renomear pasta nome_base i tempos w)).
Proof.
  induction tempos as [ | t0 resto IH ]; intros i w r Hr; [exact Hr |].
  cbn [passos_renomear]. apply IH. unfold passo_renomear.
  destruct (arquivos w !! nome_original pasta i); cbn [registro]; [exact Hr |].
  apply in_or_app. left. exact Hr.
Qed.

Lemma passos_renomear_aviso pasta nome_base tempos : forall i w j t,
  tempos !! j = Some t ->
  arquivos w !! nome_original pasta (i + j) = None ->
  In (WARNING, aviso_nao_encontrado (nome_original pasta (i + j)))
     (registro (passos_renomear pasta nome_base i tempos w)).
Proof.
  induction tempos as [ | t0 resto IH ]; intros i w j t Hj Hn; [discriminate |].
  cbn [passos_renomear]. destruct j as [ | j ].
  - rewrite Nat.add_0_r in *. apply passos_renomear_registro_cresce.
    unfold passo_renomear. rewrite Hn. cbn [registro].
    apply in_or_app. right. left. reflexivity.
  - replace (i + S j)%nat with (S i + j)%nat by lia. apply (IH (S i) _ j t Hj).
    replace (S i + j)%nat with (i + S j)%nat by lia.
    rewrite passo_renomear_lookup; [exact Hn | | ].
    + intros Heq. apply nome_original_inj in Heq. lia.
    + intros _. apply nome_original_novo.
Qed.

(** When no numbered name of the range exists, the loop changes no file. *)
Lemma passos_renomear_ausentes pasta nome_base tempos : forall i w,
  (forall j t, tempos !! j = Some t -> arquivos w !! nome_original pasta (i + j) = None) ->
  arquivos (passos_renomear pasta nome_base i tempos w) = arquivos w.
Proof.
  induction tempos as [ | t0 resto IH ]; intros i w Habs; [reflexivity |].
  cbn [passos_renomear].
  assert (Hstep : arquivos (passo_renomear pasta nome_base i t0 w) = arquivos w).
  { unfold passo_renomear. specialize (Habs 0%nat t0 eq_refl).
    rewrite Nat.add_0_r in Habs. rewrite Habs. reflexivity. }
  rewrite IH; [exact Hstep |].
  intros j t Hj. rewrite Hstep. replace (S i + j)%nat with (i + S j)%nat by lia.
  apply (Habs (S j) t Hj).
Qed.

(* ===================================================================== *)
(** * Part VI: reasoning about effects *)
(* ===================================================================== *)

(** ** Rules of the program logic *)

Lemma hoare_ret {A} (P : mundo -> Prop) (a : A) :
  hoare P (ret a) (fun a' w => a' = a /\ P w).
Proof. intros w Hw. exists a, w. auto. Qed.

Lemma hoare_bind {A B} (P : mundo -> Prop) (c : M A) (Q : A -> mundo -> Prop)
    (k : A -> M B) (R : B -> mundo -> Prop) :
  hoare P c Q -> (forall a, hoare (Q a) (k a) R) -> hoare P (bind c k) R.
Proof.
  intros Hc Hk w Hw. destruct (Hc w Hw) as (a & w1 & E1 & Hq).
  destruct (Hk a w1 Hq) as (b & w2 & E2 & Hr).
  exists b, w2. unfold bind. rewrite E1. auto.
Qed.

Lemma hoare_conseq {A} (P P' : mundo -> Prop) (c : M A) (Q Q' : A -> mundo -> Prop) :
  hoare P' c Q' -> (forall w, P w -> P' w) -> (forall a w, Q' a w -> Q a w) -> hoare P c Q.
Proof.
  intros Hc HP HQ w Hw. destruct (Hc w (HP w Hw)) as (a & w' & E & Hq). eauto.
Qed.

Lemma hoare_try_except {A} (P : mundo -> Prop) (c : M A) (h : exn -> M A) Q :
  hoare P c Q -> hoare P (try_except c h) Q.
Proof.
  intros Hc w Hw. destruct (Hc w Hw) as (a & w' & E & Hq).
  exists a, w'. unfold try_except. rewrite E. auto.
Qed.

Lemma hoare_lift {A} (P : mundo -> Prop) (r : result A) (a : A) :
  r = Ok a -> hoare P (lift r) (fun a' w => a' = a /\ P w).
Proof. intros -> w Hw. exists a, w. auto. Qed.

Lemma hoare_logging fs n s :
  hoare (arquivos_sao fs) (logging n s) (fun _ => arquivos_sao fs).
Proof. intros w Hw. eexists tt, _. split; [reflexivity | exact Hw]. Qed.

Lemma hoare_put fs q m :
  hoare (arquivos_sao fs) (put q m) (fun _ => arquivos_sao fs).
Proof. intros w Hw. eexists tt, _. split; [reflexivity |]. destruct q; exact Hw. Qed.

Lemma hoare_write fs p d :
  hoare (arquivos_sao fs) (write p d) (fun _ => arquivos_sao (acrescenta p d fs)).
Proof.
  intros w Hw. eexists tt, _. split; [reflexivity |].
  unfold arquivos_sao in *. cbn. rewrite Hw. reflexivity.
Qed.

Lemma hoare_open_w fs p :
  hoare (arquivos_sao fs) (open_w p) (fun _ => arquivos_sao (<[p := []]> fs)).
Proof.
  intros w Hw. eexists tt, _. split; [reflexivity |].
  unfold arquivos_sao in *. cbn. rewrite Hw. reflexivity.
Qed.

Lemma hoare_formatar_timestamp fs x :
  hoare (arquivos_sao fs) (formatar_timestamp x) (fun s w => s = ts x /\ arquivos_sao fs w).
Proof.
  intros w Hw. unfold formatar_timestamp, try_except, lift, ts.
  destruct (formatar_timestamp_corpo x) as [s | e].
  - exists s, w. auto.
  - eexists _, _. split; [reflexivity |]. split; [reflexivity | exact Hw].
Qed.

(** ** Progress fractions *)

Lemma int_truediv_ok a b : 0 < a <= b -> exists f, int_truediv a b = Ok f.
Proof.
  intros [Ha Hab]. destruct a as [ | p | p ]; try lia. destruct b as [ | q | q ]; try lia.
  unfold int_truediv.
  pose proof (fdiv_spec p 0 q 0) as Hr.
  assert (Hx : (F2R (Zpos p) 0 / F2R (Zpos q) 0 <= IZR 1)%R).
  { unfold F2R. rewrite bpow_0, !Rmult_1_r.
    assert (0 < IZR (Zpos q))%R by (apply IZR_lt; lia).
    assert (IZR (Zpos p) <= IZR (Zpos q))%R by (apply IZR_le; lia).
    apply Rmult_le_reg_r with (IZR (Zpos q)); [assumption |].
    field_simplify; [ | lra ]. lra. }
  assert (H1 : 0 <= 1 <= 2 ^ 53) by lia.
  destruct (arredonda_le _ _ _ Hr (representavel_IZR 1 H1) (IZR_lt_max 1 H1) Hx) as [Hnn _].
  destruct (fdiv (S754_finite false p 0) (S754_finite false q 0)) as [ s | s | | s m e ];
    try discriminate; eauto.
Qed.

(** ** Appending to files *)

Lemma acrescenta_acrescenta (p a b : str) (fs : gmap str str) :
  acrescenta p b (acrescenta p a fs) = acrescenta p (a ++ b) fs.
Proof.
  unfold acrescenta. apply map_eq. intros q.
  destruct (decide (p = q)) as [-> | Hne].
  - rewrite !lookup_alter_eq. destruct (fs !! q); cbn; [rewrite <- app_assoc |]; reflexivity.
  - rewrite !lookup_alter_ne by exact Hne. reflexivity.
Qed.

Lemma acrescenta_comm (p q a b : str) (fs : gmap str str) :
  p <> q -> acrescenta p a (acrescenta q b fs) = acrescenta q b (acrescenta p a fs).
Proof.
  intros Hpq. unfold acrescenta. apply map_eq. intros r.
  destruct (decide (p = r)) as [-> | Hp]; destruct (decide (q = r)) as [-> | Hq];
    try congruence.
  - rewrite lookup_alter_eq, !(lookup_alter_ne _ _ q r) by exact Hq.
    rewrite lookup_alter_eq. reflexivity.
  - rewrite (lookup_alter_ne _ _ p r) by exact Hp. rewrite !lookup_alter_eq.
    rewrite (lookup_alter_ne _ _ p r) by exact Hp. reflexivity.
  - rewrite !lookup_alter_ne by assumption. reflexivity.
Qed.

Lemma acrescenta_nil (p : str) (fs : gmap str str) : acrescenta p [] fs = fs.
Proof.
  unfold acrescenta. apply map_eq. intros q.
  destruct (decide (p = q)) as [-> | Hne].
  - rewrite lookup_alter_eq. destruct (fs !! q); cbn; [rewrite app_nil_r |]; reflexivity.
  - rewrite lookup_alter_ne by exact Hne. reflexivity.
Qed.

Lemma lookup_acrescenta_eq (p a : str) (fs : gmap str str) :
  acrescenta p a fs !! p = (fun c => c ++ a) <$> fs !! p.
Proof. unfold acrescenta. apply lookup_alter_eq. Qed.

Lemma lookup_acrescenta_ne (p q a : str) (fs : gmap str str) :
  p <> q -> acrescenta p a fs !! q = fs !! q.
Proof. intros H. unfold acrescenta. apply lookup_alter_ne, H. Qed.

(** ** Stepping through a computation *)

Lemma hoare_pre_eq {A B} (x v : B) (P : mundo -> Prop) (c : M A) Q :
  (x = v -> hoare P c Q) -> hoare (fun w => x = v /\ P w) c Q.
Proof. intros H w [E Hw]. apply (H E w Hw). Qed.

Lemma hoare_post_true {A} (P : mundo -> Prop) (c : M A) (Q : A -> mundo -> Prop) (R : mundo -> Prop) :
  hoare P c Q -> (forall a w, Q a w -> R w) -> hoare P c (fun _ => R).
Proof. intros H HQ. eapply hoare_conseq; [exact H | auto | exact HQ]. Qed.

Ltac passo :=
  lazymatch goal with
  | |- hoare (fun w => _ = _ /\ _) _ _ => apply hoare_pre_eq; intros ?; subst
  | |- hoare _ (bind (formatar_timestamp _) _) _ =>
      eapply hoare_bind; [apply hoare_formatar_timestamp | intros ?; cbv beta]
  | |- hoare _ (bind (write _ _) _) _ =>
      eapply hoare_bind; [apply hoare_write | intros ?; cbv beta]
  | |- hoare _ (bind (open_w _) _) _ =>
      eapply hoare_bind; [apply hoare_open_w | intros ?; cbv beta]
  | |- hoare _ (bind (logging _ _) _) _ =>
      eapply hoare_bind; [apply hoare_logging | intros ?; cbv beta]
  | |- hoare _ (bind (put _ _) _) _ =>
      eapply hoare_bind; [apply hoare_put | intros ?; cbv beta]
  end.

(** ** The segment loop *)

Lemma progresso_segmento fs fila_progresso total_segments segment_id :
  (fila_progresso <> None -> 0 < segment_id <= total_segments) ->
  hoare (arquivos_sao fs)
    (match fila_progresso with
     | Some q =>
         progress <- lift (int_truediv segment_id total_segments) ;;
         put q (MsgFloat progress)
     | None => ret tt
     end)
    (fun _ => arquivos_sao fs).
Proof.
  intros Hid. destruct fila_progresso as [q | ].
  - destruct (int_truediv_ok segment_id total_segments (Hid ltac:(discriminate))) as (f & Hf).
    eapply hoare_bind; [apply (hoare_lift _ _ f Hf) |].
    intros a. apply hoare_pre_eq. intros ?; subst. apply hoare_put.
  - eapply hoare_post_true; [apply hoare_ret |]. intros a w [_ Hw]. exact Hw.
Qed.

Lemma transcrever_segmento_outro tr base lang fila_progresso total_segments segment_id s fs :
  str_eqb lang (py "en") = false ->
  (fila_progresso <> None -> 0 < segment_id <= total_segments) ->
  hoare (arquivos_sao fs)
    (transcrever_segmento tr base lang fila_progresso total_segments segment_id s)
    (fun _ => arquivos_sao
       (acrescenta (base ++ py "-Fala.Cronometrada.txt")
          (ts (seg_start s) ++ py ": " ++ texto_original s ++ nl)
          (acrescenta (base ++ py ".srt")
             (str_of_int segment_id ++ nl
                ++ ts (seg_start s) ++ py " --> " ++ ts (seg_end s) ++ nl
                ++ texto_original s ++ nl ++ nl)
             fs))).
Proof.
  intros Hlang Hid. unfold transcrever_segmento. rewrite Hlang. cbv iota.
  eapply hoare_bind; [ | intros ?; apply progresso_segmento; exact Hid ].
  repeat passo.
  eapply hoare_conseq; [apply hoare_logging | intros w Hw; exact Hw |].
  intros ? w Hw. unfold arquivos_sao, texto_original in *. rewrite Hw.
  rewrite !acrescenta_acrescenta. rewrite <- !app_assoc. reflexivity.
Qed.

Lemma transcrever_laco_outro tr base lang fila_progresso total_segments :
  str_eqb lang (py "en") = false ->
  forall segs segment_id fs,
    0 < segment_id ->
    (fila_progresso <> None -> segment_id + Z.of_nat (length segs) - 1 <= total_segments) ->
    hoare (arquivos_sao fs)
      (transcrever_laco tr base lang fila_progresso total_segments segment_id segs)
      (fun _ => arquivos_sao
         (acrescenta (base ++ py "-Fala.Cronometrada.txt") (fala_de texto_original segs)
            (acrescenta (base ++ py ".srt") (srt_de texto_original segment_id segs) fs))).
Proof.
  intros Hlang. induction segs as [ | s resto IH ]; intros id fs Hid Htot.
  - cbn [transcrever_laco srt_de fala_de]. rewrite !acrescenta_nil.
    eapply hoare_post_true; [apply hoare_ret |]. intros a w [_ Hw]. exact Hw.
  - cbn [transcrever_laco srt_de fala_de]. cbn [length] in Htot.
    eapply hoare_bind;
      [apply (transcrever_segmento_outro tr base lang fila_progresso total_segments id s fs Hlang);
       intros Hf; specialize (Htot Hf); lia |].
    intros ?. eapply hoare_conseq; [apply IH | intros w Hw; exact Hw | ].
    + lia.
    + intros Hf. specialize (Htot Hf). lia.
    + intros ? w Hw. unfold arquivos_sao in *. rewrite Hw.
      rewrite (acrescenta_comm (base ++ py ".srt") (base ++ py "-Fala.Cronometrada.txt")).
      2:{ intros H. apply app_inv_head in H. discriminate. }
      rewrite !acrescenta_acrescenta. rewrite <- !app_assoc. reflexivity.
Qed.

Lemma nomes_distintos (base a b : str) : a <> b -> base ++ a <> base ++ b.
Proof. intros H E. apply app_inv_head in E. contradiction. Qed.

Lemma transcrever_segmento_en tr base fila_progresso total_segments segment_id s fs
    (pt : str -> str) :
  (forall t, traduzir tr t = Ok (pt t)) ->
  (fila_progresso <> None -> 0 < segment_id <= total_segments) ->
  hoare (arquivos_sao fs)
    (transcrever_segmento tr base (py "en") fila_progresso total_segments segment_id s)
    (fun _ => arquivos_sao
       (acrescenta (base ++ py "-Fala.Cronometrada.txt")
          (ts (seg_start s) ++ py ": " ++ pt (texto_original s) ++ nl)
          (acrescenta (base ++ py ".srt")
             (str_of_int segment_id ++ nl
                ++ ts (seg_start s) ++ py " --> " ++ ts (seg_end s) ++ nl
                ++ pt (texto_original s) ++ nl ++ nl)
             (acrescenta (base ++ py "-en-Fala.Cronometrada.txt")
                (ts (seg_start s) ++ py ": " ++ texto_original s ++ nl)
                (acrescenta (base ++ py "-en.srt")
                   (str_of_int segment_id ++ nl
                      ++ ts (seg_start s) ++ py " --> " ++ ts (seg_end s) ++ nl
                      ++ texto_original s ++ nl ++ nl)
                   fs))))).
Proof.
  intros Hpt Hid. unfold transcrever_segmento.
  change (str_eqb (py "en") (py "en")) with true. cbv iota.
  eapply hoare_bind; [ | intros ?; apply progresso_segmento; exact Hid ].
  repeat passo.
  eapply hoare_bind; [apply (hoare_lift _ _ _ (Hpt _)) | intros ?; cbv beta].
  repeat passo.
  eapply hoare_conseq; [apply hoare_logging | intros w Hw; exact Hw |].
  intros ? w Hw. unfold arquivos_sao, texto_original in *. rewrite Hw.
  rewrite !acrescenta_acrescenta. rewrite <- !app_assoc. reflexivity.
Qed.

Lemma transcrever_laco_en tr base fila_progresso total_segments (pt : str -> str) :
  (forall t, traduzir tr t = Ok (pt t)) ->
  forall segs segment_id fs,
    0 < segment_id ->
    (fila_progresso <> None -> segment_id + Z.of_nat (length segs) - 1 <= total_segments) ->
    hoare (arquivos_sao fs)
      (transcrever_laco tr base (py "en") fila_progresso total_segments segment_id segs)
      (fun _ => arquivos_sao
         (acrescenta (base ++ py "-Fala.Cronometrada.txt")
            (fala_de (fun s => pt (texto_original s)) segs)
            (acrescenta (base ++ py ".srt")
               (srt_de (fun s => pt (texto_original s)) segment_id segs)
               (acrescenta (base ++ py "-en-Fala.Cronometrada.txt")
                  (fala_de texto_original segs)
                  (acrescenta (base ++ py "-en.srt")
                     (srt_de texto_original segment_id segs) fs))))).
Proof.
  intros Hpt. induction segs as [ | s resto IH ]; intros id fs Hid Htot.
  - cbn [transcrever_laco srt_de fala_de]. rewrite !acrescenta_nil.
    eapply hoare_post_true; [apply hoare_ret |]. intros a w [_ Hw]. exact Hw.
  - cbn [transcrever_laco srt_de fala_de]. cbn [length] in Htot.
    eapply hoare_bind;
      [apply (transcrever_segmento_en tr base fila_progresso total_segments id s fs pt Hpt);
       intros Hf; specialize (Htot Hf); lia |].
    intros ?. eapply hoare_conseq; [apply IH | intros w Hw; exact Hw | ].
    + lia.
    + intros Hf. specialize (Htot Hf). lia.
    + intros ? w Hw. unfold arquivos_sao in *. rewrite Hw.
      rewrite (acrescenta_comm (base ++ py "-en.srt") (base ++ py "-Fala.Cronometrada.txt"))
        by (apply nomes_distintos; discriminate).
      rewrite (acrescenta_comm (base ++ py "-en.srt") (base ++ py ".srt"))
        by (apply nomes_distintos; discriminate).
      rewrite (acrescenta_comm (base ++ py "-en.srt") (base ++ py "-en-Fala.Cronometrada.txt"))
        by (apply nomes_distintos; discriminate).
      rewrite (acrescenta_comm (base ++ py "-en-Fala.Cronometrada.txt")
                 (base ++ py "-Fala.Cronometrada.txt"))
        by (apply nomes_distintos; discriminate).
      rewrite (acrescenta_comm (base ++ py "-en-Fala.Cronometrada.txt") (base ++ py ".srt"))
        by (apply nomes_distintos; discriminate).
      rewrite (acrescenta_comm (base ++ py ".srt") (base ++ py "-Fala.Cronometrada.txt"))
        by (apply nomes_distintos; discriminate).
      rewrite !acrescenta_acrescenta. rewrite <- !app_assoc. reflexivity.
Qed.

(** ** The whole transcription *)

Lemma transcrever_outro wh tr caminho nome_modelo idioma fila_progresso segs lang fs :
  carregar_whisper wh nome_modelo = Ok tt ->
  transcribe wh caminho idioma = Ok (Gerador segs None, lang) ->
  str_eqb lang (py "en") = false ->
  hoare (arquivos_sao fs)
    (transcrever_audio_faster_whisper wh tr caminho nome_modelo idioma fila_progresso)
    (fun _ => arquivos_sao
       (acrescenta (rsplit1_head 46%N caminho ++ py "-Fala.Cronometrada.txt")
          (fala_de texto_original segs)
          (acrescenta (rsplit1_head 46%N caminho ++ py ".srt")
             (srt_de texto_original 1 segs)
             (<[rsplit1_head 46%N caminho ++ py "-Fala.Cronometrada.txt" := []]>
                (<[rsplit1_head 46%N caminho ++ py ".srt" := []]> fs))))).
Proof.
  intros Hload Htr Hlang. unfold transcrever_audio_faster_whisper.
  apply hoare_try_except. passo.
  eapply hoare_bind; [apply (hoare_lift _ _ _ Hload) | intros ?; cbv beta].
  passo. passo. cbv zeta.
  eapply hoare_bind; [apply (hoare_lift _ _ _ Htr) | intros ?; cbv beta].
  passo. cbn [snd fst]. passo.
  eapply hoare_bind with (Q := fun _ => arquivos_sao _).
  { rewrite Hlang. cbv iota. passo. apply hoare_open_w. }
  intros ?.
  eapply hoare_bind; [apply (hoare_lift _ _ _ Htr) | intros ?; cbv beta].
  passo. cbn [fst].
  eapply hoare_bind; [apply (hoare_lift _ _ (Z.of_nat (length segs))); reflexivity
                     | intros ?; cbv beta].
  passo.
  eapply hoare_bind; [apply (hoare_lift _ _ _ Htr) | intros ?; cbv beta].
  passo. cbn [fst itens falha].
  eapply hoare_bind; [apply (transcrever_laco_outro tr _ lang fila_progresso _ Hlang); lia |].
  intros ?. apply hoare_logging.
Qed.

Lemma transcrever_en wh tr caminho nome_modelo idioma fila_progresso segs fs
    (pt : str -> str) :
  carregar_whisper wh nome_modelo = Ok tt ->
  transcribe wh caminho idioma = Ok (Gerador segs None, py "en") ->
  carregar_tokenizer tr = Ok tt -> carregar_traducao tr = Ok tt ->
  (forall t, traduzir tr t = Ok (pt t)) ->
  hoare (arquivos_sao fs)
    (transcrever_audio_faster_whisper wh tr caminho nome_modelo idioma fila_progresso)
    (fun _ => arquivos_sao
       (acrescenta (rsplit1_head 46%N caminho ++ py "-Fala.Cronometrada.txt")
          (fala_de (fun s => pt (texto_original s)) segs)
          (acrescenta (rsplit1_head 46%N caminho ++ py ".srt")
             (srt_de (fun s => pt (texto_original s)) 1 segs)
             (acrescenta (rsplit1_head 46%N caminho ++ py "-en-Fala.Cronometrada.txt")
                (fala_de texto_original segs)
                (acrescenta (rsplit1_head 46%N caminho ++ py "-en.srt")
                   (srt_de texto_original 1 segs)
                   (<[rsplit1_head 46%N caminho ++ py "-Fala.Cronometrada.txt" := []]>
                      (<[rsplit1_head 46%N caminho ++ py ".srt" := []]>
                         (<[rsplit1_head 46%N caminho ++ py "-en-Fala.Cronometrada.txt" := []]>
                            (<[rsplit1_head 46%N caminho ++ py "-en.srt" := []]> fs))))))))).
Proof.
  intros Hload Htr Htok Hmod Hpt. unfold transcrever_audio_faster_whisper.
  apply hoare_try_except. passo.
  eapply hoare_bind; [apply (hoare_lift _ _ _ Hload) | intros ?; cbv beta].
  passo. passo. cbv zeta.
  eapply hoare_bind; [apply (hoare_lift _ _ _ Htr) | intros ?; cbv beta].
  passo. cbn [snd fst]. passo.
  eapply hoare_bind with (Q := fun _ => arquivos_sao _).
  { change (str_eqb (py "en") (py "en")) with true. cbv iota. repeat passo.
    eapply hoare_bind; [apply (hoare_lift _ _ _ Htok) | intros ?; cbv beta].
    passo.
    eapply hoare_conseq;
      [apply (hoare_lift _ _ _ Hmod) | intros w Hw; exact Hw | intros ? w [_ Hw]; exact Hw]. }
  intros ?.
  eapply hoare_bind; [apply (hoare_lift _ _ _ Htr) | intros ?; cbv beta].
  passo. cbn [fst].
  eapply hoare_bind; [apply (hoare_lift _ _ (Z.of_nat (length segs))); reflexivity
                     | intros ?; cbv beta].
  passo.
  eapply hoare_bind; [apply (hoare_lift _ _ _ Htr) | intros ?; cbv beta].
  passo. cbn [fst itens falha].
  eapply hoare_bind; [apply (transcrever_laco_en tr _ fila_progresso _ pt Hpt); lia |].
  intros ?. apply hoare_logging.
Qed.

(** ** Computations that leave a component of the world alone *)

Section Inalterado.
Context {X : Type} (proj : mundo -> X).

Lemma inalterado_ret {A} (a : A) : inalterado proj (ret a).
Proof. intros w. reflexivity. Qed.

Lemma inalterado_raise {A} (e : exn) : inalterado proj (@raise_ A e).
Proof. intros w. reflexivity. Qed.

Lemma inalterado_lift {A} (r : result A) : inalterado proj (lift r).
Proof. intros w. reflexivity. Qed.

Lemma inalterado_bind {A B} (c : M A) (k : A -> M B) :
  inalterado proj c -> (forall a, inalterado proj (k a)) -> inalterado proj (bind c k).
Proof.
  intros Hc Hk w. unfold bind. specialize (Hc w).
  destruct (c w) as [[a | e] w1]; cbn [snd] in *; [ | exact Hc ].
  rewrite Hk. exact Hc.
Qed.

Lemma inalterado_try_except {A} (c : M A) (h : exn -> M A) :
  inalterado proj c -> (forall e, inalterado proj (h e)) -> inalterado proj (try_except c h).
Proof.
  intros Hc Hh w. unfold try_except. specialize (Hc w).
  destruct (c w) as [[a | e] w1]; cbn [snd] in *; [exact Hc |].
  rewrite Hh. exact Hc.
Qed.

Lemma inalterado_em_processo (c : M unit) :
  inalterado proj c -> inalterado proj (em_processo c).
Proof. intros Hc w. apply Hc. Qed.

Lemma inalterado_get_arquivos : inalterado proj get_arquivos.
Proof. intros w. reflexivity. Qed.
End Inalterado.

(** The log and the file system are not queues. *)
Lemma fila_de_logging q n s : inalterado (fila_de q) (logging n s).
Proof. intros w. destruct q; reflexivity. Qed.

Lemma fila_de_set_arquivos q fs : inalterado (fila_de q) (set_arquivos fs).
Proof. intros w. destruct q; reflexivity. Qed.

Lemma fila_de_put_ne q' q m : q' <> q -> inalterado (fila_de q') (put q m).
Proof. intros H w. destruct q, q'; try reflexivity; contradiction. Qed.

Lemma fila_de_put_eq q m w : fila_de q (snd (put q m w)) = fila_de q w ++ [m].
Proof. destruct q; reflexivity. Qed.

Lemma arquivos_logging n s : inalterado arquivos (logging n s).
Proof. intros w. reflexivity. Qed.

Lemma arquivos_put q m : inalterado arquivos (put q m).
Proof. intros w. destruct q; reflexivity. Qed.

Create HintDb inalt.
#[export] Hint Resolve inalterado_ret inalterado_raise inalterado_lift
  inalterado_get_arquivos fila_de_logging fila_de_set_arquivos fila_de_put_ne
  arquivos_logging arquivos_put : inalt.

(** Decomposes a goal [inalterado proj c] along the structure of [c]. *)
Ltac inalt_passo :=
  lazymatch goal with
  | |- inalterado _ (bind _ _) => apply inalterado_bind; [ | intros ? ]
  | |- inalterado _ (try_except _ _) => apply inalterado_try_except; [ | intros ? ]
  | |- inalterado _ (em_processo _) => apply inalterado_em_processo
  | |- inalterado _ (match ?x with _ => _ end) => destruct x
  | |- inalterado _ (if ?x then _ else _) => destruct x
  | |- _ => solve [ auto with inalt ]
  end.

Ltac inalt := repeat inalt_passo.

Section Primitivas.
Context {X : Type} (proj : mundo -> X).
Hypothesis Hlog : forall n s, inalterado proj (logging n s).
Hypothesis Hset : forall fs, inalterado proj (set_arquivos fs).

Lemma inalterado_os_path_exists p : inalterado proj (os_path_exists p).
Proof. unfold os_path_exists. inalt. Qed.

Lemma inalterado_os_rename a b : inalterado proj (os_rename a b).
Proof. unfold os_rename. inalt. Qed.

Lemma inalterado_open_w p : inalterado proj (open_w p).
Proof. unfold open_w. inalt. Qed.

Lemma inalterado_write p d : inalterado proj (write p d).
Proof. unfold write. inalt. Qed.

Lemma inalterado_os_path_getsize p : inalterado proj (os_path_getsize p).
Proof. unfold os_path_getsize. inalt. Qed.

Lemma inalterado_formatar_timestamp x : inalterado proj (formatar_timestamp x).
Proof. unfold formatar_timestamp. inalt. Qed.

Lemma inalterado_gravar_quadros pasta qs : forall i,
  inalterado proj (gravar_quadros pasta i qs).
Proof. induction qs as [ | q qs IH ]; intros i; cbn [gravar_quadros]; inalt. Qed.

Lemma inalterado_extrair_frames ffmpeg caminho pasta :
  inalterado proj (extrair_frames ffmpeg caminho pasta).
Proof.
  unfold extrair_frames. inalt; try apply inalterado_gravar_quadros.
Qed.

Lemma inalterado_analisar_dados_log dados_log :
  inalterado proj (analisar_dados_log dados_log).
Proof. unfold analisar_dados_log. inalt. Qed.

Lemma inalterado_renomear_laco pasta nome_base tempos : forall i,
  inalterado proj (renomear_laco pasta nome_base i tempos).
Proof.
  induction tempos as [ | t tempos IH ]; intros i; cbn [renomear_laco]; inalt;
    first [ apply inalterado_os_path_exists | apply inalterado_os_rename ].
Qed.

Lemma inalterado_renomear_frames tempos pasta nome_base :
  inalterado proj (renomear_frames tempos pasta nome_base).
Proof. unfold renomear_frames. inalt; apply inalterado_renomear_laco. Qed.
End Primitivas.

(** *** The workers and the queues *)

Lemma fila_de_progresso_frames q' q total tempos : q' <> q -> forall i,
  inalterado (fila_de q') (progresso_frames q total i tempos).
Proof.
  intros Hq. induction tempos as [ | t tempos IH ]; intros i;
    cbn [progresso_frames]; inalt.
Qed.

Lemma fila_de_processar_frames q' ffmpeg caminho pasta q : q' <> q ->
  inalterado (fila_de q') (processar_frames ffmpeg caminho pasta q).
Proof.
  intros Hq. unfold processar_frames. inalt;
    first [ apply inalterado_extrair_frames
          | apply inalterado_analisar_dados_log
          | apply inalterado_renomear_frames
          | apply fila_de_progresso_frames ]; auto with inalt.
Qed.

Lemma fila_de_transcrever_segmento q' tr base lang q total id s : q' <> q ->
  inalterado (fila_de q') (transcrever_segmento tr base lang (Some q) total id s).
Proof.
  intros Hq. unfold transcrever_segmento. inalt;
    first [ apply inalterado_write | apply inalterado_formatar_timestamp ];
    auto with inalt.
Qed.

Lemma fila_de_transcrever_laco q' tr base lang q total segs : q' <> q -> forall id,
  inalterado (fila_de q') (transcrever_laco tr base lang (Some q) total id segs).
Proof.
  intros Hq. induction segs as [ | s segs IH ]; intros id;
    cbn [transcrever_laco]; inalt.
  apply fila_de_transcrever_segmento; assumption.
Qed.

Lemma fila_de_transcrever q' wh tr caminho modelo_ idioma q : q' <> q ->
  inalterado (fila_de q')
    (transcrever_audio_faster_whisper wh tr caminho modelo_ idioma (Some q)).
Proof.
  intros Hq. unfold transcrever_audio_faster_whisper. inalt;
    first [ apply inalterado_open_w | apply fila_de_transcrever_laco ];
    auto with inalt.
Qed.

Lemma fila_de_processar_transcricao q' wh tr caminho modelo_ q : q' <> q ->
  inalterado (fila_de q') (processar_transcricao wh tr caminho modelo_ q).
Proof.
  intros Hq. unfold processar_transcricao. inalt.
  apply fila_de_transcrever; assumption.
Qed.

(* ===================================================================== *)
(** * Part VII: the properties of the specification *)
(* ===================================================================== *)

(** ** Frame Renamer: the claims *)


(** C6. Renaming is idempotent: a second run of [renomear_frames] with the
    same timestamp list on the world the first run left returns normally
    and leaves every file as it was. *)
Theorem renomear_frames_idempotente
    (tempos : list (Z * Z * Z)) (pasta nome_base : str) (w : mundo) :
  fst (renomear_frames tempos pasta nome_base
         (snd (renomear_frames tempos pasta nome_base w))) = Ok tt /\
  arquivos (snd (renomear_frames tempos pasta nome_base
                   (snd (renomear_frames tempos pasta nome_base w))))
  = arquivos (snd (renomear_frames tempos pasta nome_base w)).
Proof.
  rewrite !renomear_frames_passos. cbn [fst snd]. split; [reflexivity |].
  apply passos_renomear_ausentes. intros j t Hj.
  apply (passos_renomear_originais pasta nome_base tempos 0 w j t Hj).
Qed.




(** The run of that example: the second frame replaces the first. *)
Example renomear_frames_tempos_iguais_execucao :
  renomear_frames [(0, 0, 0); (0, 0, 0)] (py "out") (py "v")
    (Mundo (<[py "out/frame_000001.png" := py "A"]>
              (<[py "out/frame_000002.png" := py "B"]> ∅)) [] [] [] [])
  = (Ok tt, Mundo (<[py "out/frame_v_00-00-000.png" := py "B"]> ∅) [] [] [] []).
Proof. vm_compute. reflexivity. Qed.

(** ** Transcription Worker: the claims *)

Lemma str_eqb_false (a b : str) : a <> b -> str_eqb a b = false.
Proof. intros H. unfold str_eqb. apply bool_decide_eq_false_2, H. Qed.

Lemma hoare_run {A} (P : mundo -> Prop) (c : M A) (Q : A -> mundo -> Prop) w :
  hoare P c Q -> P w -> exists a, fst (c w) = Ok a /\ Q a (snd (c w)).
Proof.
  intros H Hw. destruct (H w Hw) as (a & w' & E & Hq). exists a. rewrite E. auto.
Qed.




(** The run of that example: the two unsuffixed files, with the Spanish
    text. *)
Example transcricao_espanhol_execucao :
  arquivos (snd (transcrever_audio_faster_whisper
                   (Whisper (fun _ => Ok tt)
                      (fun _ _ => Ok (Gerador [Segmento (float_literal "0.0")
                                                 (float_literal "1.5") (py " hola ")] None,
                                      py "es")))
                   (Tradutor (Ok tt) (Ok tt) (fun t => Ok (py "PT:" ++ t)))
                   (py "aula.mp4") (py "large-v3") None (Some FilaTranscricao) mundo_vazio))
  = <[py "aula.srt" := py "1" ++ nl ++ py "00:00:00,000 --> 00:00:01,500" ++ nl
                         ++ py "hola" ++ nl ++ nl]>
      (<[py "aula-Fala.Cronometrada.txt" := py "00:00:00,000: hola" ++ nl]> ∅).
Proof. vm_compute. reflexivity. Qed.

(** C3. For the segments [(0.0, 2.5, "hello")] and [(2.5, 5.0, "world")]
    and the detected language equal to the target language ["pt"], the
    worker returns normally and the subtitle file consists of exactly the
    two blocks numbered 1 and 2 with the timestamp lines
    [00:00:00,000 --> 00:00:02,500] and [00:00:02,500 --> 00:00:05,000],
    each block being the id, the timestamp line, the text and an empty
    line. *)
Theorem transcricao_dois_blocos
    (wh : whisper) (tr : tradutor) (caminho nome_modelo : str) (idioma : option str)
    (fila_progresso : option fila) (w : mundo) :
  carregar_whisper wh nome_modelo = Ok tt ->
  transcribe wh caminho idioma
    = Ok (Gerador [Segmento (float_literal "0.0") (float_literal "2.5") (py "hello");
                   Segmento (float_literal "2.5") (float_literal "5.0") (py "world")] None,
          py "pt") ->
  let r := transcrever_audio_faster_whisper wh tr caminho nome_modelo idioma fila_progresso w in
  fst r = Ok tt /\
  arquivos (snd r) !! (rsplit1_head 46%N caminho ++ py ".srt")
  = Some (py "1" ++ nl ++ py "00:00:00,000 --> 00:00:02,500" ++ nl ++ py "hello" ++ nl ++ nl
            ++ py "2" ++ nl ++ py "00:00:02,500 --> 00:00:05,000" ++ nl ++ py "world" ++ nl ++ nl).
Proof.
  intros Hload Htr r.
  destruct (hoare_run _ _ _ w
              (transcrever_outro wh tr caminho nome_modelo idioma fila_progresso _ (py "pt")
                 (arquivos w) Hload Htr eq_refl) eq_refl) as ([] & Hr & Hfs).
  fold r in Hr, Hfs. unfold arquivos_sao in Hfs. rewrite Hfs. split; [exact Hr |].
  rewrite lookup_acrescenta_ne by (apply nomes_distintos; discriminate).
  rewrite lookup_acrescenta_eq.
  rewrite lookup_insert_ne by (apply nomes_distintos; discriminate).
  rewrite lookup_insert_eq. reflexivity.
Qed.

Lemma transcricao_dois_blocos_witness :
  let segs := [Segmento (float_literal "0.0") (float_literal "2.5") (py "hello");
               Segmento (float_literal "2.5") (float_literal "5.0") (py "world")] in
  let wh := Whisper (fun _ => Ok tt) (fun _ _ => Ok (Gerador segs None, py "pt")) in
  let tr := Tradutor (Ok tt) (Ok tt) (fun t => Ok t) in
  let r := transcrever_audio_faster_whisper wh tr (py "aula.mp4") (py "large-v3") None
             (Some FilaTranscricao) mundo_vazio in
  carregar_whisper wh (py "large-v3") = Ok tt /\
  transcribe wh (py "aula.mp4") None = Ok (Gerador segs None, py "pt") /\
  fst r = Ok tt /\
  arquivos (snd r) !! (py "aula.srt")
  = Some (py "1" ++ nl ++ py "00:00:00,000 --> 00:00:02,500" ++ nl ++ py "hello" ++ nl ++ nl
            ++ py "2" ++ nl ++ py "00:00:02,500 --> 00:00:05,000" ++ nl ++ py "world" ++ nl ++ nl).
Proof.
  intros segs wh tr r. split; [reflexivity |]. split; [reflexivity |].
  exact (transcricao_dois_blocos wh tr (py "aula.mp4") (py "large-v3") None
           (Some FilaTranscricao) mundo_vazio eq_refl eq_refl).
Defined.

(** ** Failures stay inside the worker *)

Lemma gravar_quadros_fst pasta qs : forall i w,
  fst (gravar_quadros pasta i qs w) = Ok tt.
Proof.
  induction qs as [ | q qs IH ]; intros i w; cbn [gravar_quadros]; [reflexivity | ].
  unfold bind, get_arquivos, set_arquivos. apply IH.
Qed.

(** A handler that logs and puts a message ends the worker normally. *)
Lemma try_except_log_put (c : M unit) n (s : exn -> str) q (m : exn -> msg) w :
  fst (try_except c (fun e => logging n (s e) ;; put q (m e)) w) = Ok tt.
Proof.
  unfold try_except. destruct (c w) as [[[] | e] w1]; reflexivity.
Qed.

Lemma processar_frames_retorna ffmpeg caminho pasta q w :
  fst (processar_frames ffmpeg caminho pasta q w) = Ok tt.
Proof. unfold processar_frames. apply try_except_log_put. Qed.

Lemma processar_transcricao_retorna wh tr caminho modelo_ q w :
  fst (processar_transcricao wh tr caminho modelo_ q w) = Ok tt.
Proof. unfold processar_transcricao. apply try_except_log_put. Qed.

Lemma extrair_frames_falha ffmpeg caminho pasta w ex :
  ffmpeg caminho = Ok ex -> decodificador_falhou ex = true ->
  exists w1, extrair_frames ffmpeg caminho pasta w
             = (Raise (erro_do_decodificador caminho pasta ex), w1)
             /\ forall q, fila_de q w1 = fila_de q w.
Proof.
  intros Hff Hfalha.
  pose proof (gravar_quadros_fst pasta (quadros ex) 0 w) as Hg.
  assert (Hq : forall q, fila_de q (snd (gravar_quadros pasta 0 (quadros ex) w)) = fila_de q w).
  { intros q. apply inalterado_gravar_quadros. apply fila_de_set_arquivos. }
  unfold extrair_frames, try_except, bind, lift. rewrite Hff.
  destruct (gravar_quadros pasta 0 (quadros ex) w) as [[[] | e] w1];
    cbn [fst snd] in *; [ | discriminate ].
  unfold decodificador_falhou, erro_do_decodificador in *.
  destruct (fim ex) as [rc | ].
  - rewrite Hfalha. unfold raise_, logging. eexists. split; [reflexivity | ].
    intros q. rewrite <- Hq. destruct q; reflexivity.
  - unfold raise_, logging. eexists. split; [reflexivity | ].
    intros q. rewrite <- Hq. destruct q; reflexivity.
Qed.

Lemma processar_frames_falha ffmpeg caminho pasta q w ex :
  ffmpeg caminho = Ok ex -> decodificador_falhou ex = true ->
  fila_de q (snd (processar_frames ffmpeg caminho pasta q w))
  = fila_de q w ++ [MsgStr (py "Erro ao processar frames: "
                              ++ exn_str (erro_do_decodificador caminho pasta ex))].
Proof.
  intros Hff Hfalha.
  destruct (extrair_frames_falha ffmpeg caminho pasta w ex Hff Hfalha) as (w1 & He & Hq).
  unfold processar_frames, try_except. unfold bind at 1. cbv zeta. rewrite He.
  unfold bind, logging. rewrite fila_de_put_eq. f_equal.
  rewrite <- Hq. destruct q; reflexivity.
Qed.

Lemma processar_transcricao_falha wh tr caminho modelo_ q w e :
  carregar_whisper wh modelo_ = Raise e \/
  (carregar_whisper wh modelo_ = Ok tt /\ transcribe wh caminho None = Raise e) ->
  fila_de q (snd (processar_transcricao wh tr caminho modelo_ q w))
  = fila_de q w ++ [MsgStr (py "Erro na transcri" ++ [231; 227]%N ++ py "o: " ++ exn_str e)]
  /\ arquivos (snd (processar_transcricao wh tr caminho modelo_ q w)) = arquivos w.
Proof.
  intros H.
  unfold processar_transcricao, transcrever_audio_faster_whisper, try_except, bind, lift, logging.
  destruct H as [H | [H1 H2]].
  - rewrite H. unfold raise_. rewrite fila_de_put_eq.
    split; [ destruct q; reflexivity | rewrite arquivos_put; reflexivity ].
  - rewrite H1, H2. unfold raise_. rewrite fila_de_put_eq.
    split; [ destruct q; reflexivity | rewrite arquivos_put; reflexivity ].
Qed.

(** *** The coordinator *)

Lemma tentar_anunciar q m (resto : M unit) (s : exn -> str) w :
  inalterado (fila_de q) resto ->
  fst (try_except (put q m ;; resto) (fun e => logging ERROR (s e)) w) = Ok tt /\
  fila_de q (snd (try_except (put q m ;; resto) (fun e => logging ERROR (s e)) w))
  = fila_de q w ++ [m].
Proof.
  intros Hr. unfold try_except, bind.
  pose proof (fila_de_put_eq q m w) as Hp.
  destruct (put q m w) as [[[] | e] w1] eqn:Hput; [ | destruct q; discriminate ].
  cbn [snd] in Hp. pose proof (Hr w1) as Hr1.
  destruct (resto w1) as [[[] | e] w2]; cbn [fst snd] in *.
  - split; [reflexivity | congruence].
  - split; [reflexivity | ]. rewrite fila_de_logging. congruence.
Qed.

Lemma processar_arquivo_anuncia ffmpeg wh tr args ft ff fa caminho w :
  ft <> fa -> ff <> fa ->
  fst (processar_arquivo ffmpeg wh tr args ft ff fa caminho w) = Ok tt /\
  fila_de fa (snd (processar_arquivo ffmpeg wh tr args ft ff fa caminho w))
  = fila_de fa w ++ [MsgStr caminho].
Proof.
  intros Ht Hf. unfold processar_arquivo. apply tentar_anunciar.
  cbv zeta. inalt;
    first [ apply inalterado_os_path_exists
          | apply inalterado_os_path_getsize
          | apply fila_de_processar_transcricao; congruence
          | apply fila_de_processar_frames; congruence ].
Qed.

Lemma process_files_laco_anuncia ffmpeg wh tr args ft ff fa :
  ft <> fa -> ff <> fa -> forall arqs w,
  fst (process_files_laco ffmpeg wh tr args ft ff fa arqs w) = Ok tt /\
  fila_de fa (snd (process_files_laco ffmpeg wh tr args ft ff fa arqs w))
  = fila_de fa w ++ map MsgStr arqs.
Proof.
  intros Ht Hf. induction arqs as [ | a arqs IH ]; intros w; cbn [process_files_laco map].
  - rewrite app_nil_r. split; reflexivity.
  - destruct (processar_arquivo_anuncia ffmpeg wh tr args ft ff fa a w Ht Hf) as [H1 H2].
    unfold bind.
    destruct (processar_arquivo ffmpeg wh tr args ft ff fa a w) as [[[] | e] w1];
      cbn [fst snd] in *; [ | discriminate ].
    destruct (IH w1) as [I1 I2]. split; [exact I1 | ].
    rewrite I2, H2, <- app_assoc. reflexivity.
Qed.

Lemma process_files_anuncia cuda encontrar ffmpeg wh tr args ft ff fa w :
  ft <> fa -> ff <> fa ->
  fst (process_files cuda encontrar ffmpeg wh tr args ft ff fa w) = Ok tt /\
  fila_de fa (snd (process_files cuda encontrar ffmpeg wh tr args ft ff fa w))
  = fila_de fa w ++ map MsgStr (encontrar (mascara_arquivos args) (recursivo args)).
Proof.
  intros Ht Hf. unfold process_files. cbv zeta. unfold bind.
  pose proof (fila_de_logging fa DEBUG
                (py "Usando dispositivo: " ++ (if cuda then py "cuda" else py "cpu")) w) as Hq.
  destruct (logging DEBUG _ w) as [[[] | e] w1] eqn:Hl; [ | discriminate Hl ].
  cbn [snd] in Hq.
  destruct (process_files_laco_anuncia ffmpeg wh tr args ft ff fa Ht Hf
              (encontrar (mascara_arquivos args) (recursivo args)) w1) as [H1 H2].
  split; [exact H1 | ]. rewrite H2, Hq. reflexivity.
Qed.

Lemma process_files_laco_continua ffmpeg wh tr args ft ff fa a resto w :
  process_files_laco ffmpeg wh tr args ft ff fa (a :: resto) w
  = process_files_laco ffmpeg wh tr args ft ff fa resto
      (snd (processar_arquivo ffmpeg wh tr args ft ff fa a w)).
Proof.
  cbn [process_files_laco]. unfold bind.
  assert (H : fst (processar_arquivo ffmpeg wh tr args ft ff fa a w) = Ok tt).
  { unfold processar_arquivo, try_except.
    destruct (bind _ _ w) as [[[] | e] w1]; reflexivity. }
  destruct (processar_arquivo ffmpeg wh tr args ft ff fa a w) as [[[] | e] w1];
    cbn [fst snd] in *; [reflexivity | discriminate].
Qed.



(** ** The tuples of a decoder log *)

Lemma captura_finita_inv cap :
  captura_finita cap = true ->
  exists t, float_of_str cap = Ok t /\ nao_negativo t = true.
Proof.
  unfold captura_finita. destruct (float_of_str cap) as [t | e] eqn:Hf; [ | discriminate ].
  intros H. exists t. split; [reflexivity | ].
  destruct (float_of_str_Ok cap t Hf) as [Hn | ->]; [exact Hn | discriminate].
Qed.

Lemma tempo_do_timestamp_infinito :
  tempo_do_timestamp (S754_infinity false)
  = Raise (ValueError (py "cannot convert float NaN to integer")).
Proof. vm_compute. reflexivity. Qed.

Lemma tempo_do_timestamp_faixas t minutos segundos milissegundos :
  nao_negativo t = true \/ t = S754_infinity false ->
  tempo_do_timestamp t = Ok (minutos, segundos, milissegundos) ->
  0 <= minutos /\ 0 <= segundos <= 59 /\ 0 <= milissegundos <= 999.
Proof.
  intros [Ht | ->] H; [ | rewrite tempo_do_timestamp_infinito in H; discriminate ].
  destruct (tempo_do_timestamp_spec t Ht) as (m & s & ms & it & Heq & Hm & Hs & Hms & _).
  rewrite Heq in H. injection H as <- <- <-. auto.
Qed.

Lemma analisar_laco_app dados_log : forall acc,
  forallb captura_finita (capturas dados_log) = true ->
  exists tempos,
    analisar_laco dados_log acc = Ok (acc ++ tempos) /\
    Forall2 (fun cap tupla => exists t, float_of_str cap = Ok t /\
                                        tempo_do_timestamp t = Ok tupla)
            (capturas dados_log) tempos.
Proof.
  induction dados_log as [ | linha resto IH ]; intros acc H; cbn [analisar_laco capturas] in *.
  - exists []. rewrite app_nil_r. split; [reflexivity | constructor].
  - destruct (re_search_pts_time linha) as [cap | ].
    + cbn [forallb] in H. apply andb_prop in H. destruct H as [Hcap Hresto].
      destruct (captura_finita_inv cap Hcap) as (t & Hf & Hn).
      destruct (tempo_do_timestamp_spec t Hn) as (m & s & ms & it & Heq & _).
      destruct (IH (acc ++ [(m, s, ms)]) Hresto) as (tempos & Hl & HF).
      exists ((m, s, ms) :: tempos). rewrite Hf. cbn [bindr]. rewrite Heq. cbn [bindr].
      rewrite Hl, <- app_assoc. split; [reflexivity | ].
      constructor; [ | exact HF ]. exists t. split; assumption.
    + apply IH. exact H.
Qed.

Lemma analisar_dados_log_Ok dados_log tempos w :
  analisar_laco dados_log [] = Ok tempos ->
  analisar_dados_log dados_log w = (Ok tempos, w).
Proof. intros H. unfold analisar_dados_log, try_except, lift. rewrite H. reflexivity. Qed.

Lemma recomposicao t minutos segundos milissegundos it :
  (IZR it <= SF2R t < IZR it + 1)%R ->
  (Rabs (1000 * (SF2R t - IZR it) - IZR milissegundos) < 1)%R ->
  minutos * 60 + segundos = it ->
  (Rabs (SF2R t - (IZR (minutos * 60 + segundos) + IZR milissegundos / 1000)) < 1 / 1000)%R.
Proof.
  intros Hit Hms ->. apply Rabs_def2 in Hms. apply Rabs_def1; lra.
Qed.

(** C10. Whatever the capture, the tuple of its value has its seconds
    between 0 and 59 and its milliseconds between 0 and 999 (and its
    minutes are not negative); and there is such a tuple whenever the
    value of the capture is not infinity. *)
Theorem campos_dentro_das_faixas cap t :
  float_of_str cap = Ok t ->
  (t <> S754_infinity false ->
   exists minutos segundos milissegundos,
     tempo_do_timestamp t = Ok (minutos, segundos, milissegundos)) /\
  (forall minutos segundos milissegundos,
     tempo_do_timestamp t = Ok (minutos, segundos, milissegundos) ->
     0 <= minutos /\ 0 <= segundos <= 59 /\ 0 <= milissegundos <= 999).
Proof.
  intros Hf. pose proof (float_of_str_Ok cap t Hf) as Ht. split.
  - intros Hinf. destruct Ht as [Ht | Ht]; [ | contradiction ].
    destruct (tempo_do_timestamp_spec t Ht) as (m & s & ms & it & Heq & _).
    exists m, s, ms. exact Heq.
  - intros m s ms. apply tempo_do_timestamp_faixas. exact Ht.
Qed.

Lemma campos_dentro_das_faixas_witness :
  float_of_str (py "75.5") = Ok (float_literal "75.5") /\
  tempo_do_timestamp (float_literal "75.5") = Ok (1, 15, 500) /\
  0 <= 1 /\ 0 <= 15 <= 59 /\ 0 <= 500 <= 999.
Proof.
  assert (Hf : float_of_str (py "75.5") = Ok (float_literal "75.5"))
    by (vm_compute; reflexivity).
  assert (Ht : tempo_do_timestamp (float_literal "75.5") = Ok (1, 15, 500))
    by (vm_compute; reflexivity).
  split; [exact Hf | ]. split; [exact Ht | ].
  exact (proj2 (campos_dentro_das_faixas (py "75.5") (float_literal "75.5") Hf) 1 15 500 Ht).
Defined.

(** C2, amended. For a line that matches the pattern and whose capture has
    a value [t] below [2^53], the Timestamp Reconstructor returns one tuple,
    and [minutos * 60 + segundos + milissegundos / 1000] is less than one
    millisecond away from [t]. *)
Theorem recomposicao_ate_um_milissegundo linha cap t w :
  re_search_pts_time linha = Some cap ->
  float_of_str cap = Ok t ->
  t <> S754_infinity false ->
  (SF2R t < bpow 53)%R ->
  exists minutos segundos milissegundos,
    analisar_dados_log [linha] w = (Ok [(minutos, segundos, milissegundos)], w) /\
    (Rabs (SF2R t - (IZR (minutos * 60 + segundos) + IZR milissegundos / 1000))
     < 1 / 1000)%R.
Proof.
  intros Hcap Hf Hinf Hlt.
  destruct (float_of_str_Ok cap t Hf) as [Ht | Ht]; [ | contradiction ].
  destruct (tempo_do_timestamp_spec t Ht)
    as (m & s & ms & it & Heq & _ & _ & _ & Hit & Hms & Hsoma).
  exists m, s, ms. split.
  - apply analisar_dados_log_Ok. cbn [analisar_laco]. rewrite Hcap, Hf. cbn [bindr].
    rewrite Heq. reflexivity.
  - apply (recomposicao t m s ms it Hit Hms (Hsoma Hlt)).
Qed.

Lemma recomposicao_ate_um_milissegundo_witness :
  exists minutos segundos milissegundos,
    analisar_dados_log [py "n:   7 pts:  24576 pts_time:1.75 pos: 1"] mundo_vazio
    = (Ok [(minutos, segundos, milissegundos)], mundo_vazio) /\
    (Rabs (SF2R (float_literal "1.75")
           - (IZR (minutos * 60 + segundos) + IZR milissegundos / 1000)) < 1 / 1000)%R.
Proof.
  apply (recomposicao_ate_um_milissegundo
           (py "n:   7 pts:  24576 pts_time:1.75 pos: 1") (py "1.75") (float_literal "1.75")).
  - vm_compute. reflexivity.
  - vm_compute. reflexivity.
  - vm_compute. discriminate.
  - change (float_literal "1.75") with (S754_finite false 7881299347898368 (-52)).
    cbn [SF2R cond_Zopp]. unfold F2R.
    change (bpow (-52)) with (bpow (Z.opp 52)).
    rewrite bpow_neg, bpow_IZR by lia.
    change (2 ^ 52) with 4503599627370496. change (2 ^ 53) with 9007199254740992.
    lra.
Defined.

(** C2 as stated fails above [2^53]: for the capture
    [10000000000000000000] the quotient by 60 is rounded, and the tuple
    [(166666666666666656, 40, 0)] is 600 seconds away from the value. *)
Lemma recomposicao_falha_acima_de_2_53 :
  ~ (forall linha cap t w minutos segundos milissegundos,
       re_search_pts_time linha = Some cap ->
       float_of_str cap = Ok t ->
       analisar_dados_log [linha] w = (Ok [(minutos, segundos, milissegundos)], w) ->
       (Rabs (SF2R t - (IZR (minutos * 60 + segundos) + IZR milissegundos / 1000))
        <= 1 / 1000)%R).
Proof.
  intros H.
  specialize (H (py "pts_time:10000000000000000000") (py "10000000000000000000")
                (S754_finite false 4882812500000000 11) mundo_vazio
                166666666666666656 40 0).
  assert (H1 : re_search_pts_time (py "pts_time:10000000000000000000")
               = Some (py "10000000000000000000")) by (vm_compute; reflexivity).
  assert (H2 : float_of_str (py "10000000000000000000")
               = Ok (S754_finite false 4882812500000000 11)) by (vm_compute; reflexivity).
  assert (H3 : analisar_dados_log [py "pts_time:10000000000000000000"] mundo_vazio
               = (Ok [(166666666666666656, 40, 0)], mundo_vazio))
    by (vm_compute; reflexivity).
  specialize (H H1 H2 H3). clear H1 H2 H3.
  cbn [SF2R cond_Zopp] in H. unfold F2R in H. rewrite bpow_IZR in H by lia.
  change (2 ^ 11) with 2048 in H.
  change (166666666666666656 * 60 + 40) with 9999999999999999400 in H.
  unfold Rabs in H. destruct (Rcase_abs _) in H; lra.
Qed.

Example recomposicao_tempo_grande_execucao :
  analisar_dados_log [py "pts_time:10000000000000000000"] mundo_vazio
  = (Ok [(166666666666666656, 40, 0)], mundo_vazio).
Proof. vm_compute. reflexivity. Qed.




Example captura_malformada_execucao :
  fst (analisar_dados_log [py "frame pts_time:. pos"] mundo_vazio)
  = Raise (ValueError (py "could not convert string to float: '.'")).
Proof. vm_compute. reflexivity. Qed.

(** ** The legibility classifier *)

(** C7. A text that has no word of four characters or more once cleaned is
    rejected, whatever the language detector answers, and also when the
    detector raises. *)
Theorem sem_palavras_longas_rejeita (detect : str -> result str) (texto : str) (w : mundo) :
  palavras_longas (limpar texto) = [] ->
  fst (texto_legivel detect texto w) = Ok false.
Proof.
  intros H. unfold texto_legivel, try_except, bind, lift. cbv zeta. rewrite H.
  destruct (str_eqb (limpar texto) []); [reflexivity | ].
  destruct (detect (limpar texto)) as [idioma | e]; [ | reflexivity ].
  destruct (negb (str_eqb idioma (py "pt"))); reflexivity.
Qed.

Lemma sem_palavras_longas_rejeita_witness :
  palavras_longas (limpar (py "abc, de 123 fgh!")) = [] /\
  fst (texto_legivel (fun _ => Ok (py "pt")) (py "abc, de 123 fgh!") mundo_vazio) = Ok false.
Proof.
  assert (H : palavras_longas (limpar (py "abc, de 123 fgh!")) = [])
    by (vm_compute; reflexivity).
  split; [exact H | ].
  exact (sem_palavras_longas_rejeita (fun _ => Ok (py "pt")) (py "abc, de 123 fgh!")
           mundo_vazio H).
Defined.

(* ===================================================================== *)
(** * Part VIII: further properties of the code *)
(* ===================================================================== *)

(** ** Timestamps of the subtitles *)

Lemma piso_unico a b x :
  (IZR a <= x < IZR a + 1)%R -> (IZR b <= x < IZR b + 1)%R -> a = b.
Proof.
  intros Ha Hb.
  assert (IZR a < IZR (b + 1))%R by (rewrite plus_IZR; lra).
  assert (IZR b < IZR (a + 1))%R by (rewrite plus_IZR; lra).
  apply lt_IZR in H, H0. lia.
Qed.

(** X1. For a finite non-negative number of seconds below [2^53],
    [formatar_timestamp] logs nothing and returns [HH:MM:SS,mmm] where the
    minutes and the seconds are at most 59, the milliseconds at most 999,
    [HH * 3600 + MM * 60 + SS] is the integer part of the input and the
    milliseconds are less than one away from the thousandfold of its
    fractional part; below one hundred hours the text has exactly twelve
    characters. *)
Theorem formatar_timestamp_campos (t : spec_float) (w : mundo) :
  nao_negativo t = true -> (SF2R t < bpow 53)%R ->
  exists horas minutos segs ms,
    formatar_timestamp t w = (Ok (relogio horas minutos segs ms), w) /\
    0 <= horas /\ 0 <= minutos <= 59 /\ 0 <= segs <= 59 /\ 0 <= ms <= 999 /\
    (IZR (horas * 3600 + minutos * 60 + segs) <= SF2R t
     < IZR (horas * 3600 + minutos * 60 + segs) + 1)%R /\
    (Rabs (1000 * (SF2R t - IZR (horas * 3600 + minutos * 60 + segs)) - IZR ms) < 1)%R /\
    ((SF2R t < 360000)%R -> length (relogio horas minutos segs ms) = 12%nat).
Proof.
  intros Ht Hlt.
  destruct (decomposicao_hms t Ht)
    as (q & horas & r & qm & minutos & rs & segs &
        Hq & Hhoras & Hr & Hqm & Hminutos & Hrs & Hsegs & Hh0 & Hm & Hs & Hpiso).
  specialize (Hpiso Hlt).
  destruct (milissegundos_spec t Ht)
    as (it & fi & ms & Hit & Hfi & Hms & Hit0 & Hitb & Hmsb & Hclose).
  assert (Eit : it = horas * 3600 + minutos * 60 + segs)
    by (apply (piso_unico _ _ (SF2R t)); assumption).
  exists horas, minutos, segs, ms.
  split.
  { unfold formatar_timestamp, try_except, lift, formatar_timestamp_corpo.
    rewrite Hq. cbn [bindr]. rewrite Hhoras. cbn [bindr]. rewrite Hr. cbn [bindr].
    rewrite Hqm. cbn [bindr]. rewrite Hminutos. cbn [bindr]. rewrite Hrs. cbn [bindr].
    rewrite Hsegs. cbn [bindr]. rewrite Hit. cbn [bindr]. rewrite Hfi. cbn [bindr].
    rewrite Hms. cbn [bindr]. reflexivity. }
  repeat (split; [first [assumption | lia] | ]).
  split; [ rewrite <- Eit; exact Hclose | ].
  intros H100.
  assert (Hh99 : horas <= 99).
  { assert (Hx : (IZR (horas * 3600) < IZR 360000)%R).
    { assert (0 <= IZR (minutos * 60 + segs))%R by (apply IZR_le; lia).
      replace (horas * 3600 + minutos * 60 + segs)
        with (horas * 3600 + (minutos * 60 + segs)) in Hpiso by lia.
      rewrite plus_IZR in Hpiso. lra. }
    apply lt_IZR in Hx. lia. }
  unfold relogio. rewrite !length_app.
  rewrite !fmt_0d_2_length, fmt_0d_3_length by lia. reflexivity.
Qed.

Lemma formatar_timestamp_campos_witness :
  exists horas minutos segs ms,
    formatar_timestamp (float_literal "3725.25") mundo_vazio
    = (Ok (relogio horas minutos segs ms), mundo_vazio) /\
    0 <= horas /\ 0 <= minutos <= 59 /\ 0 <= segs <= 59 /\ 0 <= ms <= 999 /\
    (IZR (horas * 3600 + minutos * 60 + segs) <= SF2R (float_literal "3725.25")
     < IZR (horas * 3600 + minutos * 60 + segs) + 1)%R /\
    (Rabs (1000 * (SF2R (float_literal "3725.25")
                   - IZR (horas * 3600 + minutos * 60 + segs)) - IZR ms) < 1)%R /\
    ((SF2R (float_literal "3725.25") < 360000)%R ->
     length (relogio horas minutos segs ms) = 12%nat).
Proof.
  apply formatar_timestamp_campos.
  - vm_compute. reflexivity.
  - change (float_literal "3725.25") with (S754_finite false 8191911382745088 (-41)).
    cbn [SF2R cond_Zopp]. unfold F2R.
    change (bpow (-41)) with (bpow (Z.opp 41)).
    rewrite bpow_neg, bpow_IZR by lia.
    change (2 ^ 41) with 2199023255552. change (2 ^ 53) with 9007199254740992.
    lra.
Defined.

(** X2. [formatar_timestamp] never raises.  For a NaN or an infinity the
    floor division yields NaN, the conversion to [int] raises, and the
    function logs the error and returns the zero timestamp. *)
Theorem formatar_timestamp_nao_finito (t : spec_float) (w : mundo) :
  (exists s, fst (formatar_timestamp t w) = Ok s) /\
  (match t with S754_nan | S754_infinity _ => True | _ => False end ->
   formatar_timestamp t w
   = (Ok (py "00:00:00,000"),
      com_registro ERROR
        (py "Erro ao formatar timestamp: cannot convert float NaN to integer") w)).
Proof.
  split.
  - unfold formatar_timestamp, try_except, lift.
    destruct (formatar_timestamp_corpo t); eexists; reflexivity.
  - destruct t as [ s | s | | s m e ]; intros H; try contradiction;
      [ destruct s | ]; reflexivity.
Qed.

Lemma formatar_timestamp_nao_finito_witness :
  formatar_timestamp (S754_infinity false) mundo_vazio
  = (Ok (py "00:00:00,000"),
     com_registro ERROR
       (py "Erro ao formatar timestamp: cannot convert float NaN to integer") mundo_vazio).
Proof.
  apply (proj2 (formatar_timestamp_nao_finito (S754_infinity false) mundo_vazio)). exact I.
Defined.

(** ** Elapsed time in words *)

Lemma app_nao_vazio (a b : str) : b <> [] -> a ++ b <> [].
Proof. intros Hb H. apply app_eq_nil in H. destruct H. contradiction. Qed.

(** X3. For a finite non-negative number of seconds below [2^53],
    [formatar_tempo_humano] returns the hours, minutes and seconds of the
    integer part of its input, minutes and seconds at most 59; a field
    that is zero is left out, except that the seconds are kept when the
    other two are zero.  The text is never empty, and it is [0 segundos]
    for an input below one second. *)
Theorem formatar_tempo_humano_partes (t : spec_float) :
  nao_negativo t = true -> (SF2R t < bpow 53)%R ->
  exists horas minutos segundos texto,
    formatar_tempo_humano t = Ok texto /\
    texto = join (py ", ")
              ((if 0 <? horas then [str_of_int horas ++ py " horas"] else [])
               ++ (if 0 <? minutos then [str_of_int minutos ++ py " minutos"] else [])
               ++ (if (0 <? segundos) || ((horas =? 0) && (minutos =? 0))
                   then [str_of_int segundos ++ py " segundos"] else [])) /\
    0 <= horas /\ 0 <= minutos <= 59 /\ 0 <= segundos <= 59 /\
    (IZR (horas * 3600 + minutos * 60 + segundos) <= SF2R t
     < IZR (horas * 3600 + minutos * 60 + segundos) + 1)%R /\
    texto <> [] /\
    ((SF2R t < 1)%R -> texto = py "0 segundos").
Proof.
  intros Ht Hlt.
  destruct (decomposicao_hms t Ht)
    as (q & horas & r & qm & minutos & rs & segs &
        Hq & Hhoras & Hr & Hqm & Hminutos & Hrs & Hsegs & Hh0 & Hm & Hs & Hpiso).
  specialize (Hpiso Hlt).
  exists horas, minutos, segs.
  exists (join (py ", ")
            ((if 0 <? horas then [str_of_int horas ++ py " horas"] else [])
             ++ (if 0 <? minutos then [str_of_int minutos ++ py " minutos"] else [])
             ++ (if (0 <? segs) || ((horas =? 0) && (minutos =? 0))
                 then [str_of_int segs ++ py " segundos"] else []))).
  split.
  { unfold formatar_tempo_humano.
    rewrite Hq. cbn [bindr]. rewrite Hhoras. cbn [bindr]. rewrite Hr. cbn [bindr].
    rewrite Hqm. cbn [bindr]. rewrite Hminutos. cbn [bindr]. rewrite Hrs. cbn [bindr].
    rewrite Hsegs. cbn [bindr]. cbv zeta. f_equal.
    destruct (Z.ltb_spec 0 horas) as [Hh | Hh]; destruct (Z.ltb_spec 0 minutos) as [Hmm | Hmm];
      destruct (Z.ltb_spec 0 segs) as [Hss | Hss]; cbn [orb app];
      try (replace (horas =? 0) with false by (symmetry; apply Z.eqb_neq; lia));
      try (replace (horas =? 0) with true by (symmetry; apply Z.eqb_eq; lia));
      try (replace (minutos =? 0) with false by (symmetry; apply Z.eqb_neq; lia));
      try (replace (minutos =? 0) with true by (symmetry; apply Z.eqb_eq; lia));
      reflexivity. }
  split; [reflexivity | ].
  repeat (split; [first [assumption | lia] | ]).
  split.
  - destruct (Z.ltb_spec 0 horas) as [Hh | Hh];
      destruct (Z.ltb_spec 0 minutos) as [Hmm | Hmm];
      destruct ((0 <? segs) || ((horas =? 0) && (minutos =? 0))) eqn:E;
      cbn [app join];
      try (apply app_nao_vazio; discriminate);
      try (rewrite <- app_assoc; apply app_nao_vazio; discriminate).
    exfalso. replace horas with 0 in E by lia. replace minutos with 0 in E by lia.
    rewrite orb_true_r in E. discriminate.
  - intros H1.
    assert (Ez : horas * 3600 + minutos * 60 + segs = 0).
    { assert (Hx : (IZR (horas * 3600 + minutos * 60 + segs) < IZR 1)%R) by lra.
      apply lt_IZR in Hx. lia. }
    assert (horas = 0 /\ minutos = 0 /\ segs = 0) as (-> & -> & ->) by lia.
    reflexivity.
Qed.

Lemma formatar_tempo_humano_partes_witness :
  exists horas minutos segundos texto,
    formatar_tempo_humano (float_literal "3725.25") = Ok texto /\
    texto = join (py ", ")
              ((if 0 <? horas then [str_of_int horas ++ py " horas"] else [])
               ++ (if 0 <? minutos then [str_of_int minutos ++ py " minutos"] else [])
               ++ (if (0 <? segundos) || ((horas =? 0) && (minutos =? 0))
                   then [str_of_int segundos ++ py " segundos"] else [])) /\
    0 <= horas /\ 0 <= minutos <= 59 /\ 0 <= segundos <= 59 /\
    (IZR (horas * 3600 + minutos * 60 + segundos) <= SF2R (float_literal "3725.25")
     < IZR (horas * 3600 + minutos * 60 + segundos) + 1)%R /\
    texto <> [] /\
    ((SF2R (float_literal "3725.25") < 1)%R -> texto = py "0 segundos").
Proof.
  apply formatar_tempo_humano_partes.
  - vm_compute. reflexivity.
  - change (float_literal "3725.25") with (S754_finite false 8191911382745088 (-41)).
    cbn [SF2R cond_Zopp]. unfold F2R.
    change (bpow (-41)) with (bpow (Z.opp 41)).
    rewrite bpow_neg, bpow_IZR by lia.
    change (2 ^ 41) with 2199023255552. change (2 ^ 53) with 9007199254740992.
    lra.
Defined.

Example formatar_tempo_humano_execucao :
  formatar_tempo_humano (float_literal "3725.25") = Ok (py "1 horas, 2 minutos, 5 segundos")
  /\ formatar_tempo_humano (float_literal "3600") = Ok (py "1 horas")
  /\ formatar_tempo_humano (float_literal "0.4") = Ok (py "0 segundos").
Proof. repeat split; vm_compute; reflexivity. Qed.

(** ** The decoder log, in pieces *)

Lemma analisar_laco_acc dados_log : forall acc,
  analisar_laco dados_log acc
  = (tempos <~ analisar_laco dados_log [] ;; Ok (acc ++ tempos)).
Proof.
  induction dados_log as [ | linha resto IH ]; intros acc; cbn [analisar_laco].
  - cbn [bindr]. rewrite app_nil_r. reflexivity.
  - destruct (re_search_pts_time linha) as [cap | ]; [ | apply IH ].
    destruct (float_of_str cap) as [t | e]; [ | reflexivity ]. cbn [bindr].
    destruct (tempo_do_timestamp t) as [tupla | e]; [ | reflexivity ]. cbn [bindr].
    rewrite (IH (acc ++ [tupla])), (IH ([] ++ [tupla])).
    destruct (analisar_laco resto []) as [tempos | e]; [ | reflexivity ].
    cbn [bindr]. rewrite <- app_assoc. reflexivity.
Qed.

Lemma analisar_laco_concat l1 : forall l2 acc,
  analisar_laco (l1 ++ l2) acc = (a <~ analisar_laco l1 acc ;; analisar_laco l2 a).
Proof.
  induction l1 as [ | linha resto IH ]; intros l2 acc; cbn [analisar_laco app].
  - reflexivity.
  - destruct (re_search_pts_time linha) as [cap | ]; [ | apply IH ].
    destruct (float_of_str cap) as [t | e]; [ | reflexivity ]. cbn [bindr].
    destruct (tempo_do_timestamp t) as [tupla | e]; [ | reflexivity ]. cbn [bindr].
    apply IH.
Qed.

Lemma analisar_dados_log_fst dados_log w :
  fst (analisar_dados_log dados_log w) = analisar_laco dados_log [].
Proof.
  unfold analisar_dados_log, try_except, lift.
  destruct (analisar_laco dados_log []); reflexivity.
Qed.

(** X4. The Timestamp Reconstructor works line by line and is all or
    nothing: the result for a log made of two pieces is the tuples of the
    first piece followed by those of the second, and is the exception of
    the first piece that raises one, whatever tuples came before it.  A
    run that returns leaves the world as it was; a run that raises has
    logged one error. *)
Theorem analisar_dados_log_concatena (l1 l2 : list str) (w : mundo) :
  fst (analisar_dados_log (l1 ++ l2) w)
  = (a <~ fst (analisar_dados_log l1 w) ;;
     b <~ fst (analisar_dados_log l2 w) ;;
     Ok (a ++ b)) /\
  snd (analisar_dados_log (l1 ++ l2) w)
  = match fst (analisar_dados_log (l1 ++ l2) w) with
    | Ok _ => w
    | Raise e => com_registro ERROR (py "Erro ao analisar dados do log: " ++ exn_str e) w
    end.
Proof.
  split.
  - rewrite !analisar_dados_log_fst, analisar_laco_concat.
    destruct (analisar_laco l1 []) as [a | e]; [ | reflexivity ]. cbn [bindr].
    apply analisar_laco_acc.
  - unfold analisar_dados_log, try_except, lift.
    destruct (analisar_laco (l1 ++ l2) []); reflexivity.
Qed.

(** ** What the filter of the Frame Sampler keeps *)

Lemma strip_prefix_app p : forall l r q,
  strip_prefix (p ++ q) l = Some r -> exists r', strip_prefix p l = Some r'.
Proof.
  induction p as [ | a p IH ]; intros l r q H; cbn [app strip_prefix] in *.
  - eauto.
  - destruct l as [ | b l ]; [discriminate | ].
    destruct (a =? b)%N; [ | discriminate ]. eapply IH, H.
Qed.

Lemma re_search_contains linha cap :
  re_search_pts_time linha = Some cap -> contains (py "pts_time") linha = true.
Proof.
  induction linha as [ | c resto IH ]; intros H; [discriminate | ].
  cbn [re_search_pts_time] in H. cbn [contains].
  apply orb_true_iff.
  destruct (strip_prefix (py "pts_time:") (c :: resto)) as [r | ] eqn:Ep.
  - left. change (py "pts_time:") with (py "pts_time" ++ py ":") in Ep.
    destruct (strip_prefix_app _ _ _ _ Ep) as (r' & Hr').
    unfold startswith. rewrite Hr'. reflexivity.
  - right. apply IH, H.
Qed.

Lemma capturas_filter dados :
  capturas (List.filter (contains (py "pts_time")) dados) = capturas dados.
Proof.
  induction dados as [ | linha resto IH ]; [reflexivity | ].
  cbn [List.filter capturas].
  destruct (re_search_pts_time linha) as [cap | ] eqn:Es.
  - rewrite (re_search_contains _ _ Es). cbn [capturas]. rewrite Es, IH. reflexivity.
  - destruct (contains (py "pts_time") linha); [ | exact IH ].
    cbn [capturas]. rewrite Es. exact IH.
Qed.

Lemma analisar_laco_filter dados : forall acc,
  analisar_laco (List.filter (contains (py "pts_time")) dados) acc = analisar_laco dados acc.
Proof.
  induction dados as [ | linha resto IH ]; intros acc; [reflexivity | ].
  cbn [List.filter analisar_laco].
  destruct (re_search_pts_time linha) as [cap | ] eqn:Es.
  - rewrite (re_search_contains _ _ Es). cbn [analisar_laco]. rewrite Es.
    destruct (float_of_str cap) as [t | e]; [ | reflexivity ]. cbn [bindr].
    destruct (tempo_do_timestamp t) as [tupla | e]; [ | reflexivity ]. cbn [bindr].
    apply IH.
  - destruct (contains (py "pts_time") linha); [ | apply IH ].
    cbn [analisar_laco]. rewrite Es. apply IH.
Qed.

(** X5. The filter of [extrair_frames] (lines that contain [pts_time])
    loses nothing the Timestamp Reconstructor would use: analysing the
    lines it keeps gives the same result, tuples or exception, and the
    same world as analysing the whole diagnostic stream. *)
Theorem filtro_preserva_tempos (linhas : list str) (w : mundo) :
  analisar_dados_log (List.filter (contains (py "pts_time")) linhas) w
  = analisar_dados_log linhas w.
Proof.
  unfold analisar_dados_log. rewrite analisar_laco_filter. reflexivity.
Qed.

(** ** Whole seconds *)

Lemma take_while_app (p : N -> bool) (a b : str) :
  Forall (fun c => p c = true) a -> take_while p (a ++ b) = a ++ take_while p b.
Proof.
  induction 1 as [ | c a Hc _ IH ]; [reflexivity | ].
  cbn [app take_while]. rewrite Hc, IH. reflexivity.
Qed.

Lemma drop_while_app (p : N -> bool) (a b : str) :
  Forall (fun c => p c = true) a -> drop_while p (a ++ b) = drop_while p b.
Proof.
  induction 1 as [ | c a Hc _ IH ]; [reflexivity | ].
  cbn [app drop_while]. rewrite Hc, IH. reflexivity.
Qed.

Lemma take_while_todos (p : N -> bool) (a : str) :
  Forall (fun c => p c = true) a -> take_while p a = a.
Proof.
  intros H. rewrite <- (app_nil_r a) at 1. rewrite take_while_app by exact H.
  apply app_nil_r.
Qed.

Lemma drop_while_todos (p : N -> bool) (a : str) :
  Forall (fun c => p c = true) a -> drop_while p a = [].
Proof.
  intros H. rewrite <- (app_nil_r a). rewrite drop_while_app by exact H. reflexivity.
Qed.

Lemma strip_prefix_proprio p : forall r, strip_prefix p (p ++ r) = Some r.
Proof.
  induction p as [ | a p IH ]; intros r; [reflexivity | ].
  cbn [app strip_prefix]. rewrite N.eqb_refl. apply IH.
Qed.

Lemma digitos_sao_numericos (l : str) :
  Forall (fun c => is_digit c = true) l -> Forall (fun c => classe_numerica c = true) l.
Proof.
  intros H. eapply Forall_impl; [exact H | ].
  intros c Hc. unfold classe_numerica. rewrite Hc. reflexivity.
Qed.

Lemma re_search_inteiro (ds sufixo : str) :
  Forall (fun c => is_digit c = true) ds -> ds <> [] ->
  take_while classe_numerica sufixo = [] ->
  re_search_pts_time (py "pts_time:" ++ ds ++ sufixo) = Some ds.
Proof.
  intros Hd Hne Hs.
  change (py "pts_time:" ++ ds ++ sufixo)
    with (112%N :: (py "ts_time:" ++ ds ++ sufixo)).
  cbn [re_search_pts_time].
  change (112%N :: (py "ts_time:" ++ ds ++ sufixo))
    with (py "pts_time:" ++ ds ++ sufixo).
  rewrite strip_prefix_proprio.
  rewrite take_while_app by (apply digitos_sao_numericos, Hd).
  rewrite Hs, app_nil_r. destruct ds; [contradiction | reflexivity].
Qed.

Lemma float_of_str_inteiro n :
  0 <= n < 2 ^ 53 ->
  exists t, float_of_str (decimal (Z.to_N n)) = Ok t /\
            nao_negativo t = true /\ SF2R t = IZR n.
Proof.
  intros Hn. destruct (decimal_spec (Z.to_N n)) as (Hv & Hd & Hne).
  unfold float_of_str. cbv zeta.
  rewrite (drop_while_todos _ _ Hd), (take_while_todos _ _ Hd), app_nil_r.
  destruct (decimal (Z.to_N n)) as [ | c ds ] eqn:Ed; [contradiction | ].
  rewrite Hv, Z2N.id by lia. cbn [length Z.of_nat]. change (10 ^ 0) with 1.
  destruct n as [ | p | p ]; [ | | lia ].
  - exists fzero. repeat split.
  - eexists. split; [reflexivity | ].
    pose proof (fdiv_spec p 0 1 0) as Hr.
    assert (Hx : (F2R (Zpos p) 0 / F2R 1 0 = IZR (Zpos p))%R).
    { unfold F2R. rewrite bpow_0. field. }
    rewrite Hx in Hr.
    apply (arredonda_exato _ _ Hr); [apply representavel_IZR | apply IZR_lt_max]; lia.
Qed.

(** X6. A log line whose timestamp is a whole number of seconds [n]
    below [2^53], written in decimal, gives exactly the tuple
    [(n / 60, n mod 60, 0)]: no rounding occurs on the way. *)
Theorem analisar_segundos_inteiros (n : Z) (sufixo : str) (w : mundo) :
  0 <= n < 2 ^ 53 ->
  take_while classe_numerica sufixo = [] ->
  analisar_dados_log [py "pts_time:" ++ decimal (Z.to_N n) ++ sufixo] w
  = (Ok [(n / 60, n mod 60, 0)], w).
Proof.
  intros Hn Hs. destruct (decimal_spec (Z.to_N n)) as (_ & Hd & Hne).
  destruct (float_of_str_inteiro n Hn) as (t & Hf & Hnn & Hv).
  destruct (tempo_do_timestamp_spec t Hnn)
    as (m & s & ms & it & Heq & Hm & Hsb & Hmsb & Hit & Hms & Hsoma).
  assert (Hlt : (SF2R t < bpow 53)%R).
  { rewrite Hv, (bpow_IZR 53) by lia. apply IZR_lt. lia. }
  specialize (Hsoma Hlt).
  assert (Eit : it = n).
  { apply (piso_unico _ _ (SF2R t)); [exact Hit | rewrite Hv; lra]. }
  assert (Ems : ms = 0).
  { rewrite Hv, Eit in Hms. replace (1000 * (IZR n - IZR n) - IZR ms)%R
      with (- IZR ms)%R in Hms by lra.
    rewrite Rabs_Ropp in Hms. apply Rabs_def2 in Hms.
    assert (IZR (-1) < IZR ms)%R by lra. assert (IZR ms < IZR 1)%R by lra.
    apply lt_IZR in H, H0. lia. }
  assert (Em : m = n / 60) by (apply (Z.div_unique n 60 m s); lia).
  assert (Es : s = n mod 60) by (apply (Z.mod_unique n 60 m s); lia).
  rewrite <- Em, <- Es.
  subst ms.
  apply analisar_dados_log_Ok. cbn [analisar_laco].
  rewrite (re_search_inteiro _ _ Hd Hne Hs), Hf. cbn [bindr]. rewrite Heq. reflexivity.
Qed.

Lemma analisar_segundos_inteiros_witness :
  analisar_dados_log [py "pts_time:" ++ decimal (Z.to_N 3725) ++ py " pos:1"] mundo_vazio
  = (Ok [(3725 / 60, 3725 mod 60, 0)], mundo_vazio).
Proof. apply analisar_segundos_inteiros; [lia | reflexivity]. Defined.

(** ** Order *)

(** Rounding to nearest is monotone. *)
Lemma arredonda_monotono x y f g :
  (x < y)%R -> arredonda x f -> arredonda y g ->
  nao_negativo f = true -> nao_negativo g = true -> (SF2R f <= SF2R g)%R.
Proof.
  intros Hxy (v & Hv & Hnv & Hf) (u & Hu & Hnu & Hg) Hfn Hgn.
  destruct Hf as [[_ Ef] | [Ef _]]; [ | rewrite Ef in Hfn; discriminate ].
  destruct Hg as [[_ Eg] | [Eg _]]; [ | rewrite Eg in Hgn; discriminate ].
  rewrite Ef, Eg.
  destruct (Rle_or_lt v u) as [Hle | Hlt]; [exact Hle | exfalso].
  pose proof (Hnv u Hu) as H1. pose proof (Hnu v Hv) as H2.
  unfold Rabs in H1, H2.
  destruct (Rcase_abs (v - x)), (Rcase_abs (u - x)), (Rcase_abs (u - y)),
    (Rcase_abs (v - y)); lra.
Qed.

(** The steps that compute the millisecond field. *)
Lemma milissegundos_passos t :
  nao_negativo t = true ->
  exists it fi ms,
    int_of_float t = Ok it /\ float_of_int it = Ok fi /\
    int_of_float (fmul (fsub t fi) f1000) = Ok ms /\
    (IZR it <= SF2R t < IZR it + 1)%R /\
    arredonda ((SF2R t - IZR it) * 1000) (fmul (fsub t fi) f1000) /\
    nao_negativo (fmul (fsub t fi) f1000) = true /\
    (IZR ms <= SF2R (fmul (fsub t fi) f1000) < IZR ms + 1)%R.
Proof.
  intros Ht.
  destruct (int_of_float_spec t Ht) as (it & Hit & Hit0 & Hitb).
  destruct (representavel_floor t it Ht Hit0 Hitb) as [Hrit Hrfrac].
  pose proof (SF2R_lt_max _ Ht) as Htmax.
  destruct (float_of_int_spec it Hit0 Hrit ltac:(lra)) as (fi & Hfi & Hfinn & Hfiv).
  pose proof (fsub_spec t fi Ht Hfinn ltac:(lra)) as Hsub. rewrite Hfiv in Hsub.
  assert (H1max : (1 < bpow 1024)%R).
  { rewrite <- bpow_0. apply bpow_lt. lia. }
  destruct (arredonda_exato _ _ Hsub Hrfrac ltac:(lra)) as [Hfrnn Hfrv].
  pose proof (fmul_spec (fsub t fi) f1000 Hfrnn eq_refl) as Hmul.
  rewrite Hfrv, SF2R_f1000 in Hmul.
  assert (Hfrac1 : (SF2R t - IZR it <= 1 - bpow (-53))%R)
    by (apply representavel_lt_1; [assumption | lra]).
  pose proof (bpow_gt_0 (-53)) as Hb.
  assert (Hxb : (0 <= (SF2R t - IZR it) * 1000 <= 1000 - 1000 * bpow (-53))%R)
    by (split; lra).
  destruct (arredonda_milesimos _ _ Hxb Hmul) as [Hpnn Hplt].
  destruct (int_of_float_spec _ Hpnn) as (ms & Hms & Hms0 & Hmsb).
  exists it, fi, ms. repeat split; try assumption; lra.
Qed.

Lemma tempo_do_timestamp_passos t minutos segundos ms it fi ms' :
  tempo_do_timestamp t = Ok (minutos, segundos, ms) ->
  int_of_float t = Ok it -> float_of_int it = Ok fi ->
  int_of_float (fmul (fsub t fi) f1000) = Ok ms' -> ms = ms'.
Proof.
  unfold tempo_do_timestamp. intros H Hit Hfi Hms.
  destruct (float_floordiv t f60) as [q | ]; [ | discriminate ]. cbn [bindr] in H.
  destruct (int_of_float q) as [m | ]; [ | discriminate ]. cbn [bindr] in H.
  destruct (float_mod t f60) as [r | ]; [ | discriminate ]. cbn [bindr] in H.
  destruct (int_of_float r) as [s | ]; [ | discriminate ]. cbn [bindr] in H.
  rewrite Hit in H. cbn [bindr] in H. rewrite Hfi in H. cbn [bindr] in H.
  rewrite Hms in H. cbn [bindr] in H. congruence.
Qed.

(** X7. The tuples follow the order of the timestamps: for finite
    non-negative values [t1 <= t2] below [2^53], the tuple of [t1], read
    as a number of milliseconds, is at most the tuple of [t2].  Frames
    named after their tuples are therefore named in time order. *)
Theorem tempo_do_timestamp_monotono (t1 t2 : spec_float) :
  nao_negativo t1 = true -> nao_negativo t2 = true ->
  (SF2R t1 <= SF2R t2)%R -> (SF2R t2 < bpow 53)%R ->
  exists m1 s1 ms1 m2 s2 ms2,
    tempo_do_timestamp t1 = Ok (m1, s1, ms1) /\
    tempo_do_timestamp t2 = Ok (m2, s2, ms2) /\
    (m1 * 60 + s1) * 1000 + ms1 <= (m2 * 60 + s2) * 1000 + ms2.
Proof.
  intros H1 H2 Hle Hlt.
  destruct (tempo_do_timestamp_spec t1 H1)
    as (m1 & s1 & ms1 & it1 & Heq1 & _ & _ & Hms1 & Hit1 & _ & Hsoma1).
  destruct (tempo_do_timestamp_spec t2 H2)
    as (m2 & s2 & ms2 & it2 & Heq2 & _ & _ & Hms2 & Hit2 & _ & Hsoma2).
  exists m1, s1, ms1, m2, s2, ms2. split; [exact Heq1 | ]. split; [exact Heq2 | ].
  rewrite (Hsoma1 ltac:(lra)), (Hsoma2 Hlt).
  destruct (Rle_lt_or_eq_dec _ _ Hle) as [Hstrict | Heq].
  - assert (Hitle : it1 <= it2).
    { assert (IZR it1 < IZR (it2 + 1))%R by (rewrite plus_IZR; lra).
      apply lt_IZR in H. lia. }
    destruct (Z.eq_dec it1 it2) as [E | Hne]; [ | nia ].
    subst it2.
    destruct (milissegundos_passos t1 H1)
      as (i1 & f1 & k1 & Hi1 & Hf1 & Hk1 & Hb1 & Hr1 & Hn1 & Hkb1).
    destruct (milissegundos_passos t2 H2)
      as (i2 & f2 & k2 & Hi2 & Hf2 & Hk2 & Hb2 & Hr2 & Hn2 & Hkb2).
    assert (i1 = it1) by (apply (piso_unico _ _ (SF2R t1)); assumption).
    assert (i2 = it1) by (apply (piso_unico _ _ (SF2R t2)); assumption).
    subst i1 i2.
    rewrite (tempo_do_timestamp_passos _ _ _ _ _ _ _ Heq1 Hi1 Hf1 Hk1).
    rewrite (tempo_do_timestamp_passos _ _ _ _ _ _ _ Heq2 Hi2 Hf2 Hk2).
    assert (Hp : (SF2R (fmul (fsub t1 f1) f1000) <= SF2R (fmul (fsub t2 f2) f1000))%R).
    { apply (arredonda_monotono ((SF2R t1 - IZR it1) * 1000) ((SF2R t2 - IZR it1) * 1000));
        try assumption. lra. }
    assert (IZR k1 < IZR (k2 + 1))%R by (rewrite plus_IZR; lra).
    apply lt_IZR in H. lia.
  - assert (t1 = t2) by (apply SF2R_inj; assumption). subst t2.
    rewrite Heq1 in Heq2. injection Heq2 as _ _ <-.
    assert (it1 = it2) by (apply (piso_unico _ _ (SF2R t1)); assumption).
    subst it2. lia.
Qed.

Lemma tempo_do_timestamp_monotono_witness :
  exists m1 s1 ms1 m2 s2 ms2,
    tempo_do_timestamp (float_literal "59.75") = Ok (m1, s1, ms1) /\
    tempo_do_timestamp (float_literal "60.0") = Ok (m2, s2, ms2) /\
    (m1 * 60 + s1) * 1000 + ms1 <= (m2 * 60 + s2) * 1000 + ms2.
Proof.
  apply tempo_do_timestamp_monotono.
  - vm_compute. reflexivity.
  - vm_compute. reflexivity.
  - change (float_literal "59.75") with (S754_finite false 8409064929230848 (-47)).
    change (float_literal "60.0") with (S754_finite false 8444249301319680 (-47)).
    cbn [SF2R cond_Zopp]. apply F2R_le. lia.
  - change (float_literal "60.0") with (S754_finite false 8444249301319680 (-47)).
    cbn [SF2R cond_Zopp]. unfold F2R.
    change (bpow (-47)) with (bpow (Z.opp 47)).
    rewrite bpow_neg, bpow_IZR by lia.
    change (2 ^ 47) with 140737488355328. change (2 ^ 53) with 9007199254740992.
    lra.
Defined.

(** ** What the Frame Renamer leaves alone *)

Lemma nome_original_frame pasta i :
  exists x, nome_original pasta i = os_path_join pasta (py "frame_" ++ x).
Proof. eexists. reflexivity. Qed.

Lemma nome_novo_frame pasta nome_base t :
  exists x, nome_novo pasta nome_base t = os_path_join pasta (py "frame_" ++ x).
Proof. destruct t as [[minutos segundos] milissegundos]. eexists. reflexivity. Qed.

(** X8. [renomear_frames] touches no queue, and no file other than those
    named [frame_...] directly under the output directory: every other
    path holds afterwards what it held before. *)
Theorem renomear_frames_confinado
    (tempos : list (Z * Z * Z)) (pasta nome_base : str) (w : mundo) :
  (forall q, fila_de q (snd (renomear_frames tempos pasta nome_base w)) = fila_de q w) /\
  (forall p, (forall x, p <> os_path_join pasta (py "frame_" ++ x)) ->
     arquivos (snd (renomear_frames tempos pasta nome_base w)) !! p = arquivos w !! p).
Proof.
  rewrite renomear_frames_passos. cbn [snd]. split.
  - intros q.
    destruct (passos_renomear_filas pasta nome_base tempos 0 w) as (H1 & H2 & H3).
    destruct q; assumption.
  - intros p Hp. apply passos_renomear_lookup.
    + intros j t _. destruct (nome_original_frame pasta (0 + j)) as (x & ->). apply Hp.
    + intros j t _ _. destruct (nome_novo_frame pasta nome_base t) as (x & ->). apply Hp.
Qed.

Lemma renomear_frames_confinado_witness :
  let w := Mundo (<[py "out/frame_000001.png" := py "A"]>
                    (<[py "out/notas.txt" := py "N"]> ∅)) [] [] [] [] in
  arquivos (snd (renomear_frames [(0, 0, 250)] (py "out") (py "v") w)) !! py "out/notas.txt"
  = Some (py "N").
Proof.
  intros w.
  rewrite (proj2 (renomear_frames_confinado [(0, 0, 250)] (py "out") (py "v") w)
             (py "out/notas.txt")).
  - reflexivity.
  - intros x. vm_compute. discriminate.
Defined.

(** *** Renaming creates nothing *)

Lemma passo_renomear_conserva pasta nome_base i t w :
  (size (arquivos (passo_renomear pasta nome_base i t w)) <= size (arquivos w))%nat /\
  forall p c, arquivos (passo_renomear pasta nome_base i t w) !! p = Some c ->
              exists p', arquivos w !! p' = Some c.
Proof.
  unfold passo_renomear.
  destruct (arquivos w !! nome_original pasta i) as [c0 | ] eqn:E; cbn [arquivos].
  - split.
    + assert (Hd : size (delete (nome_original pasta i) (arquivos w))
                   = Init.Nat.pred (size (arquivos w)))
        by (apply map_size_delete_Some; rewrite E; eauto).
      assert (Hpos : size (arquivos w) <> 0%nat).
      { intros Hz. apply map_size_empty_inv in Hz. rewrite Hz, lookup_empty in E.
        discriminate. }
      destruct (delete (nome_original pasta i) (arquivos w) !! nome_novo pasta nome_base t)
        eqn:E2.
      * rewrite map_size_insert_Some by (rewrite E2; eauto). lia.
      * rewrite map_size_insert_None by exact E2. lia.
    + intros p c Hp.
      destruct (decide (p = nome_novo pasta nome_base t)) as [-> | Hne].
      * rewrite lookup_insert_eq in Hp. injection Hp as <-. eauto.
      * rewrite lookup_insert_ne in Hp by congruence.
        destruct (decide (p = nome_original pasta i)) as [-> | Hne'].
        -- rewrite lookup_delete_eq in Hp. discriminate.
        -- rewrite lookup_delete_ne in Hp by congruence. eauto.
  - split; [lia | eauto].
Qed.

Lemma passos_renomear_conserva pasta nome_base tempos : forall i w,
  (size (arquivos (passos_renomear pasta nome_base i tempos w)) <= size (arquivos w))%nat /\
  forall p c, arquivos (passos_renomear pasta nome_base i tempos w) !! p = Some c ->
              exists p', arquivos w !! p' = Some c.
Proof.
  induction tempos as [ | t tempos IH ]; intros i w; cbn [passos_renomear].
  - split; [lia | eauto].
  - destruct (IH (S i) (passo_renomear pasta nome_base i t w)) as [H1 H2].
    destruct (passo_renomear_conserva pasta nome_base i t w) as [H3 H4].
    split; [lia | ]. intros p c Hp. destruct (H2 p c Hp) as (p' & Hp'). eauto.
Qed.

(** X9. [renomear_frames] creates nothing: there are at most as many
    files afterwards as before, and every file that exists afterwards
    holds the content some file held before. *)
Theorem renomear_frames_conserva
    (tempos : list (Z * Z * Z)) (pasta nome_base : str) (w : mundo) :
  (size (arquivos (snd (renomear_frames tempos pasta nome_base w))) <= size (arquivos w))%nat /\
  (forall p c,
     arquivos (snd (renomear_frames tempos pasta nome_base w)) !! p = Some c ->
     exists p', arquivos w !! p' = Some c).
Proof.
  rewrite renomear_frames_passos. cbn [snd].
  destruct (passos_renomear_conserva pasta nome_base tempos 0 w) as [H1 H2].
  split; [lia | exact H2].
Qed.

Lemma renomear_frames_conserva_witness :
  let w := Mundo (<[py "out/frame_000001.png" := py "A"]>
                    (<[py "out/frame_000002.png" := py "B"]> ∅)) [] [] [] [] in
  arquivos (snd (renomear_frames [(0, 0, 0); (0, 0, 0)] (py "out") (py "v") w))
    !! py "out/frame_v_00-00-000.png" = Some (py "B") /\
  exists p', arquivos w !! p' = Some (py "B").
Proof.
  intros w.
  assert (H : arquivos (snd (renomear_frames [(0, 0, 0); (0, 0, 0)] (py "out") (py "v") w))
                !! py "out/frame_v_00-00-000.png" = Some (py "B"))
    by (vm_compute; reflexivity).
  split; [exact H | ].
  exact (proj2 (renomear_frames_conserva [(0, 0, 0); (0, 0, 0)] (py "out") (py "v") w) _ _ H).
Defined.

(** ** The progress of the frame worker *)

Lemma extrair_frames_sucesso ffmpeg caminho pasta w ex :
  ffmpeg caminho = Ok ex -> fim ex = Terminou 0 ->
  exists w1,
    extrair_frames ffmpeg caminho pasta w
    = (Ok (List.filter (contains (py "pts_time")) (stderr ex)), w1) /\
    forall q, fila_de q w1 = fila_de q w.
Proof.
  intros Hff Hfim.
  pose proof (gravar_quadros_fst pasta (quadros ex) 0 w) as Hg.
  assert (Hq : forall q, fila_de q (snd (gravar_quadros pasta 0 (quadros ex) w)) = fila_de q w).
  { intros q. apply inalterado_gravar_quadros. apply fila_de_set_arquivos. }
  unfold extrair_frames, try_except, bind, lift. rewrite Hff.
  destruct (gravar_quadros pasta 0 (quadros ex) w) as [[[] | e] w1];
    cbn [fst snd] in *; [ | discriminate ].
  rewrite Hfim. cbn. exists w1. split; [reflexivity | exact Hq].
Qed.

Lemma progresso_frames_run q total : forall tempos i w,
  Z.of_nat (i + length tempos) <= total ->
  exists fracs w',
    progresso_frames q total i tempos w = (Ok tt, w') /\
    fila_de q w' = fila_de q w ++ List.map MsgFloat fracs /\
    Forall2 (fun k f => int_truediv (Z.of_nat k + 1) total = Ok f)
            (seq i (length tempos)) fracs.
Proof.
  induction tempos as [ | t tempos IH ]; intros i w Hle; cbn [progresso_frames length seq].
  - exists [], w. cbn [List.map]. rewrite app_nil_r. repeat split. constructor.
  - cbn [length] in Hle.
    destruct (int_truediv_ok (Z.of_nat i + 1) total ltac:(lia)) as (f & Hf).
    destruct (IH (S i) (snd (put q (MsgFloat f) w)) ltac:(lia)) as (fracs & w' & Hrun & Hq & HF).
    exists (f :: fracs), w'. split; [ | split ].
    + unfold bind, lift. rewrite Hf.
      destruct (put q (MsgFloat f) w) as [[[] | e] w1] eqn:Hput;
        [ | destruct q; discriminate ].
      exact Hrun.
    + rewrite Hq, fila_de_put_eq, <- app_assoc. reflexivity.
    + constructor; [exact Hf | exact HF].
Qed.

(** X10. When the decoder ends with return code zero and every capture
    of its log is a numeral with a finite value, [processar_frames] puts
    on its queue one fraction per timestamp, [1/n], [2/n], ... up to
    [n/n], which is exactly [1.0], followed by the completion message.
    When the log has no timestamp, the completion message is all it puts:
    the division by the number of frames is never reached. *)
Theorem processar_frames_progresso
    (ffmpeg : decodificador) (caminho pasta : str) (q : fila) (w : mundo) (ex : execucao) :
  ffmpeg caminho = Ok ex ->
  fim ex = Terminou 0 ->
  forallb captura_finita (capturas (stderr ex)) = true ->
  let n := length (capturas (stderr ex)) in
  exists fracs,
    fst (processar_frames ffmpeg caminho pasta q w) = Ok tt /\
    fila_de q (snd (processar_frames ffmpeg caminho pasta q w))
    = fila_de q w ++ List.map MsgFloat fracs
        ++ [MsgStr (py "Processamento de frames conclu" ++ [237%N] ++ py "do!")] /\
    Forall2 (fun k f => int_truediv (Z.of_nat k + 1) (Z.of_nat n) = Ok f) (seq 0 n) fracs /\
    (n <> 0%nat -> last fracs = Some fone).
Proof.
  intros Hff Hfim Hcap n.
  destruct (extrair_frames_sucesso ffmpeg caminho pasta w ex Hff Hfim) as (w1 & Hex & Hq1).
  rewrite <- capturas_filter in Hcap.
  destruct (analisar_laco_app _ [] Hcap) as (tempos & Hl & HF).
  cbn [app] in Hl.
  pose proof (analisar_dados_log_Ok _ tempos w1 Hl) as Han.
  assert (Hlen : length tempos = n).
  { unfold n. rewrite <- (capturas_filter (stderr ex)). symmetry.
    apply (Forall2_length _ _ _ HF). }
  pose proof (renomear_frames_passos tempos pasta
                (os_path_splitext_root (os_path_basename caminho)) w1) as Hren.
  set (w2 := passos_renomear pasta (os_path_splitext_root (os_path_basename caminho))
               0 tempos w1) in *.
  assert (Hq2 : fila_de q w2 = fila_de q w1).
  { destruct (passos_renomear_filas pasta (os_path_splitext_root (os_path_basename caminho))
                tempos 0 w1) as (H1 & H2 & H3).
    destruct q; assumption. }
  destruct (progresso_frames_run q (Z.of_nat (length tempos)) tempos 0 w2 ltac:(lia))
    as (fracs & w3 & Hrun & Hq3 & HFr).
  exists fracs.
  assert (Erun : processar_frames ffmpeg caminho pasta q w
                 = put q (MsgStr (py "Processamento de frames conclu" ++ [237%N] ++ py "do!")) w3).
  { unfold processar_frames, try_except. cbv zeta. unfold bind at 1. rewrite Hex.
    unfold bind at 1. rewrite Han. unfold bind at 1. rewrite Hren.
    unfold bind at 1. rewrite Hrun.
    destruct (put q _ w3) as [[[] | e] w4] eqn:Hput; [reflexivity | destruct q; discriminate]. }
  rewrite Erun. split; [ destruct q; reflexivity | ]. split; [ | split ].
  - rewrite fila_de_put_eq, Hq3, Hq2, Hq1, <- app_assoc. reflexivity.
  - rewrite <- Hlen. exact HFr.
  - intros Hn.
    assert (Hlf : length fracs = n).
    { rewrite <- (Forall2_length _ _ _ HFr), length_seq. exact Hlen. }
    destruct (exists_last (l := fracs)) as (ini & f & ->).
    { intros ->. cbn in Hlf. congruence. }
    rewrite last_snoc.
    rewrite length_app in Hlf. cbn [length] in Hlf.
    pose proof (Forall2_lookup_r _ _ _ (length ini) f HFr) as Hk.
    destruct Hk as (k & Hk & Hdiv).
    { rewrite lookup_app_r by lia. rewrite Nat.sub_diag. reflexivity. }
    apply lookup_seq in Hk. destruct Hk as [-> _].
    rewrite Hlen in Hdiv.
    replace (Z.of_nat (0 + length ini) + 1) with (Z.of_nat n) in Hdiv by lia.
    rewrite int_truediv_diag in Hdiv by lia. congruence.
Qed.

Lemma processar_frames_progresso_witness :
  let ex := Execucao [py "frame= 2"; py "n:0 pts_time:0 "; py "n:1 pts_time:0.25 "]
                     [py "A"; py "B"] (Terminou 0) in
  exists fracs,
    fst (processar_frames (fun _ => Ok ex) (py "aula.mp4") (py "aula") FilaFrames mundo_vazio)
    = Ok tt /\
    fila_de FilaFrames
      (snd (processar_frames (fun _ => Ok ex) (py "aula.mp4") (py "aula") FilaFrames
              mundo_vazio))
    = fila_de FilaFrames mundo_vazio ++ List.map MsgFloat fracs
        ++ [MsgStr (py "Processamento de frames conclu" ++ [237%N] ++ py "do!")] /\
    Forall2 (fun k f => int_truediv (Z.of_nat k + 1)
                          (Z.of_nat (length (capturas (stderr ex)))) = Ok f)
            (seq 0 (length (capturas (stderr ex)))) fracs /\
    (length (capturas (stderr ex)) <> 0%nat -> last fracs = Some fone).
Proof.
  intros ex.
  apply (processar_frames_progresso (fun _ => Ok ex) (py "aula.mp4") (py "aula")
           FilaFrames mundo_vazio ex); reflexivity.
Defined.

Example processar_frames_progresso_execucao :
  fila_de FilaFrames
    (snd (processar_frames
            (fun _ => Ok (Execucao [py "frame= 2"; py "n:0 pts_time:0 "; py "n:1 pts_time:0.25 "]
                            [py "A"; py "B"] (Terminou 0)))
            (py "aula.mp4") (py "aula") FilaFrames mundo_vazio))
  = [MsgFloat (float_literal "0.5"); MsgFloat (float_literal "1.0");
     MsgStr (py "Processamento de frames conclu" ++ [237%N] ++ py "do!")].
Proof. vm_compute. reflexivity. Qed.

(** ** Substitution in file names *)

Lemma contains_cons old c l :
  contains old (c :: l) = false ->
  strip_prefix old (c :: l) = None /\ contains old l = false.
Proof.
  cbn [contains]. intros H. apply orb_false_iff in H. destruct H as [H1 H2].
  split; [ | exact H2 ]. unfold startswith in H1.
  destruct (strip_prefix old (c :: l)); [discriminate | reflexivity].
Qed.

Lemma replace_aux_ausente old new fuel : forall l,
  contains old l = false -> replace_aux fuel old new l = l.
Proof.
  induction fuel as [ | fuel IH ]; intros l H; [reflexivity | ].
  destruct l as [ | c l ]; [reflexivity | ]. cbn [replace_aux].
  destruct (contains_cons old c l H) as [H1 H2]. rewrite H1, (IH l H2). reflexivity.
Qed.

Lemma replace_ausente old new l : contains old l = false -> replace old new l = l.
Proof. apply replace_aux_ausente. Qed.

(** ** Files that are skipped *)

Lemma os_path_exists_run (p : str) (w : mundo) :
  os_path_exists p w = (Ok (bool_decide (is_Some (arquivos w !! p))), w).
Proof. reflexivity. Qed.

Lemma os_path_getsize_Some (p : str) (w : mundo) (c : str) :
  arquivos w !! p = Some c ->
  os_path_getsize p w = (Ok (Z.of_nat (list_sum (List.map utf8_len c))), w).
Proof.
  intros H. unfold os_path_getsize, bind, get_arquivos. unfold str in *.
  rewrite H. reflexivity.
Qed.

Lemma processar_arquivo_pula ffmpeg wh tr args ft ff fa caminho w (c : str) :
  skip_prontos args = true ->
  arquivos w !! replace (py ".mp3") (py "-Fala.Cronometrada.txt")
                  (replace (py ".mp4") (py "-Fala.Cronometrada.txt") caminho) = Some c ->
  1024 < Z.of_nat (list_sum (List.map utf8_len c)) ->
  processar_arquivo ffmpeg wh tr args ft ff fa caminho w
  = (Ok tt,
     com_registro INFO
       (py "Pulado: '" ++ caminho ++ py "', arquivo de fala cronometrada '"
          ++ replace (py ".mp3") (py "-Fala.Cronometrada.txt")
               (replace (py ".mp4") (py "-Fala.Cronometrada.txt") caminho)
          ++ py "' j" ++ [225%N] ++ py " existe e " ++ [233%N] ++ py " maior que 1KB.")
       (snd (put fa (MsgStr caminho) w))).
Proof.
  intros Hskip Hc Hsize.
  unfold processar_arquivo, try_except. cbv zeta. rewrite Hskip.
  unfold bind at 1.
  destruct (put fa (MsgStr caminho) w) as [[[] | e] w1] eqn:Hput;
    [ | destruct fa; discriminate ].
  assert (Hw1 : arquivos w1 = arquivos w).
  { pose proof (arquivos_put fa (MsgStr caminho) w) as H. rewrite Hput in H. exact H. }
  cbn [snd]. unfold bind.
  rewrite os_path_exists_run. rewrite Hw1. unfold str in *. rewrite Hc.
  rewrite bool_decide_eq_true_2 by eauto.
  rewrite (os_path_getsize_Some _ w1 c) by (rewrite Hw1; exact Hc).
  replace (1024 <? Z.of_nat (list_sum (List.map utf8_len c))) with true
    by (symmetry; apply Z.ltb_lt; exact Hsize).
  reflexivity.
Qed.

(** X11. With [--skip-prontos], a file whose time-coded transcript exists
    and is larger than 1024 bytes is announced on the file queue and
    logged as skipped, and nothing else happens: no worker runs, so the
    file system and the two worker queues are as they were. *)
Theorem arquivos_prontos_sao_pulados
    (ffmpeg : decodificador) (wh : whisper) (tr : tradutor) (args : argumentos)
    (ft ff fa : fila) (caminho : str) (w : mundo) (c : str) :
  skip_prontos args = true ->
  arquivos w !! replace (py ".mp3") (py "-Fala.Cronometrada.txt")
                  (replace (py ".mp4") (py "-Fala.Cronometrada.txt") caminho) = Some c ->
  1024 < Z.of_nat (list_sum (List.map utf8_len c)) ->
  processar_arquivo ffmpeg wh tr args ft ff fa caminho w
  = (Ok tt,
     com_registro INFO
       (py "Pulado: '" ++ caminho ++ py "', arquivo de fala cronometrada '"
          ++ replace (py ".mp3") (py "-Fala.Cronometrada.txt")
               (replace (py ".mp4") (py "-Fala.Cronometrada.txt") caminho)
          ++ py "' j" ++ [225%N] ++ py " existe e " ++ [233%N] ++ py " maior que 1KB.")
       (snd (put fa (MsgStr caminho) w))).
Proof. apply processar_arquivo_pula. Qed.

Lemma arquivos_prontos_sao_pulados_witness :
  let args := Argumentos (py "*.mp4") (py "large-v3") false None false true false in
  let w := Mundo (<[py "aula-Fala.Cronometrada.txt" := repeat 97%N 1025]> ∅) [] [] [] [] in
  let ffmpeg : decodificador := fun _ => Ok (Execucao [] [] (Terminou 0)) in
  let wh := Whisper (fun _ => Ok tt) (fun _ _ => Raise (RuntimeError (py "sem audio"))) in
  let tr := Tradutor (Ok tt) (Ok tt) (fun s => Ok s) in
    fila_de FilaArquivo
      (snd (processar_arquivo ffmpeg wh tr args FilaTranscricao FilaFrames FilaArquivo
              (py "aula.mp4") w))
    = [MsgStr (py "aula.mp4")].
Proof.
  intros args w ffmpeg wh tr.
  rewrite (arquivos_prontos_sao_pulados ffmpeg wh tr args FilaTranscricao FilaFrames
             FilaArquivo (py "aula.mp4") w (repeat 97%N 1025)).
  - reflexivity.
  - reflexivity.
  - vm_compute. reflexivity.
  - vm_compute. reflexivity.
Defined.

(** X12. The name of the transcript is obtained by substituting [.mp4] and
    [.mp3] in the path.  For a path that contains neither, the name is the
    path itself: with [--skip-prontos], such a file is skipped as soon as
    it is itself larger than 1024 bytes. *)
Theorem sem_mp4_nem_mp3_e_pulado
    (ffmpeg : decodificador) (wh : whisper) (tr : tradutor) (args : argumentos)
    (ft ff fa : fila) (caminho : str) (w : mundo) (c : str) :
  contains (py ".mp4") caminho = false ->
  contains (py ".mp3") caminho = false ->
  skip_prontos args = true ->
  arquivos w !! caminho = Some c ->
  1024 < Z.of_nat (list_sum (List.map utf8_len c)) ->
  processar_arquivo ffmpeg wh tr args ft ff fa caminho w
  = (Ok tt,
     com_registro INFO
       (py "Pulado: '" ++ caminho ++ py "', arquivo de fala cronometrada '" ++ caminho
          ++ py "' j" ++ [225%N] ++ py " existe e " ++ [233%N] ++ py " maior que 1KB.")
       (snd (put fa (MsgStr caminho) w))).
Proof.
  intros H4 H3 Hskip Hc Hsize.
  assert (E : replace (py ".mp3") (py "-Fala.Cronometrada.txt")
                (replace (py ".mp4") (py "-Fala.Cronometrada.txt") caminho) = caminho).
  { rewrite (replace_ausente (py ".mp4")) by exact H4. apply replace_ausente, H3. }
  rewrite (processar_arquivo_pula ffmpeg wh tr args ft ff fa caminho w c Hskip);
    rewrite ?E; auto.
Qed.

Lemma sem_mp4_nem_mp3_e_pulado_witness :
  let args := Argumentos (py "*") (py "large-v3") false None false true false in
  let w := Mundo (<[py "aula.MP4" := repeat 97%N 1025]> ∅) [] [] [] [] in
  let ffmpeg : decodificador := fun _ => Ok (Execucao [] [] (Terminou 0)) in
  let wh := Whisper (fun _ => Ok tt) (fun _ _ => Raise (RuntimeError (py "sem audio"))) in
  let tr := Tradutor (Ok tt) (Ok tt) (fun s => Ok s) in
    arquivos
      (snd (processar_arquivo ffmpeg wh tr args FilaTranscricao FilaFrames FilaArquivo
              (py "aula.MP4") w))
    = arquivos w.
Proof.
  intros args w ffmpeg wh tr.
  rewrite (sem_mp4_nem_mp3_e_pulado ffmpeg wh tr args FilaTranscricao FilaFrames
             FilaArquivo (py "aula.MP4") w (repeat 97%N 1025)).
  - reflexivity.
  - reflexivity.
  - reflexivity.
  - reflexivity.
  - vm_compute. reflexivity.
  - vm_compute. reflexivity.
Defined.

(** ** Workers that are switched off *)

Lemma sem_transcricao ffmpeg wh tr args ft ff fa caminho :
  skip_transcricao args = true -> ft <> ff -> ft <> fa ->
  inalterado (fila_de ft) (processar_arquivo ffmpeg wh tr args ft ff fa caminho).
Proof.
  intros Hs Hff Hfa. unfold processar_arquivo. rewrite Hs. cbn [negb]. cbv zeta.
  inalt;
    first [ apply inalterado_os_path_exists
          | apply inalterado_os_path_getsize
          | apply fila_de_processar_frames; congruence ].
Qed.

Lemma sem_frames ffmpeg wh tr args ft ff fa caminho :
  negb (desativar_frames args) && endswith (py ".mp4") caminho = false ->
  ff <> ft -> ff <> fa ->
  inalterado (fila_de ff) (processar_arquivo ffmpeg wh tr args ft ff fa caminho).
Proof.
  intros Hs Hft Hfa. unfold processar_arquivo. rewrite Hs. cbv zeta.
  inalt;
    first [ apply inalterado_os_path_exists
          | apply inalterado_os_path_getsize
          | apply fila_de_processar_transcricao; congruence ].
Qed.

Lemma sem_processos ffmpeg wh tr args ft ff fa caminho :
  skip_transcricao args = true ->
  negb (desativar_frames args) && endswith (py ".mp4") caminho = false ->
  inalterado arquivos (processar_arquivo ffmpeg wh tr args ft ff fa caminho).
Proof.
  intros Ht Hf. unfold processar_arquivo. rewrite Ht, Hf. cbn [negb]. cbv zeta.
  inalt;
    first [ apply inalterado_os_path_exists | apply inalterado_os_path_getsize ].
Qed.



(** ** Transcripts that are lost *)

(** X14. The output files are opened for writing, hence emptied, before
    the segments are counted and before the translation model is loaded.
    When the segment generator fails, or, for an English recording, when
    the tokenizer cannot be loaded, [transcrever_audio_faster_whisper]
    logs and raises that exception and leaves the output files empty:
    a transcript written by an earlier run is lost. *)
Theorem transcricao_falha_esvazia
    (wh : whisper) (tr : tradutor) (caminho nome_modelo : str) (idioma : option str)
    (fila_progresso : option fila) (w : mundo) (g : gerador) (lang : str) (e : exn) :
  carregar_whisper wh nome_modelo = Ok tt ->
  transcribe wh caminho idioma = Ok (g, lang) ->
  let base := rsplit1_head 46%N caminho in
  let r := transcrever_audio_faster_whisper wh tr caminho nome_modelo idioma fila_progresso w in
  (lang <> py "en" -> falha g = Some e ->
   fst r = Raise e /\
   arquivos (snd r)
   = <[base ++ py "-Fala.Cronometrada.txt" := []]> (<[base ++ py ".srt" := []]> (arquivos w))) /\
  (lang = py "en" -> carregar_tokenizer tr = Raise e ->
   fst r = Raise e /\
   arquivos (snd r)
   = <[base ++ py "-Fala.Cronometrada.txt" := []]>
       (<[base ++ py ".srt" := []]>
          (<[base ++ py "-en-Fala.Cronometrada.txt" := []]>
             (<[base ++ py "-en.srt" := []]> (arquivos w))))).
Proof.
  intros Hload Htr base r. subst r base.
  unfold transcrever_audio_faster_whisper, try_except, bind, lift, logging, open_w,
    get_arquivos, set_arquivos, raise_.
  rewrite Hload, Htr. cbn [fst snd]. split.
  - intros Hlang Hfalha. rewrite (str_eqb_false _ _ Hlang).
    unfold consumir. rewrite Hfalha. cbn [fst snd arquivos]. split; reflexivity.
  - intros -> Htok. rewrite Htok. cbn [fst snd arquivos]. split; reflexivity.
Qed.

Lemma transcricao_falha_esvazia_witness :
  let e := RuntimeError (py "audio truncado") in
  let wh := Whisper (fun _ => Ok tt) (fun _ _ => Ok (Gerador [] (Some e), py "pt")) in
  let tr := Tradutor (Ok tt) (Ok tt) (fun t => Ok t) in
  let w := Mundo (<[py "aula.srt" := py "1"]> ∅) [] [] [] [] in
  let r := transcrever_audio_faster_whisper wh tr (py "aula.mp4") (py "large-v3") None None w in
  fst r = Raise e /\ arquivos (snd r) !! py "aula.srt" = Some [].
Proof.
  intros e wh tr w r.
  destruct (proj1 (transcricao_falha_esvazia wh tr (py "aula.mp4") (py "large-v3") None None
                     w (Gerador [] (Some e)) (py "pt") e eq_refl eq_refl)
              ltac:(discriminate) eq_refl) as [H1 H2].
  split; [exact H1 | ]. fold r in H2. rewrite H2. reflexivity.
Defined.

(** ** Appending to a file that was just opened *)

Lemma acrescenta_insert (p a c : str) (fs : gmap str str) :
  acrescenta p a (<[p := c]> fs) = <[p := c ++ a]> fs.
Proof.
  unfold acrescenta. apply map_eq. intros q.
  destruct (decide (p = q)) as [-> | Hne].
  - rewrite lookup_alter_eq, !lookup_insert_eq. reflexivity.
  - rewrite lookup_alter_ne, !lookup_insert_ne by exact Hne. reflexivity.
Qed.

Lemma acrescenta_insert_ne (p q a c : str) (fs : gmap str str) :
  p <> q -> acrescenta p a (<[q := c]> fs) = <[q := c]> (acrescenta p a fs).
Proof.
  intros Hpq. unfold acrescenta. apply map_eq. intros r.
  destruct (decide (p = r)) as [-> | Hp]; destruct (decide (q = r)) as [-> | Hq];
    try congruence.
  - rewrite lookup_alter_eq, lookup_insert_ne, lookup_insert_ne, lookup_alter_eq by exact Hq.
    reflexivity.
  - rewrite lookup_alter_ne, !lookup_insert_eq by exact Hp. reflexivity.
  - rewrite lookup_alter_ne, !lookup_insert_ne, lookup_alter_ne by assumption. reflexivity.
Qed.

(** ** [salvar_transcricao] *)

Lemma salvar_laco_conteudo (srt fala : str) : srt <> fala -> forall segs fs,
  hoare (arquivos_sao fs) (salvar_laco srt fala segs)
    (fun _ => arquivos_sao
       (acrescenta fala (fala_de texto_original (List.map seg_de segs))
          (acrescenta srt (srt_numerado segs) fs))).
Proof.
  intros Hne. induction segs as [ | sn resto IH ]; intros fs.
  - cbn [salvar_laco srt_numerado fala_de List.map]. rewrite !acrescenta_nil.
    eapply hoare_post_true; [apply hoare_ret |]. intros a w [_ Hw]. exact Hw.
  - cbn [salvar_laco srt_numerado fala_de List.map]. cbv zeta.
    repeat passo.
    eapply hoare_conseq; [apply IH | intros w Hw; exact Hw | ].
    intros ? w Hw. unfold arquivos_sao, texto_original in *. rewrite Hw.
    rewrite !acrescenta_acrescenta.
    rewrite (acrescenta_comm srt fala) by exact Hne.
    rewrite !acrescenta_acrescenta. rewrite <- !app_assoc. reflexivity.
Qed.

(** X15. For two different paths, [salvar_transcricao] returns normally,
    whatever the segments: the subtitle file then holds one block per
    segment, under the number the segment carries (the blocks are not
    renumbered), the time-coded transcript holds one line per segment, and
    every other file is as it was.  For no segment at all, both files are
    created empty. *)
Theorem salvar_transcricao_conteudo
    (segmentos : list segmento_numerado) (caminho_srt caminho_fala : str) (w : mundo) :
  caminho_srt <> caminho_fala ->
  fst (salvar_transcricao segmentos caminho_srt caminho_fala w) = Ok tt /\
  arquivos (snd (salvar_transcricao segmentos caminho_srt caminho_fala w))
  = <[caminho_fala := fala_de texto_original (List.map seg_de segmentos)]>
      (<[caminho_srt := srt_numerado segmentos]> (arquivos w)).
Proof.
  intros Hne.
  assert (H : hoare (arquivos_sao (arquivos w))
                (salvar_transcricao segmentos caminho_srt caminho_fala)
                (fun _ => arquivos_sao
                   (acrescenta caminho_fala (fala_de texto_original (List.map seg_de segmentos))
                      (acrescenta caminho_srt (srt_numerado segmentos)
                         (<[caminho_fala := []]> (<[caminho_srt := []]> (arquivos w))))))).
  { unfold salvar_transcricao. apply hoare_try_except. passo. passo.
    apply salvar_laco_conteudo, Hne. }
  destruct (hoare_run _ _ _ w H eq_refl) as ([] & Hr & Hfs).
  split; [exact Hr | ]. unfold arquivos_sao in Hfs. rewrite Hfs.
  rewrite acrescenta_insert_ne by exact Hne.
  rewrite acrescenta_insert, acrescenta_insert. reflexivity.
Qed.

Lemma salvar_transcricao_conteudo_witness :
  let segs := [SegmentoNumerado 7 (Segmento (float_literal "0.0") (float_literal "2.5")
                                     (py " ola "))] in
  fst (salvar_transcricao segs (py "a.srt") (py "a.txt") mundo_vazio) = Ok tt /\
  arquivos (snd (salvar_transcricao segs (py "a.srt") (py "a.txt") mundo_vazio))
  = <[py "a.txt" := fala_de texto_original (List.map seg_de segs)]>
      (<[py "a.srt" := srt_numerado segs]> (arquivos mundo_vazio)).
Proof.
  intros segs. apply salvar_transcricao_conteudo. discriminate.
Defined.

Example salvar_transcricao_execucao :
  arquivos (snd (salvar_transcricao
                   [SegmentoNumerado 7 (Segmento (float_literal "0.0") (float_literal "2.5")
                                          (py " ola "))]
                   (py "a.srt") (py "a.txt") mundo_vazio))
  = <[py "a.txt" := py "00:00:00,000: ola" ++ nl]>
      (<[py "a.srt" := py "7" ++ nl ++ py "00:00:00,000 --> 00:00:02,500" ++ nl
                         ++ py "ola" ++ nl ++ nl]> ∅).
Proof. vm_compute. reflexivity. Qed.

(** ** Substitution: lengths and differences *)

Lemma strip_prefix_Some p : forall l r, strip_prefix p l = Some r -> l = p ++ r.
Proof.
  induction p as [ | a p IH ]; intros l r H; cbn [strip_prefix] in H.
  - injection H as ->. reflexivity.
  - destruct l as [ | b l ]; [discriminate | ].
    destruct (N.eqb_spec a b) as [-> | ]; [ | discriminate ].
    cbn [app]. f_equal. apply IH, H.
Qed.

Lemma contains_nil old : old <> [] -> contains old [] = false.
Proof. intros H. destruct old; [contradiction | reflexivity]. Qed.

Lemma contains_cons_None old c l :
  strip_prefix old (c :: l) = None -> contains old (c :: l) = contains old l.
Proof. intros H. cbn [contains]. unfold startswith. rewrite H. reflexivity. Qed.

Lemma replace_aux_length old new :
  old <> [] -> (length old <= length new)%nat ->
  forall fuel l, (length l <= fuel)%nat ->
    (length l <= length (replace_aux fuel old new l))%nat /\
    (contains old l = true -> (length old < length new)%nat ->
     (length l < length (replace_aux fuel old new l))%nat).
Proof.
  intros Hold Hlen. induction fuel as [ | fuel IH ]; intros l Hl.
  - destruct l; [ | cbn in Hl; lia ]. cbn [replace_aux length]. split; [lia | ].
    rewrite (contains_nil old Hold). discriminate.
  - destruct l as [ | c l ].
    + cbn [replace_aux length]. split; [lia | ].
      rewrite (contains_nil old Hold). discriminate.
    + cbn [replace_aux]. destruct (strip_prefix old (c :: l)) as [rest | ] eqn:E.
      * apply strip_prefix_Some in E.
        assert (Hr : (length rest <= fuel)%nat).
        { apply (f_equal (@length N)) in E. rewrite length_app in E. cbn [length] in *.
          destruct old; [contradiction | cbn [length] in E; lia]. }
        destruct (IH rest Hr) as [H1 _]. rewrite E, !length_app. split; lia.
      * rewrite (contains_cons_None _ _ _ E). cbn [length] in *.
        destruct (IH l ltac:(lia)) as [H1 H2]. split; [lia | ].
        intros Hc Hlt. specialize (H2 Hc Hlt). lia.
Qed.

Lemma replace_aux_mesmo_comprimento old new :
  old <> [] -> length new = length old ->
  forall fuel l, (length l <= fuel)%nat -> length (replace_aux fuel old new l) = length l.
Proof.
  intros Hold Hlen. induction fuel as [ | fuel IH ]; intros l Hl; [reflexivity | ].
  destruct l as [ | c l ]; [reflexivity | ]. cbn [replace_aux].
  destruct (strip_prefix old (c :: l)) as [rest | ] eqn:E.
  - apply strip_prefix_Some in E.
    assert (Hr : (length rest <= fuel)%nat).
    { apply (f_equal (@length N)) in E. rewrite length_app in E. cbn [length] in *.
      destruct old; [contradiction | cbn [length] in E; lia]. }
    rewrite E, !length_app, (IH rest Hr). lia.
  - cbn [length] in *. rewrite (IH l) by lia. reflexivity.
Qed.

Lemma replace_aux_difere old new :
  old <> [] -> length new = length old -> new <> old ->
  forall fuel l, (length l <= fuel)%nat -> contains old l = true ->
    replace_aux fuel old new l <> l.
Proof.
  intros Hold Hlen Hne. induction fuel as [ | fuel IH ]; intros l Hl Hc.
  - destruct l; [ | cbn in Hl; lia ]. rewrite (contains_nil old Hold) in Hc. discriminate.
  - destruct l as [ | c l ]; [rewrite (contains_nil old Hold) in Hc; discriminate | ].
    cbn [replace_aux]. destruct (strip_prefix old (c :: l)) as [rest | ] eqn:E.
    + apply strip_prefix_Some in E. rewrite E. intros Heq.
      apply app_inj_1 in Heq; [ destruct Heq; contradiction | exact Hlen ].
    + rewrite (contains_cons_None _ _ _ E) in Hc. cbn [length] in Hl.
      intros Heq. injection Heq as Heq. apply (IH l ltac:(lia) Hc Heq).
Qed.

(** The three paths of [transcrever_audio] for a video path that contains
    [.mp4]. *)
Lemma caminhos_distintos caminho :
  contains (py ".mp4") caminho = true ->
  replace (py ".mp4") (py ".srt") caminho <> caminho /\
  replace (py ".mp4") (py "-Fala.Cronometrada.txt") caminho <> caminho /\
  replace (py ".mp4") (py ".srt") caminho
  <> replace (py ".mp4") (py "-Fala.Cronometrada.txt") caminho.
Proof.
  intros Hc. unfold replace.
  assert (Hold : py ".mp4" <> []) by discriminate.
  pose proof (replace_aux_mesmo_comprimento (py ".mp4") (py ".srt") Hold eq_refl
                (length caminho) caminho (le_n _)) as H1.
  destruct (replace_aux_length (py ".mp4") (py "-Fala.Cronometrada.txt") Hold
              ltac:(cbn; lia) (length caminho) caminho (le_n _)) as [_ H2].
  specialize (H2 Hc ltac:(cbn; lia)).
  split; [ | split ].
  - apply replace_aux_difere; auto; discriminate.
  - intros E. rewrite E in H2. lia.
  - intros E. rewrite <- E, H1 in H2. lia.
Qed.

(** ** The earlier transcription *)

Lemma escrever_srt_conteudo (p : str) : forall segs fs,
  hoare (arquivos_sao fs) (escrever_srt p segs)
    (fun _ => arquivos_sao (acrescenta p (srt_numerado segs) fs)).
Proof.
  induction segs as [ | sn resto IH ]; intros fs.
  - cbn [escrever_srt srt_numerado]. rewrite acrescenta_nil.
    eapply hoare_post_true; [apply hoare_ret |]. intros a w [_ Hw]. exact Hw.
  - cbn [escrever_srt srt_numerado]. cbv zeta. repeat passo.
    eapply hoare_conseq; [apply IH | intros w Hw; exact Hw | ].
    intros ? w Hw. unfold arquivos_sao, texto_original in *. rewrite Hw.
    rewrite !acrescenta_acrescenta. rewrite <- !app_assoc. reflexivity.
Qed.

Lemma escrever_fala_conteudo (p : str) : forall segs fs,
  hoare (arquivos_sao fs) (escrever_fala p segs)
    (fun _ => arquivos_sao (acrescenta p (fala_de texto_original (List.map seg_de segs)) fs)).
Proof.
  induction segs as [ | sn resto IH ]; intros fs.
  - cbn [escrever_fala fala_de List.map]. rewrite acrescenta_nil.
    eapply hoare_post_true; [apply hoare_ret |]. intros a w [_ Hw]. exact Hw.
  - cbn [escrever_fala fala_de List.map]. cbv zeta. repeat passo.
    eapply hoare_conseq; [apply IH | intros w Hw; exact Hw | ].
    intros ? w Hw. unfold arquivos_sao, texto_original in *. rewrite Hw.
    rewrite !acrescenta_acrescenta. rewrite <- !app_assoc. reflexivity.
Qed.

Lemma transcrever_audio_arquivos wh caminho nome_modelo idioma segs w :
  load_model wh nome_modelo = Ok tt ->
  transcribe_antigo wh caminho idioma = Ok segs ->
  fst (transcrever_audio wh caminho nome_modelo idioma w) = Ok tt /\
  arquivos (snd (transcrever_audio wh caminho nome_modelo idioma w))
  = <[replace (py ".mp4") (py "-Fala.Cronometrada.txt") caminho
        := fala_de texto_original (List.map seg_de segs)]>
      (<[replace (py ".mp4") (py ".srt") caminho := srt_numerado segs]> (arquivos w)).
Proof.
  intros Hload Htr.
  set (srt := replace (py ".mp4") (py ".srt") caminho).
  set (fala := replace (py ".mp4") (py "-Fala.Cronometrada.txt") caminho).
  assert (H : hoare (arquivos_sao (arquivos w))
                (transcrever_audio wh caminho nome_modelo idioma)
                (fun _ => arquivos_sao
                   (acrescenta fala (fala_de texto_original (List.map seg_de segs))
                      (<[fala := []]>
                         (acrescenta srt (srt_numerado segs)
                            (<[srt := []]> (arquivos w))))))).
  { unfold transcrever_audio. apply hoare_try_except.
    eapply hoare_bind; [apply (hoare_lift _ _ _ Hload) | intros ?; cbv beta].
    passo.
    eapply hoare_bind; [apply (hoare_lift _ _ _ Htr) | intros ?; cbv beta].
    passo. cbv zeta. fold srt fala. passo.
    eapply hoare_bind; [apply escrever_srt_conteudo | intros ?; cbv beta].
    passo.
    eapply hoare_bind; [apply escrever_fala_conteudo | intros ?; cbv beta].
    apply hoare_logging. }
  destruct (hoare_run _ _ _ w H eq_refl) as ([] & Hr & Hfs).
  split; [exact Hr | ]. unfold arquivos_sao in Hfs. rewrite Hfs.
  rewrite !acrescenta_insert. reflexivity.
Qed.



(** X17. For a video path that does not contain [.mp4], the two output
    names of [transcrever_audio] are the video path itself: a run that
    succeeds has replaced the content of the video by the time-coded
    transcript (the subtitles, written first to the same path, are gone
    too), and has changed nothing else. *)
Theorem transcrever_audio_sobrescreve
    (wh : whisper_antigo) (caminho nome_modelo idioma : str)
    (segs : list segmento_numerado) (w : mundo) :
  contains (py ".mp4") caminho = false ->
  load_model wh nome_modelo = Ok tt ->
  transcribe_antigo wh caminho idioma = Ok segs ->
  fst (transcrever_audio wh caminho nome_modelo idioma w) = Ok tt /\
  arquivos (snd (transcrever_audio wh caminho nome_modelo idioma w))
  = <[caminho := fala_de texto_original (List.map seg_de segs)]> (arquivos w).
Proof.
  intros Hc Hload Htr.
  destruct (transcrever_audio_arquivos wh caminho nome_modelo idioma segs w Hload Htr)
    as [H1 H2].
  split; [exact H1 | ]. rewrite H2.
  rewrite !(replace_ausente (py ".mp4")) by exact Hc.
  apply insert_insert_eq.
Qed.

Lemma transcrever_audio_sobrescreve_witness :
  let segs := [SegmentoNumerado 0 (Segmento (float_literal "0.0") (float_literal "2.5")
                                     (py " ola "))] in
  let wh := WhisperAntigo (fun _ => Ok tt) (fun _ _ => Ok segs) in
  let w := Mundo (<[py "aula.mkv" := py "VIDEO"]> ∅) [] [] [] [] in
  arquivos (snd (transcrever_audio wh (py "aula.mkv") (py "medium") (py "Portuguese") w))
  = <[py "aula.mkv" := py "00:00:00,000: ola" ++ nl]> ∅.
Proof.
  intros segs wh w.
  rewrite (proj2 (transcrever_audio_sobrescreve wh (py "aula.mkv") (py "medium")
                    (py "Portuguese") segs w eq_refl eq_refl eq_refl)).
  vm_compute. reflexivity.
Defined.

(** ** The legibility test, as its caller sees it *)

Lemma palavras_longas_nil : palavras_longas [] = [].
Proof. reflexivity. Qed.

Lemma texto_legivel_run detect texto w :
  exists b w',
    texto_legivel detect texto w = (Ok b, w') /\
    arquivos w' = arquivos w /\ (forall q, fila_de q w' = fila_de q w) /\
    (b = true ->
     w' = w /\ detect (limpar texto) = Ok (py "pt") /\ palavras_longas (limpar texto) <> []).
Proof.
  unfold texto_legivel, try_except, bind, lift. cbv zeta.
  destruct (str_eqb (limpar texto) []).
  { exists false, w. repeat split; discriminate. }
  destruct (detect (limpar texto)) as [idioma | e].
  - unfold str_eqb. destruct (bool_decide_reflect (idioma = py "pt")) as [-> | Hne]; cbn [negb].
    + destruct (palavras_longas (limpar texto)) as [ | p ps ] eqn:Ep.
      * exists false, w. repeat split; discriminate.
      * exists true, w. repeat split; discriminate.
    + exists false, w. repeat split; discriminate.
  - eexists false, _. split; [reflexivity | ].
    split; [reflexivity | ]. split; [ intros q; destruct q; reflexivity | discriminate ].
Qed.

Lemma texto_legivel_aceita detect texto w :
  detect (limpar texto) = Ok (py "pt") -> palavras_longas (limpar texto) <> [] ->
  texto_legivel detect texto w = (Ok true, w).
Proof.
  intros Hd Hp. unfold texto_legivel, try_except, bind, lift. cbv zeta.
  assert (Hl : str_eqb (limpar texto) [] = false).
  { apply str_eqb_false. intros E. rewrite E in Hp. apply Hp, palavras_longas_nil. }
  rewrite Hl, Hd. change (str_eqb (py "pt") (py "pt")) with true. cbn [negb].
  destruct (palavras_longas (limpar texto)); [contradiction | reflexivity].
Qed.

(** ** One frame *)

Lemma arquivos_com_registro n s w : arquivos (com_registro n s w) = arquivos w.
Proof. reflexivity. Qed.

Lemma fila_de_com_registro q n s w : fila_de q (com_registro n s w) = fila_de q w.
Proof. destruct q; reflexivity. Qed.

Lemma processar_frame_ocr_aceito {imagem} (o : ocr imagem) detect caminho pasta w
    (c : str) im im' texto :
  arquivos w !! caminho = Some c ->
  image_open o c = Ok im -> operacoes_de_imagem o im = Ok im' ->
  image_to_string o im' = Ok texto ->
  strip texto <> [] ->
  detect (limpar texto) = Ok (py "pt") -> palavras_longas (limpar texto) <> [] ->
  caminho <> os_path_join pasta (os_path_basename caminho) ->
  processar_frame_ocr o detect caminho pasta w
  = (Ok tt,
     Mundo (<[os_path_join pasta (replace (py ".png") (py ".txt") (os_path_basename caminho))
                := strip texto]>
              (<[os_path_join pasta (os_path_basename caminho) := c]> (arquivos w)))
           (registro w) (fila_frames w) (fila_transcricao w) (fila_arquivo w)).
Proof.
  intros Hc Ho Hp Hs Hstrip Hd Hl Hne.
  unfold processar_frame_ocr, try_except.
  unfold bind at 1. unfold get_arquivos at 1. cbv beta iota.
  unfold str in *. rewrite Hc.
  unfold bind at 1. unfold lift at 1. rewrite Ho. cbv beta iota.
  unfold bind at 1. unfold preprocessar_imagem, try_except, lift. rewrite Hp. cbv beta iota.
  unfold bind at 1. rewrite Hs. cbv beta iota.
  unfold bind at 1. rewrite (str_eqb_false _ _ Hstrip). cbn [negb].
  rewrite (texto_legivel_aceita detect texto w Hd Hl). cbv beta iota zeta.
  unfold bind, shutil_copy, open_w, write, get_arquivos, set_arquivos, bind.
  cbv beta iota. unfold str in *. rewrite Hc. rewrite (str_eqb_false _ _ Hne). cbv beta iota.
  cbn [arquivos registro fila_frames fila_transcricao fila_arquivo].
  f_equal. f_equal.
  set (txt := os_path_join pasta (replace (py ".png") (py ".txt") (os_path_basename caminho))).
  apply map_eq. intros p.
  destruct (decide (txt = p)) as [<- | Hp'].
  - rewrite lookup_alter_eq, !lookup_insert_eq. reflexivity.
  - rewrite lookup_alter_ne by exact Hp'.
    rewrite !(lookup_insert_ne _ txt p) by exact Hp'. reflexivity.
Qed.

Ltac desdobra_ocr :=
  unfold processar_frame_ocr, preprocessar_imagem, try_except, bind, get_arquivos, lift,
    shutil_copy, open_w, write, set_arquivos, raise_, ret, logging;
  unfold bind, get_arquivos, set_arquivos;
  unfold str in *; cbv beta iota.

Ltac inalterado_ocr :=
  split; [ reflexivity
         | split; [ intros q; destruct q; reflexivity | left; reflexivity ] ].

Lemma processar_frame_ocr_casos {imagem} (o : ocr imagem) detect caminho pasta w :
  fst (processar_frame_ocr o detect caminho pasta w) = Ok tt /\
  (forall q, fila_de q (snd (processar_frame_ocr o detect caminho pasta w)) = fila_de q w) /\
  (arquivos (snd (processar_frame_ocr o detect caminho pasta w)) = arquivos w \/
   exists (c : str) im im' texto,
     arquivos w !! caminho = Some c /\
     image_open o c = Ok im /\ operacoes_de_imagem o im = Ok im' /\
     image_to_string o im' = Ok texto /\
     strip texto <> [] /\
     detect (limpar texto) = Ok (py "pt") /\ palavras_longas (limpar texto) <> [] /\
     caminho <> os_path_join pasta (os_path_basename caminho)).
Proof.
  destruct (arquivos w !! caminho) as [c | ] eqn:Hc.
  2:{ desdobra_ocr. rewrite Hc. inalterado_ocr. }
  destruct (image_open o c) as [im | e] eqn:Ho.
  2:{ desdobra_ocr. rewrite Hc, Ho. inalterado_ocr. }
  destruct (operacoes_de_imagem o im) as [im' | e] eqn:Hp.
  2:{ desdobra_ocr. rewrite Hc, Ho, Hp. inalterado_ocr. }
  destruct (image_to_string o im') as [texto | e] eqn:Hs.
  2:{ desdobra_ocr. rewrite Hc, Ho, Hp, Hs. inalterado_ocr. }
  destruct (bool_decide_reflect (strip texto = [])) as [Hst | Hst].
  { desdobra_ocr. rewrite Hc, Ho, Hp, Hs. unfold str_eqb.
    rewrite bool_decide_eq_true_2 by exact Hst. inalterado_ocr. }
  destruct (texto_legivel_run detect texto w) as (b & w' & Hrun & Ha & Hq & Hb).
  destruct b.
  2:{ desdobra_ocr. rewrite Hc, Ho, Hp, Hs. rewrite (str_eqb_false _ _ Hst). cbn [negb].
      rewrite Hrun. cbv beta iota. cbn [fst snd].
      split; [reflexivity | ]. split; [exact Hq | left; exact Ha]. }
  destruct (Hb eq_refl) as (-> & Hd & Hl).
  destruct (bool_decide_reflect (caminho = os_path_join pasta (os_path_basename caminho)))
    as [Heq | Hne].
  { desdobra_ocr. rewrite Hc, Ho, Hp, Hs. rewrite (str_eqb_false _ _ Hst). cbn [negb].
    rewrite Hrun. cbv beta iota. rewrite Hc. unfold str_eqb.
    rewrite bool_decide_eq_true_2 by exact Heq. inalterado_ocr. }
  rewrite (processar_frame_ocr_aceito o detect caminho pasta w c im im' texto) by assumption.
  cbn [fst snd]. split; [reflexivity | ].
  split; [ intros q; destruct q; reflexivity | ].
  right. exists c, im, im', texto. repeat split; assumption.
Qed.

(** X18. [processar_frame_ocr] never raises and touches no queue.  It
    changes the file system only for a frame that exists, that the
    imaging and recognition steps accept, and whose recognised text is not
    blank, is detected as Portuguese and has, once cleaned, a word of four
    characters or more. *)
Theorem frame_copiado_so_se_legivel
    (imagem : Type) (o : ocr imagem) (detect : str -> result str)
    (caminho pasta : str) (w : mundo) :
  fst (processar_frame_ocr o detect caminho pasta w) = Ok tt /\
  (forall q, fila_de q (snd (processar_frame_ocr o detect caminho pasta w)) = fila_de q w) /\
  (arquivos (snd (processar_frame_ocr o detect caminho pasta w)) <> arquivos w ->
   exists (c : str) im im' texto,
     arquivos w !! caminho = Some c /\
     image_open o c = Ok im /\ operacoes_de_imagem o im = Ok im' /\
     image_to_string o im' = Ok texto /\
     strip texto <> [] /\
     detect (limpar texto) = Ok (py "pt") /\ palavras_longas (limpar texto) <> []).
Proof.
  destruct (processar_frame_ocr_casos o detect caminho pasta w) as (H1 & H2 & H3).
  split; [exact H1 | ]. split; [exact H2 | ].
  intros Hne. destruct H3 as [Heq | (c & im & im' & texto & Hc & Ho & Hp & Hs & Hst & Hd & Hl & _)].
  - contradiction.
  - exists c, im, im', texto. repeat split; assumption.
Qed.

Lemma frame_copiado_so_se_legivel_witness :
  let o := Ocr str (fun c => Ok c) (fun im => Ok im) (fun _ => Ok (py " Aula de hoje ")) in
  let w := Mundo (<[py "tmp/frame_00-00-000.png" := py "PNG"]> ∅) [] [] [] [] in
  exists (c : str) im im' texto,
    arquivos w !! py "tmp/frame_00-00-000.png" = Some c /\
    image_open o c = Ok im /\ operacoes_de_imagem o im = Ok im' /\
    image_to_string o im' = Ok texto /\
    strip texto <> [] /\
    (fun _ : str => Ok (py "pt")) (limpar texto) = Ok (py "pt") /\
    palavras_longas (limpar texto) <> [].
Proof.
  intros o w.
  apply (proj2 (proj2 (frame_copiado_so_se_legivel str o (fun _ => Ok (py "pt"))
                         (py "tmp/frame_00-00-000.png") (py "out") w))).
  intros E. apply (f_equal (fun fs : gmap str str => fs !! py "out/frame_00-00-000.txt")) in E.
  vm_compute in E. discriminate.
Defined.



(** ** The translation script *)

Lemma traduzir_linhas_spec (tr : Traduz.translator) (target : str) (linhas : list str) :
  Forall2
    (fun line out =>
       if str_eqb (strip line) [] then out = []
       else Traduz.translate tr line target = Ok out \/
            (exists e, Traduz.translate tr line target = Raise e /\ out = line))
    linhas (fst (Traduz.traduzir_linhas tr target linhas)).
Proof.
  induction linhas as [ | line resto IH ]; cbn [Traduz.traduzir_linhas]; [constructor | ].
  destruct (Traduz.traduzir_linhas tr target resto) as [ts ps]. cbn [fst] in IH.
  destruct (str_eqb (strip line) []) eqn:Eb; cbn [negb].
  - cbn [fst]. constructor; [rewrite Eb; reflexivity | exact IH].
  - destruct (Traduz.translate tr line target) as [t | e] eqn:Et; cbn [fst];
      (constructor; [rewrite Eb | exact IH]).
    + left. exact Et.
    + right. exists e. split; [exact Et | reflexivity].
Qed.

(** X20. Once the client of the translation service exists,
    [translate_line_by_line] returns normally, whatever the service does:
    its result is the lines of the input (as [splitlines] cuts them)
    joined by line feeds, where a line of white space only has become
    empty, a line the service translated has become its translation, and a
    line on which the service failed is kept as it was.  The number of
    lines is that of the input, and the terminator of the last line is
    lost. *)
Theorem translate_line_by_line_linhas
    (tr : Traduz.translator) (content target_lang : str) :
  Traduz.criar tr = Ok tt ->
  exists linhas,
    fst (Traduz.translate_line_by_line tr content target_lang) = Ok (join nl linhas) /\
    length linhas = length (Traduz.splitlines content) /\
    Forall2
      (fun line out =>
         if str_eqb (strip line) [] then out = []
         else Traduz.translate tr line target_lang = Ok out \/
              (exists e, Traduz.translate tr line target_lang = Raise e /\ out = line))
      (Traduz.splitlines content) linhas.
Proof.
  intros Hc. unfold Traduz.translate_line_by_line. rewrite Hc.
  pose proof (traduzir_linhas_spec tr target_lang (Traduz.splitlines content)) as HF.
  destruct (Traduz.traduzir_linhas tr target_lang (Traduz.splitlines content)) as [ts ps].
  cbn [fst] in *. exists ts. split; [reflexivity | ]. split; [ | exact HF ].
  symmetry. apply (Forall2_length _ _ _ HF).
Qed.

Lemma translate_line_by_line_linhas_witness :
  let tr := Traduz.Translator (Ok tt)
              (fun line _ => if str_eqb line (py "good day") then Ok (py "bom dia")
                             else Raise (OtherException (py "timeout"))) in
  let content := py "good day" ++ nl ++ py "   " ++ nl ++ py "see you" ++ nl in
  exists linhas,
    fst (Traduz.translate_line_by_line tr content (py "pt")) = Ok (join nl linhas) /\
    length linhas = length (Traduz.splitlines content) /\
    Forall2
      (fun line out =>
         if str_eqb (strip line) [] then out = []
         else Traduz.translate tr line (py "pt") = Ok out \/
              (exists e, Traduz.translate tr line (py "pt") = Raise e /\ out = line))
      (Traduz.splitlines content) linhas.
Proof.
  intros tr content. apply translate_line_by_line_linhas. reflexivity.
Defined.

Example translate_line_by_line_execucao :
  Traduz.translate_line_by_line
    (Traduz.Translator (Ok tt)
       (fun line _ => if str_eqb line (py "good day") then Ok (py "bom dia")
                      else Raise (OtherException (py "timeout"))))
    (py "good day" ++ nl ++ py "   " ++ nl ++ py "see you" ++ nl) (py "pt")
  = (Ok (py "bom dia" ++ nl ++ nl ++ py "see you"),
     [py "Erro ao traduzir a linha: see you. Erro: timeout"]).
Proof. vm_compute. reflexivity. Qed.

(** *** One file *)

Lemma translate_file_casos (tr : Traduz.translator) (input output target : str)
    (fs : gmap str str) :
  fst (Traduz.translate_file tr input output target fs) = fs \/
  exists (c : str) translated,
    fs !! input = Some c /\
    fst (Traduz.translate_line_by_line tr (Traduz.universal_newlines c) target)
    = Ok translated /\
    fst (Traduz.translate_file tr input output target fs) = <[output := translated]> fs.
Proof.
  unfold Traduz.translate_file. destruct (fs !! input) as [c | ] eqn:Hc; [ | left; reflexivity ].
  cbv zeta.
  destruct (Traduz.translate_line_by_line tr (Traduz.universal_newlines c) target)
    as [[translated | e] ps] eqn:Et.
  - right. exists c, translated. rewrite Et. repeat split; reflexivity.
  - left. reflexivity.
Qed.

(** X21. [translate_file] never raises and writes to no path other than
    the output path.  When the input file does not exist, or when the
    client of the translation service cannot be created, it writes
    nothing at all: the output file is opened only after the whole
    content was read and translated.  Otherwise the output file holds
    the translation of the input read with universal newlines. *)
Theorem translate_file_so_escreve_saida
    (tr : Traduz.translator) (input_file output_file target_lang : str)
    (fs : gmap str str) :
  let fs' := fst (Traduz.translate_file tr input_file output_file target_lang fs) in
  (forall p, p <> output_file -> fs' !! p = fs !! p) /\
  (fs !! input_file = None \/ (exists e, Traduz.criar tr = Raise e) -> fs' = fs) /\
  (forall c : str, fs !! input_file = Some c -> Traduz.criar tr = Ok tt ->
     exists translated,
       fst (Traduz.translate_line_by_line tr (Traduz.universal_newlines c) target_lang)
       = Ok translated /\
       fs' = <[output_file := translated]> fs).
Proof.
  intros fs'. subst fs'. split; [ | split ].
  - intros p Hp.
    destruct (translate_file_casos tr input_file output_file target_lang fs)
      as [-> | (c & t & _ & _ & ->)]; [reflexivity | ].
    apply lookup_insert_ne. congruence.
  - intros [Hn | (e & He)]; unfold Traduz.translate_file.
    + unfold str in *. rewrite Hn. reflexivity.
    + destruct (fs !! input_file); [ | reflexivity ]. cbv zeta.
      unfold Traduz.translate_line_by_line. rewrite He. reflexivity.
  - intros c Hc Hcr. unfold Traduz.translate_file. unfold str in *. rewrite Hc. cbv zeta.
    unfold Traduz.translate_line_by_line. rewrite Hcr.
    destruct (Traduz.traduzir_linhas tr target_lang
                (Traduz.splitlines (Traduz.universal_newlines c))) as [ts ps].
    eexists. split; reflexivity.
Qed.

Lemma translate_file_so_escreve_saida_witness :
  let tr := Traduz.Translator (Ok tt) (fun line _ => Ok (py "PT:" ++ line)) in
  let fs : gmap str str := <[py "a.txt" := py "hello" ++ [13%N; 10%N] ++ py "world"]> ∅ in
  let fs' := fst (Traduz.translate_file tr (py "a.txt") (py "a-pt.BR.txt") (py "pt") fs) in
  fs' !! py "a.txt" = fs !! py "a.txt" /\
  exists translated,
    fst (Traduz.translate_line_by_line tr
           (Traduz.universal_newlines (py "hello" ++ [13%N; 10%N] ++ py "world")) (py "pt"))
    = Ok translated /\
    fs' = <[py "a-pt.BR.txt" := translated]> fs.
Proof.
  intros tr fs fs'.
  destruct (translate_file_so_escreve_saida tr (py "a.txt") (py "a-pt.BR.txt") (py "pt") fs)
    as (H1 & _ & H3).
  split.
  - apply H1. discriminate.
  - apply H3; reflexivity.
Defined.

(** *** All the files *)

Lemma os_path_basename_sufixo p : exists d, p = d ++ os_path_basename p.
Proof.
  induction p as [ | c p IH ]; [exists []; reflexivity | ].
  cbn [os_path_basename]. destruct (existsb (N.eqb sep) (c :: p)).
  - destruct IH as (d & Hd). exists (c :: d). cbn [app]. f_equal. exact Hd.
  - exists []. reflexivity.
Qed.

Lemma rsplit1_head_prefixo s l : exists r, l = rsplit1_head s l ++ r.
Proof.
  induction l as [ | c l IH ]; [exists []; reflexivity | ].
  cbn [rsplit1_head]. destruct (existsb (N.eqb s) l).
  - destruct IH as (r & Hr). exists r. cbn [app]. f_equal. exact Hr.
  - destruct (c =? s)%N; [ exists (c :: l) | exists [] ]; [reflexivity | ].
    rewrite app_nil_r. reflexivity.
Qed.

Lemma os_path_splitext_root_prefixo p : exists ext, p = os_path_splitext_root p ++ ext.
Proof.
  unfold os_path_splitext_root. cbv zeta.
  destruct (os_path_basename_sufixo p) as (d & Hd).
  set (b := os_path_basename p) in *.
  assert (Ht : take (length p - length b) p = d).
  { rewrite Hd at 2. rewrite Hd at 1. rewrite length_app.
    replace (length d + length b - length b)%nat with (length d) by lia.
    apply take_app_length. }
  rewrite Ht.
  destruct (existsb (N.eqb 46%N) b && negb (forallb (N.eqb 46%N) (rsplit1_head 46%N b))).
  - destruct (rsplit1_head_prefixo 46%N b) as (r & Hr). exists r.
    rewrite <- app_assoc, <- Hr. exact Hd.
  - exists []. rewrite app_nil_r. reflexivity.
Qed.

Lemma os_path_splitext_soma p :
  fst (Traduz.os_path_splitext p) ++ snd (Traduz.os_path_splitext p) = p.
Proof.
  unfold Traduz.os_path_splitext. cbv zeta. cbn [fst snd].
  destruct (os_path_splitext_root_prefixo p) as (ext & Hext).
  rewrite Hext at 3. rewrite drop_app_length. symmetry. exact Hext.
Qed.

Lemma process_files_laco_fora tr target (p : str) : forall files (fs : gmap str str),
  (forall f, In f files ->
     p <> fst (Traduz.os_path_splitext f) ++ py "-pt.BR" ++ snd (Traduz.os_path_splitext f)) ->
  fst (Traduz.process_files_laco tr target files fs) !! p = fs !! p.
Proof.
  induction files as [ | f resto IH ]; intros fs Hp; [reflexivity | ].
  cbn [Traduz.process_files_laco].
  destruct (Traduz.os_path_splitext f) as [base ext] eqn:Es.
  destruct (Traduz.translate_file tr f (base ++ py "-pt.BR" ++ ext) target fs)
    as [fs1 p1] eqn:Et.
  specialize (IH fs1 ltac:(intros g Hg; apply Hp; right; exact Hg)).
  destruct (Traduz.process_files_laco tr target resto fs1) as [fs2 p2].
  cbn [fst] in *. rewrite IH.
  assert (Hf : p <> base ++ py "-pt.BR" ++ ext).
  { specialize (Hp f ltac:(left; reflexivity)). rewrite Es in Hp. exact Hp. }
  destruct (translate_file_casos tr f (base ++ py "-pt.BR" ++ ext) target fs)
    as [E | (c & t & _ & _ & E)]; rewrite Et in E; cbn [fst] in E; rewrite E.
  - reflexivity.
  - apply lookup_insert_ne. congruence.
Qed.

(** X22. The translation script writes only to the output names it
    derives from the files found: a path that is not the name of a file
    found with [-pt.BR] inserted before its extension holds afterwards
    what it held before.  The root and the extension of a path make up
    the path, so an output name is six characters longer than the name it
    comes from: no file is replaced by its own translation. *)
Theorem traduz_so_escreve_saidas
    (glob : str -> list str) (tr : Traduz.translator) (input_mask target_lang : str)
    (fs : gmap str str) :
  (forall p,
     (forall f, In f (glob input_mask) ->
        p <> fst (Traduz.os_path_splitext f) ++ py "-pt.BR" ++ snd (Traduz.os_path_splitext f)) ->
     fst (Traduz.process_files glob tr input_mask target_lang fs) !! p = fs !! p) /\
  (forall f,
     fst (Traduz.os_path_splitext f) ++ snd (Traduz.os_path_splitext f) = f /\
     length (fst (Traduz.os_path_splitext f) ++ py "-pt.BR" ++ snd (Traduz.os_path_splitext f))
     = (length f + 6)%nat /\
     fst (Traduz.os_path_splitext f) ++ py "-pt.BR" ++ snd (Traduz.os_path_splitext f) <> f).
Proof.
  split.
  - intros p Hp. unfold Traduz.process_files. cbv zeta.
    destruct (glob input_mask) as [ | f resto ] eqn:Eg; [reflexivity | ].
    apply process_files_laco_fora. exact Hp.
  - intros f. pose proof (os_path_splitext_soma f) as Hs.
    assert (Hl : length (fst (Traduz.os_path_splitext f) ++ py "-pt.BR"
                           ++ snd (Traduz.os_path_splitext f)) = (length f + 6)%nat).
    { rewrite <- Hs at 3. rewrite !length_app. cbn [length py]. 
      change (length (py "-pt.BR")) with 6%nat. lia. }
    split; [exact Hs | ]. split; [exact Hl | ].
    intros E. rewrite E in Hl. lia.
Qed.

Lemma traduz_so_escreve_saidas_witness :
  let tr := Traduz.Translator (Ok tt) (fun line _ => Ok (py "PT:" ++ line)) in
  let fs : gmap str str := <[py "a.txt" := py "hello"]> (<[py "b.md" := py "B"]> ∅) in
  fst (Traduz.process_files (fun _ => [py "a.txt"]) tr (py "*.txt") (py "pt") fs) !! py "a.txt"
  = Some (py "hello").
Proof.
  intros tr fs.
  rewrite (proj1 (traduz_so_escreve_saidas (fun _ => [py "a.txt"]) tr (py "*.txt") (py "pt") fs)).
  - reflexivity.
  - intros f [<- | []]. vm_compute. discriminate.
Defined.

Example traduz_execucao :
  Traduz.process_files (fun _ => [py "a.txt"; py "z.txt"])
    (Traduz.Translator (Ok tt) (fun line _ => Ok (py "PT:" ++ line)))
    (py "*.txt") (py "pt") (<[py "a.txt" := py "hello" ++ [13%N; 10%N] ++ py "world" ++ nl]> ∅)
  = (<[py "a-pt.BR.txt" := py "PT:hello" ++ nl ++ py "PT:world"]>
       (<[py "a.txt" := py "hello" ++ [13%N; 10%N] ++ py "world" ++ nl]> ∅),
     [py "Tradu" ++ [231; 227]%N ++ py "o conclu" ++ [237%N]
        ++ py "da. Arquivo salvo em: a-pt.BR.txt";
      py "Erro ao processar o arquivo 'z.txt': [Errno 2] No such file or directory: 'z.txt'"]).
Proof. vm_compute. reflexivity. Qed.
